(** * Venue directory and moderation service: the fields router

    A shallow embedding of the Express router of [src/server.js]
    ([routes/fields]): the PostgreSQL tables it queries become lists of
    rows held in a [db] record, every handler becomes a function from the
    request and the database to a response and the next database, and the
    SQL statements are written with [filter] and [map] in the order the
    handler issues them.

    Conventions of the model.
    - Row identifiers, timestamps and HTTP status codes are integers ([Z]).
      A path parameter is the integer its segment denotes.  The id columns
      are PostgreSQL INTEGERs: a statement that binds a path parameter
      outside that type raises, and the handler's [catch] answers 500
      (a segment that denotes no integer raises in the same place).  The
      [userId] of the token was read from [users.id] when the token was
      signed, so it is taken to be an INTEGER value.
    - A table is the list of its rows in insertion order.  [ORDER BY] is a
      stable sort of that list, so rows with equal keys keep table order.
    - [CURRENT_TIMESTAMP], the file name multer generates and the outcome
      of the e-mail collaborator are inputs of the handler that uses them.
    - A character of a string is one [ascii].
    - The files under [uploads/] are not part of the state.

    After the handlers the claims are about come the read handlers of the
    same router, [/delete-all-fields], the [/my-fields] handler of the
    users router and [validateEmail] of the auth router.  The handlers
    that create and update a venue are not embedded: what they store
    depends on express-validator's sanitizers and on PostgreSQL's
    conversion of the body to [DECIMAL] and [VARCHAR] columns. *)

From Stdlib Require Import ZArith List String Ascii Bool Lia.
From Stdlib Require Import Sorting.Sorted Sorting.Permutation.
Import ListNotations.

Local Open Scope string_scope.
Local Open Scope Z_scope.

(** ** Rows of the four tables created by [/init-db], and the legacy table *)

Module User.
Record t := mk {
  id : Z;
  username : string;
  email : string;
  is_admin : bool
}.
End User.

Module Venue.
Record t := mk {
  id : Z;
  name : string;
  description : option string;
  latitude : Z;
  longitude : Z;
  address : option string;
  city : option string;
  province : option string;
  region : option string;
  sport_type : string;
  surface_type : option string;
  venue_type : option string;
  is_public : bool;
  has_lighting : bool;
  has_changing_rooms : bool;
  has_parking : bool;
  opening_hours : option string;
  prices : option string;
  added_by_user_id : option Z;
  added_by_username : option string;
  created_at : Z;
  updated_at : Z
}.
End Venue.

(** [football_fields] is read and written by the delete handler only; its
    definition is not in the source, and the handler uses two of its
    columns. *)
Module Legacy.
Record t := mk {
  id : Z;
  added_by_user_id : option Z
}.
End Legacy.

Module Image.
Record t := mk {
  id : Z;
  field_id : Z;
  image_url : string;
  uploaded_by : Z;
  uploaded_at : Z;
  is_primary : bool
}.

Definition set_is_primary (b : bool) (r : t) : t :=
  mk (id r) (field_id r) (image_url r) (uploaded_by r) (uploaded_at r) b.
End Image.

Module Report.
Record t := mk {
  id : Z;
  venue_id : Z;
  reported_by_user_id : Z;
  report_type : string;
  description : option string;
  status : string;
  created_at : Z;
  updated_at : Z
}.
End Report.

Record db := mkDb {
  users : list User.t;
  sports_venues : list Venue.t;
  football_fields : list Legacy.t;
  field_images : list Image.t;
  venue_reports : list Report.t;
  field_images_id_seq : Z;
  venue_reports_id_seq : Z
}.

Definition with_field_images (imgs : list Image.t) (s : db) : db :=
  mkDb (users s) (sports_venues s) (football_fields s) imgs
       (venue_reports s) (field_images_id_seq s) (venue_reports_id_seq s).

(** ** Responses *)

(** One entry of the array express-validator produces. *)
Record validation_error := mkVErr {
  ve_param : string;
  ve_msg : string
}.

(** One element of the [images] JSON array built by [json_build_object]. *)
Record image_json := mkImageJson {
  ij_id : Z;
  ij_image_url : string;
  ij_uploaded_by : Z;
  ij_uploaded_at : Z;
  ij_is_primary : bool
}.

(** One row of the venue listing: [f.*], the joined [u.username] and the
    aggregated images.  The joined name is selected under the alias
    [added_by_username], after [f.*], so in the row object it takes the
    place of the column of that name. *)
Record venue_row := mkVenueRow {
  vr_venue : Venue.t;
  vr_added_by_username : option string;
  vr_images : list image_json
}.

Inductive body :=
| Message (message : string)
| Errors (errors : list validation_error)
| ImageUploaded (message imageUrl : string)
| ReportCreated (message : string) (report : Report.t)
| Rows (rows : list venue_row).

Record response := mkResponse {
  status : Z;
  json : body
}.

(** The decoded token the [auth] middleware leaves in [req.user]. *)
Record auth_user := mkAuthUser {
  userId : Z;
  token_username : string;
  token_is_admin : bool
}.

(** ** INTEGER parameters *)

(** PostgreSQL's INTEGER, the type of the id columns created by
    [/init-db].  [pool.query] rejects when a parameter that is compared
    with such a column, or stored in one, is not an INTEGER value; the
    handler's [catch] then answers 500, and what the statements before it
    did stays done, none of the handlers opening a transaction. *)
Definition int4 (n : Z) : bool := (-2147483648 <=? n) && (n <=? 2147483647).

(** ** SQL statements over a table *)

Section Sql.
Context {A : Type}.

Definition select_where (p : A -> bool) (tbl : list A) : list A :=
  filter p tbl.

Definition delete_where (p : A -> bool) (tbl : list A) : list A :=
  filter (fun r => negb (p r)) tbl.

Definition update_where (p : A -> bool) (f : A -> A) (tbl : list A) : list A :=
  map (fun r => if p r then f r else r) tbl.

(** [ORDER BY]: stable insertion sort under a total preorder [le]. *)
Fixpoint insert_by (le : A -> A -> bool) (x : A) (l : list A) : list A :=
  match l with
  | [] => [x]
  | y :: l' => if le x y then x :: l else y :: insert_by le x l'
  end.

Definition order_by (le : A -> A -> bool) (l : list A) : list A :=
  fold_right (insert_by le) [] l.

Definition limit (n : nat) (l : list A) : list A := firstn n l.
End Sql.

(** ** [ILIKE] *)

(** Case folding of the letters A to Z.  How PostgreSQL folds a letter
    outside ASCII depends on the locale of the database and is left out. *)
Definition to_lower (c : ascii) : ascii :=
  let n := nat_of_ascii c in
  if ((65 <=? n) && (n <=? 90))%nat then ascii_of_nat (n + 32) else c.

Fixpoint lower (s : string) : string :=
  match s with
  | EmptyString => EmptyString
  | String c s' => String (to_lower c) (lower s')
  end.

Definition pct : ascii := "%"%char.
Definition underscore : ascii := "_"%char.
Definition backslash : ascii := "092"%char.

(** PostgreSQL's [LIKE]: the pattern has to match the whole text; [%]
    stands for any run of characters, [_] for any one character, and a
    backslash makes the next pattern character literal.  A pattern that
    ends in a lone backslash is an error in PostgreSQL; the patterns the
    listing builds end in [%], so that case ([false] here) is never
    reached by it. *)
Fixpoint like_match (p t : string) {struct p} : bool :=
  match p with
  | EmptyString => match t with EmptyString => true | _ => false end
  | String c p' =>
      if Ascii.eqb c pct then
        (fix star (t : string) : bool :=
           like_match p' t
           || match t with
              | EmptyString => false
              | String _ t' => star t'
              end) t
      else if Ascii.eqb c underscore then
        match t with
        | EmptyString => false
        | String _ t' => like_match p' t'
        end
      else if Ascii.eqb c backslash then
        match p' with
        | EmptyString => false
        | String e p'' =>
            match t with
            | EmptyString => false
            | String x t' => Ascii.eqb e x && like_match p'' t'
            end
        end
      else
        match t with
        | EmptyString => false
        | String x t' => Ascii.eqb c x && like_match p' t'
        end
  end.

(** [x ILIKE p]: both sides are folded to lower case, then matched. *)
Definition ilike (x p : string) : bool := like_match (lower p) (lower x).

(** A comparison with a NULL column is not true, so the row is dropped. *)
Definition col_ilike (col : option string) (p : string) : bool :=
  match col with
  | Some x => ilike x p
  | None => false
  end.

Definition col_eq (col : option string) (v : string) : bool :=
  match col with
  | Some x => String.eqb x v
  | None => false
  end.

(** ** GET /  (venue listing) *)

Record list_query := mkQuery {
  q_city : option string;
  q_province : option string;
  q_region : option string;
  q_surface_type : option string;
  q_venue_type : option string;
  q_sport_type : option string
}.

(** [if (city)]: a query parameter that is missing or the empty string is
    falsy and adds no condition. *)
Definition truthy (o : option string) : option string :=
  match o with
  | Some EmptyString => None
  | Some x => Some x
  | None => None
  end.

(** The parameter pushed for the three [ILIKE] conditions. *)
Definition like_param (x : string) : string := "%" ++ x ++ "%".

Definition cond_ilike (col : option string) (filter : option string) : bool :=
  match truthy filter with
  | Some x => col_ilike col (like_param x)
  | None => true
  end.

Definition cond_eq (col : option string) (filter : option string) : bool :=
  match truthy filter with
  | Some x => col_eq col x
  | None => true
  end.

(** [WHERE 1=1 AND ...], one conjunct per truthy parameter. *)
Definition where_clause (q : list_query) (f : Venue.t) : bool :=
  cond_ilike (Venue.city f) (q_city q)
  && cond_ilike (Venue.province f) (q_province q)
  && cond_ilike (Venue.region f) (q_region q)
  && cond_eq (Venue.surface_type f) (q_surface_type q)
  && cond_eq (Venue.venue_type f) (q_venue_type q)
  && cond_eq (Some (Venue.sport_type f)) (q_sport_type q).

(** [LEFT JOIN users u ON f.added_by_user_id = u.id]: [users.id] is the
    primary key, so at most one row joins; none gives NULL columns. *)
Definition user_by_id (s : db) (uid : Z) : option User.t :=
  find (fun u => User.id u =? uid) (users s).

Definition joined_username (s : db) (owner : option Z) : option string :=
  match owner with
  | Some uid => option_map User.username (user_by_id s uid)
  | None => None
  end.

Definition json_build_object (fi : Image.t) : image_json :=
  mkImageJson (Image.id fi) (Image.image_url fi) (Image.uploaded_by fi)
              (Image.uploaded_at fi) (Image.is_primary fi).

(** [json_agg] over no rows is NULL. *)
Definition json_agg {A : Type} (l : list A) : option (list A) :=
  match l with
  | [] => None
  | _ => Some l
  end.

Definition coalesce {A : Type} (o : option A) (d : A) : A :=
  match o with
  | Some x => x
  | None => d
  end.

Definition images_of (s : db) (fid : Z) : list image_json :=
  coalesce
    (json_agg (map json_build_object
                 (select_where (fun fi => Image.field_id fi =? fid) (field_images s))))
    [].

Definition select_venue_row (s : db) (f : Venue.t) : venue_row :=
  mkVenueRow f (joined_username s (Venue.added_by_user_id f)) (images_of s (Venue.id f)).

(** [ORDER BY f.created_at DESC] *)
Definition created_desc (a b : Venue.t) : bool :=
  Venue.created_at b <=? Venue.created_at a.

Definition list_venues (q : list_query) (s : db) : response :=
  mkResponse 200
    (Rows (map (select_venue_row s)
             (order_by created_desc (select_where (where_clause q) (sports_venues s))))).

(** ** POST /:id/image  (attach) *)

Definition ends_with (suffix x : string) : bool :=
  let n := String.length x in
  let m := String.length suffix in
  (m <=? n)%nat && String.eqb (substring (n - m) m x) suffix.

(** [/\.(jpg|jpeg|png|gif)$/i.test(originalname)] *)
Definition hasValidExtension (originalname : string) : bool :=
  existsb (fun ext => ends_with ext (lower originalname))
          [".jpg"; ".jpeg"; ".png"; ".gif"].

Definition hasValidMimeType (mimetype : string) : bool :=
  existsb (String.eqb mimetype) ["image/jpeg"; "image/jpg"; "image/png"; "image/gif"].

(** What [upload.single('image')] met in the request: no file part, an
    error of multer's own (the size limit among them), or a file part that
    multer hands to [fileFilter] and stores under [filename]. *)
Inductive upload_outcome :=
| NoFile
| MulterError (msg : string)
| FilePart (originalname mimetype filename : string).

Definition venue_exists (s : db) (vid : Z) : bool :=
  existsb (fun f => Venue.id f =? vid) (sports_venues s).

Definition user_exists (s : db) (uid : Z) : bool :=
  existsb (fun u => User.id u =? uid) (users s).

Definition server_error : response := mkResponse 500 (Message "Server error").

Definition bump_field_images_seq (s : db) : db :=
  mkDb (users s) (sports_venues s) (football_fields s) (field_images s)
       (venue_reports s) (field_images_id_seq s + 1) (venue_reports_id_seq s).

(** [INSERT INTO field_images ... RETURNING id]: whether the row was
    stored, and the next database.  The id comes from the sequence of the
    SERIAL column, which hands out INTEGER values only and raises once it
    has passed the last one (so since PostgreSQL 10; before, the value
    was consumed and the [INSERT] raised on it: either way no row is
    stored and the handler answers 500); [uploaded_at] takes its
    default; [uploaded_by] has to reference a user, otherwise the
    statement raises with the sequence value consumed. *)
Definition insert_field_image (fid : Z) (url : string) (uid : Z) (isPrimary : bool)
  (now : Z) (s : db) : bool * db :=
  let new_id := field_images_id_seq s in
  if negb (int4 new_id) then (false, s)
  else if user_exists s uid then
    (true,
     mkDb (users s) (sports_venues s) (football_fields s)
          (field_images s ++ [Image.mk new_id fid url uid now isPrimary])%list
          (venue_reports s) (new_id + 1) (venue_reports_id_seq s))
  else (false, bump_field_images_seq s).

Definition upload_image (user : auth_user) (id : Z) (up : upload_outcome) (now : Z)
  (s : db) : response * db :=
  match up with
  | MulterError msg => (mkResponse 400 (Message ("File upload error: " ++ msg)), s)
  | NoFile => (mkResponse 400 (Message "No image file provided"), s)
  | FilePart originalname mimetype filename =>
      if hasValidExtension originalname && hasValidMimeType mimetype then
        if negb (int4 id) then (server_error, s)
        else if venue_exists s id then
          let imageUrl := "/uploads/field-images/" ++ filename in
          let count := List.length (select_where (fun fi => Image.field_id fi =? id) (field_images s)) in
          let isPrimary := (count =? 0)%nat in
          match insert_field_image id imageUrl (userId user) isPrimary now s with
          | (true, s') =>
              (mkResponse 200 (ImageUploaded "Image uploaded successfully" imageUrl), s')
          | (false, s') => (server_error, s')
          end
        else (mkResponse 404 (Message "Venue not found"), s)
      else
        (mkResponse 400 (Message ("Only image files are allowed! Received: " ++ mimetype)), s)
  end.

(** ** DELETE /:id/image/:imageId  (remove) *)

(** [ORDER BY uploaded_at ASC] *)
Definition uploaded_asc (a b : Image.t) : bool :=
  Image.uploaded_at a <=? Image.uploaded_at b.

(** The path's venue id is bound by the promotion query only, which runs
    after the [DELETE] and only for a primary image. *)
Definition delete_image (user : auth_user) (id imageId : Z) (s : db) : response * db :=
  if negb (int4 imageId) then (server_error, s)
  else
  match select_where (fun fi => Image.id fi =? imageId) (field_images s) with
  | [] => (mkResponse 404 (Message "Image not found"), s)
  | image :: _ =>
      if negb (Image.uploaded_by image =? userId user) then
        (mkResponse 403 (Message "You can only delete images you uploaded"), s)
      else
        let s1 := with_field_images
                    (delete_where (fun fi => Image.id fi =? imageId) (field_images s)) s in
        if Image.is_primary image && negb (int4 id) then (server_error, s1)
        else
        let s2 :=
          if Image.is_primary image then
            match limit 1 (order_by uploaded_asc
                             (select_where (fun fi => Image.field_id fi =? id)
                                           (field_images s1))) with
            | nextPrimary :: _ =>
                with_field_images
                  (update_where (fun fi => Image.id fi =? Image.id nextPrimary)
                                (Image.set_is_primary true) (field_images s1)) s1
            | [] => s1
            end
          else s1 in
        (mkResponse 200 (Message "Image deleted successfully"), s2)
  end.

(** ** PUT /:id/image/:imageId/primary  (set primary) *)

Definition set_primary (user : auth_user) (id imageId : Z) (s : db) : response * db :=
  if negb (int4 imageId && int4 id) then (server_error, s)
  else
  match select_where (fun fi => (Image.id fi =? imageId) && (Image.field_id fi =? id))
                     (field_images s) with
  | [] => (mkResponse 404 (Message "Image not found"), s)
  | _ :: _ =>
      let s1 := with_field_images
                  (update_where (fun fi => Image.field_id fi =? id)
                                (Image.set_is_primary false) (field_images s)) s in
      let s2 := with_field_images
                  (update_where (fun fi => Image.id fi =? imageId)
                                (Image.set_is_primary true) (field_images s1)) s1 in
      (mkResponse 200 (Message "Primary image updated successfully"), s2)
  end.

(** ** DELETE /:id  (venue delete) *)

(** [userResult.rows[0]?.is_admin || false] *)
Definition isAdmin (s : db) (uid : Z) : bool :=
  match select_where (fun u => User.id u =? uid) (users s) with
  | u :: _ => User.is_admin u
  | [] => false
  end.

Inductive table_name := tbl_sports_venues | tbl_football_fields.

(** [added_by_user_id = $2]: never true on a NULL column. *)
Definition owner_is (owner : option Z) (uid : Z) : bool :=
  match owner with
  | Some o => o =? uid
  | None => false
  end.

(** The two-branch [UNION ALL] of the handler; the rows of the first
    branch come first. *)
Definition venueCheck (pv : Venue.t -> bool) (pl : Legacy.t -> bool) (s : db)
  : list (table_name * option Z) :=
  (map (fun f => (tbl_sports_venues, Venue.added_by_user_id f))
       (select_where pv (sports_venues s))
   ++ map (fun f => (tbl_football_fields, Legacy.added_by_user_id f))
          (select_where pl (football_fields s)))%list.

(** [DELETE FROM <table> WHERE ... RETURNING *]: the number of rows
    returned and the next database.  Rows of [field_images] and
    [venue_reports] that reference a deleted venue go with it
    ([ON DELETE CASCADE]). *)
Definition delete_from (tbl : table_name) (pv : Venue.t -> bool) (pl : Legacy.t -> bool)
  (s : db) : nat * db :=
  match tbl with
  | tbl_sports_venues =>
      let gone := select_where pv (sports_venues s) in
      let refers (vid : Z) := existsb (fun f => Venue.id f =? vid) gone in
      (List.length gone,
       mkDb (users s) (delete_where pv (sports_venues s)) (football_fields s)
            (delete_where (fun fi => refers (Image.field_id fi)) (field_images s))
            (delete_where (fun r => refers (Report.venue_id r)) (venue_reports s))
            (field_images_id_seq s) (venue_reports_id_seq s))
  | tbl_football_fields =>
      (List.length (select_where pl (football_fields s)),
       mkDb (users s) (sports_venues s) (delete_where pl (football_fields s))
            (field_images s) (venue_reports s)
            (field_images_id_seq s) (venue_reports_id_seq s))
  end.

Definition not_found_or_denied : response :=
  mkResponse 404 (Message "Venue not found or access denied").

Definition delete_venue (user : auth_user) (id : Z) (s : db) : response * db :=
  let uid := userId user in
  let admin := isAdmin s uid in
  if negb (int4 id) then (server_error, s)
  else
  match select_where (fun f => Venue.id f =? id) (sports_venues s) with
  | [] => (mkResponse 404 (Message "Venue not found"), s)
  | _ :: _ =>
      let finish (result : nat * db) : response * db :=
        if (fst result =? 0)%nat then (not_found_or_denied, snd result)
        else (mkResponse 200
                (Message (if admin then "Impianto eliminato con successo (Admin)"
                          else "Field deleted successfully")),
              snd result) in
      if admin then
        let s1 := with_field_images
                    (delete_where (fun fi => Image.field_id fi =? id) (field_images s)) s in
        let s2 := mkDb (users s1) (sports_venues s1) (football_fields s1) (field_images s1)
                       (delete_where (fun r => Report.venue_id r =? id) (venue_reports s1))
                       (field_images_id_seq s1) (venue_reports_id_seq s1) in
        match venueCheck (fun f => Venue.id f =? id) (fun f => Legacy.id f =? id) s2 with
        | [] => (mkResponse 404 (Message "Venue not found"), s2)
        | (tableName, _) :: _ =>
            finish (delete_from tableName (fun f => Venue.id f =? id)
                                (fun f => Legacy.id f =? id) s2)
        end
      else
        let pv (f : Venue.t) := (Venue.id f =? id) && owner_is (Venue.added_by_user_id f) uid in
        let pl (f : Legacy.t) := (Legacy.id f =? id) && owner_is (Legacy.added_by_user_id f) uid in
        match venueCheck pv pl s with
        | [] => (not_found_or_denied, s)
        | (tableName, _) :: _ => finish (delete_from tableName pv pl s)
        end
  end.

(** ** POST /:id/report  (file a report) *)

(** The two body fields the handler reads.  A missing [report_type] is
    validated as the empty string; [description] is [None] when the field
    is missing.  The length of a description is its number of characters,
    one [ascii] each here. *)
Record report_request := mkReportRequest {
  report_type : string;
  description : option string
}.

Definition report_types : list string := ["non_esiste"; "info_errate"; "altro"].

Definition valid_report_type (x : string) : bool :=
  existsb (String.eqb x) report_types.

(** [.optional().isLength({ min: 10, max: 500 })] *)
Definition valid_description (d : option string) : bool :=
  match d with
  | None => true
  | Some x => ((10 <=? String.length x) && (String.length x <=? 500))%nat
  end.

Definition validationResult (b : report_request) : list validation_error :=
  ((if valid_report_type (report_type b) then []
    else [mkVErr "report_type" "Tipo di segnalazione non valido"])
   ++ (if valid_description (description b) then []
       else [mkVErr "description" "Descrizione deve essere tra 10 e 500 caratteri"]))%list.

Record email_data := mkEmailData {
  fieldName : string;
  fieldAddress : string;
  reportType : string;
  email_description : option string;
  reporterUsername : string;
  reportDate : string
}.

(** The e-mail collaborator either resolves or throws. *)
Inductive email_result :=
| EmailSent
| EmailFailed (emailError : string).

Inductive console_line :=
| console_log (text : string)
| console_error (text : string).

(** A NULL column inside a template literal prints as [null]. *)
Definition template (o : option string) : string :=
  match o with
  | Some x => x
  | None => "null"
  end.

(** [userResult.rows[0]?.username || 'Utente anonimo'] *)
Definition reporter_username (s : db) (uid : Z) : string :=
  match select_where (fun u => User.id u =? uid) (users s) with
  | u :: _ => if String.eqb (User.username u) "" then "Utente anonimo" else User.username u
  | [] => "Utente anonimo"
  end.

Definition bump_venue_reports_seq (s : db) : db :=
  mkDb (users s) (sports_venues s) (football_fields s) (field_images s)
       (venue_reports s) (field_images_id_seq s) (venue_reports_id_seq s + 1).

(** [INSERT INTO venue_reports ... RETURNING *]: the row when it was
    stored, and the next database.  The id comes from the sequence of the
    SERIAL column, as for [field_images]; [status] and the two timestamps
    take their defaults; the reporter has to reference a user, otherwise
    the statement raises with the sequence value consumed. *)
Definition insert_venue_report (vid uid : Z) (b : report_request) (now : Z) (s : db)
  : option Report.t * db :=
  let row := Report.mk (venue_reports_id_seq s) vid uid (report_type b) (description b)
                       "pending" now now in
  if negb (int4 (venue_reports_id_seq s)) then (None, s)
  else if user_exists s uid then
    (Some row,
     mkDb (users s) (sports_venues s) (football_fields s) (field_images s)
          (venue_reports s ++ [row])%list
          (field_images_id_seq s) (venue_reports_id_seq s + 1))
  else (None, bump_venue_reports_seq s).

Definition file_report (sendFieldReportEmail : email_data -> email_result)
  (user : auth_user) (id : Z) (b : report_request) (now : Z) (localeDate : string)
  (s : db) : response * db * list console_line :=
  match validationResult b with
  | (_ :: _) as errors => (mkResponse 400 (Errors errors), s, [])
  | [] =>
      if negb (int4 id) then (server_error, s, [console_error "Error creating report:"])
      else
      match select_where (fun f => Venue.id f =? id) (sports_venues s) with
      | [] => (mkResponse 404 (Message "Venue not found"), s, [])
      | field :: _ =>
          match select_where
                  (fun r => (Report.venue_id r =? id)
                            && (Report.reported_by_user_id r =? userId user))
                  (venue_reports s) with
          | _ :: _ => (mkResponse 400 (Message "Hai già segnalato questo impianto"), s, [])
          | [] =>
              let reporterUsername := reporter_username s (userId user) in
              match insert_venue_report id (userId user) b now s with
              | (None, s') => (server_error, s', [console_error "Error creating report:"])
              | (Some row, s') =>
                  let emailData :=
                    mkEmailData (Venue.name field)
                      (template (Venue.address field) ++ ", "
                       ++ template (Venue.city field) ++ ", "
                       ++ template (Venue.province field))%string
                      (report_type b) (description b) reporterUsername localeDate in
                  let console :=
                    match sendFieldReportEmail emailData with
                    | EmailSent =>
                        [console_log ("Email notification sent for field report: "
                                      ++ Venue.name field)%string]
                    | EmailFailed emailError =>
                        [console_error ("Error sending email notification: "
                                        ++ emailError)%string]
                    end in
                  (mkResponse 201 (ReportCreated "Segnalazione inviata con successo" row),
                   s', console)
              end
          end
      end
  end.

(** ** The listing as the specification words it *)

Fixpoint prefixb (x t : string) : bool :=
  match x with
  | EmptyString => true
  | String a x' =>
      match t with
      | EmptyString => false
      | String b t' => Ascii.eqb a b && prefixb x' t'
      end
  end.

(** [contains x t]: [x] occurs in [t] as a run of consecutive characters. *)
Fixpoint contains (x t : string) : bool :=
  prefixb x t
  || match t with
     | EmptyString => false
     | String _ t' => contains x t'
     end.








(** ** The rows inserted by [/init-db] *)

Definition seed_venue (vid : Z) (nm descr : string) (lat lng : Z) (cty prov reg sport surf vtype : string)
  : Venue.t :=
  Venue.mk vid nm (Some descr) lat lng None (Some cty) (Some prov) (Some reg) sport
           (Some surf) (Some vtype) true true true true None None None None 0 0.

Definition seed_db : db :=
  mkDb [User.mk 1 "Leosant06" "leonardo.santoro2006@hotmail.com" true]
       [seed_venue 1 "Campo Comunale San Siro" "Campo da calcio comunale con erba naturale"
                   4546420000 919000000 "Milano" "MI" "Lombardia" "football" "erba naturale" "11vs11";
        seed_venue 2 "Centro Sportivo Comunale" "Centro sportivo con campo da calcio"
                   4190280000 1249640000 "Roma" "RM" "Lazio" "football" "erba sintetica" "11vs11";
        seed_venue 3 "Piscina Comunale Milano" "Piscina olimpionica comunale"
                   4546420000 919000000 "Milano" "MI" "Lombardia" "swimming" "acqua" "olimpionica"]
       [] [] [] 1 1.

Definition no_filters : list_query := mkQuery None None None None None None.

Definition returned_ids (r : response) : list Z :=
  match json r with
  | Rows rows => map (fun row => Venue.id (vr_venue row)) rows
  | _ => []
  end.

(** ** Notions the statements below are about *)

(** *** The listing *)



Definition milano_swimming : list_query :=
  mkQuery (Some "Milano") None None None None (Some "swimming").


(** *** Sequences of image requests and the primary-image invariant *)

Inductive image_request :=
| Attach (user : auth_user) (id : Z) (up : upload_outcome) (now : Z)
| Remove (user : auth_user) (id imageId : Z)
| SetPrimary (user : auth_user) (id imageId : Z).

Definition serve (r : image_request) (s : db) : response * db :=
  match r with
  | Attach user id up now => upload_image user id up now s
  | Remove user id imageId => delete_image user id imageId s
  | SetPrimary user id imageId => set_primary user id imageId s
  end.

Definition serve_all (rs : list image_request) (s : db) : db :=
  fold_left (fun s r => snd (serve r s)) rs s.

Definition venue_images (v : Z) (s : db) : list Image.t :=
  filter (fun fi => Image.field_id fi =? v) (field_images s).

Definition primary_images (v : Z) (s : db) : list Image.t :=
  filter Image.is_primary (venue_images v s).

(** At most one primary image per venue, and exactly one as soon as the
    venue has an image. *)
Definition primary_invariant (s : db) : Prop :=
  forall v,
    (List.length (primary_images v s) <= 1)%nat
    /\ (venue_images v s <> [] -> List.length (primary_images v s) = 1%nat).

(** [id] is the primary key of [field_images] and is drawn from the
    sequence. *)
Definition images_keyed (s : db) : Prop :=
  NoDup (map Image.id (field_images s))
  /\ Forall (fun fi => Image.id fi < field_images_id_seq s) (field_images s).

(** [id] and [field_id] of [field_images], and [id] of [sports_venues],
    are INTEGER columns. *)
Definition image_ids_integer (s : db) : Prop :=
  Forall (fun fi => int4 (Image.id fi) = true /\ int4 (Image.field_id fi) = true)
         (field_images s).

Definition venue_ids_integer (s : db) : Prop :=
  Forall (fun f => int4 (Venue.id f) = true) (sports_venues s).

(** The path of a [Remove] names the venue of the image it deletes. *)
Definition remove_path_matches (r : image_request) (s : db) : Prop :=
  match r with
  | Remove _ id imageId =>
      forall fi, In fi (field_images s) -> Image.id fi = imageId -> Image.field_id fi = id
  | _ => True
  end.

Fixpoint paths_match (rs : list image_request) (s : db) : Prop :=
  match rs with
  | [] => True
  | r :: rs' => remove_path_matches r s /\ paths_match rs' (snd (serve r s))
  end.

Definition a_jpeg (filename : string) : upload_outcome :=
  FilePart "photo.jpg" "image/jpeg" filename.

Definition leosant : auth_user := mkAuthUser 1 "Leosant06" true.

(** Two uploads to venue 1, then the first image is deleted through the
    path of venue 2. *)
Definition mismatched_remove : list image_request :=
  [Attach leosant 1 (a_jpeg "field-1.jpg") 100;
   Attach leosant 1 (a_jpeg "field-2.jpg") 200;
   Remove leosant 2 1].

Definition matched_remove : list image_request :=
  [Attach leosant 1 (a_jpeg "field-1.jpg") 100;
   Attach leosant 1 (a_jpeg "field-2.jpg") 200;
   Remove leosant 1 1].

(** *** Counting the images and the primary images of a venue *)

Definition in_venue (v : Z) (fi : Image.t) : bool := Image.field_id fi =? v.

Definition primary_in (v : Z) (fi : Image.t) : bool :=
  (Image.field_id fi =? v) && Image.is_primary fi.

Definition nimg (v : Z) (l : list Image.t) : nat := List.length (filter (in_venue v) l).
Definition nprim (v : Z) (l : list Image.t) : nat := List.length (filter (primary_in v) l).

Definition one_primary (l : list Image.t) : Prop :=
  forall v, nprim v l = if (nimg v l =? 0)%nat then 0%nat else 1%nat.

(** The two [UPDATE]s of the set-primary handler, as one pass. *)
Definition clear_then_set (v0 i0 : Z) (fi : Image.t) : Image.t :=
  let fi1 := if Image.field_id fi =? v0 then Image.set_is_primary false fi else fi in
  if Image.id fi1 =? i0 then Image.set_is_primary true fi1 else fi1.

(** The table [delete_image] leaves behind, for an image the caller
    uploaded: the row is gone, and when it was primary the oldest image of
    the venue named in the path, if there is one, is flagged. *)
Definition promoted_in (id : Z) (l1 l2 : list Image.t) : Prop :=
  ((forall fi, In fi l1 -> Image.field_id fi <> id) /\ l2 = l1)
  \/ exists n,
       In n l1 /\ Image.field_id n = id
       /\ (forall fi, In fi l1 -> Image.field_id fi = id ->
                      Image.uploaded_at n <= Image.uploaded_at fi)
       /\ l2 = update_where (fun fi => Image.id fi =? Image.id n)
                            (Image.set_is_primary true) l1.

(** *** Sample states *)

Definition first_image : Image.t :=
  Image.mk 1 1 "/uploads/field-images/field-1.jpg" 1 100 true.

Definition second_image : Image.t :=
  Image.mk 2 1 "/uploads/field-images/field-2.jpg" 1 200 false.

(** The seeded database after two uploads to venue 1. *)
Definition two_images : db :=
  mkDb (users seed_db) (sports_venues seed_db) [] [first_image; second_image] [] 3 1.

(** *** Ownership *)

Definition owns_venue (s : db) (uid id : Z) : bool :=
  existsb (fun f => (Venue.id f =? id) && owner_is (Venue.added_by_user_id f) uid)
          (sports_venues s).

Definition owns_legacy_field (s : db) (uid id : Z) : bool :=
  existsb (fun f => (Legacy.id f =? id) && owner_is (Legacy.added_by_user_id f) uid)
          (football_fields s).

Definition stranger : auth_user := mkAuthUser 77 "nobody" false.

(** *** Reports *)

Definition fr_response (o : response * db * list console_line) : response := fst (fst o).
Definition fr_db (o : response * db * list console_line) : db := snd (fst o).
Definition fr_console (o : response * db * list console_line) : list console_line := snd o.

Definition already_reported : response :=
  mkResponse 400 (Message "Hai già segnalato questo impianto").

Definition has_reported (s : db) (uid id : Z) : bool :=
  existsb (fun r => (Report.venue_id r =? id) && (Report.reported_by_user_id r =? uid))
          (venue_reports s).

Definition notifier_up (d : email_data) : email_result := EmailSent.
Definition notifier_down (d : email_data) : email_result := EmailFailed "ECONNREFUSED".

(** The seeded database after user 1 reported venue 1. *)
Definition first_report : Report.t :=
  Report.mk 1 1 1 "info_errate" None "pending" 500 500.

Definition one_report : db :=
  mkDb (users seed_db) (sports_venues seed_db) [] [] [first_report] 1 2.

(** The enumeration as the specification spells it. *)
Definition spec_report_types : list string := ["does-not-exist"; "incorrect-info"; "other"].

Definition description_in_range (d : option string) : Prop :=
  match d with
  | None => True
  | Some x => (10 <= String.length x <= 500)%nat
  end.

(** *** A database with a second user *)

Definition mario : auth_user := mkAuthUser 2 "mario" false.

Definition campetto : Venue.t :=
  Venue.mk 4 "Campetto" None 4546420000 919000000 None (Some "Milano") (Some "MI")
           (Some "Lombardia") "football" None None true false false false None None
           (Some 2) None 10 10.

(** The seeded database with a second user, a venue of theirs, an image
    of that venue and a report against it. *)
Definition busy_db : db :=
  mkDb (users seed_db ++ [User.mk 2 "mario" "mario@example.org" false])%list
       (sports_venues seed_db ++ [campetto])%list
       []
       [Image.mk 1 4 "/uploads/field-images/field-9.png" 2 50 true]
       [Report.mk 1 4 1 "altro" None "pending" 60 60]
       2 2.

Definition busy_db_without_campetto : db :=
  mkDb (users busy_db) (sports_venues seed_db) [] [] [] 2 2.

(** * The remaining handlers of the fields router, and the users router *)

(** What a handler that answers with a row or with rows sends: the value
    itself, or an object with a [message]. *)
Inductive payload (A : Type) :=
| Json (value : A)
| JsonMessage (message : string).

Arguments Json {A} value.
Arguments JsonMessage {A} message.

Record reply (A : Type) := mkReply {
  reply_status : Z;
  reply_body : payload A
}.

Arguments mkReply {A} reply_status reply_body.
Arguments reply_status {A} r.
Arguments reply_body {A} r.

(** ** GET /:id  (one venue) *)

Definition get_venue (id : Z) (s : db) : reply venue_row :=
  if negb (int4 id) then mkReply 500 (JsonMessage "Server error")
  else
  match map (select_venue_row s)
            (select_where (fun f => Venue.id f =? id) (sports_venues s)) with
  | [] => mkReply 404 (JsonMessage "Venue not found")
  | row :: _ => mkReply 200 (Json row)
  end.

(** ** GET /:id/reports  (reports of a venue) *)

(** [fr.*] and the joined [u.username]. *)
Record report_row := mkReportRow {
  rr_report : Report.t;
  rr_reporter_username : option string
}.

(** [ORDER BY fr.created_at DESC] *)
Definition report_created_desc (a b : Report.t) : bool :=
  Report.created_at b <=? Report.created_at a.

Definition select_report_row (s : db) (r : Report.t) : report_row :=
  mkReportRow r (joined_username s (Some (Report.reported_by_user_id r))).

Definition get_venue_reports (user : auth_user) (id : Z) (s : db)
  : reply (list report_row) :=
  let admin := isAdmin s (userId user) in
  if negb (int4 id) then mkReply 500 (JsonMessage "Server error")
  else
  match select_where (fun f => Venue.id f =? id) (sports_venues s) with
  | [] => mkReply 404 (JsonMessage "Venue not found")
  | field :: _ =>
      if negb (owner_is (Venue.added_by_user_id field) (userId user)) && negb admin then
        mkReply 403 (JsonMessage "Access denied")
      else
        mkReply 200
          (Json (map (select_report_row s)
                   (order_by report_created_desc
                      (select_where (fun r => Report.venue_id r =? id) (venue_reports s)))))
  end.

(** ** GET /reports/all  (every report; the handler behind [adminAuth]) *)

(** [fr.*], the reporter's name, and name, city and province of the venue
    joined on [fr.venue_id]. *)
Record all_reports_row := mkAllReportsRow {
  ar_report : Report.t;
  ar_reporter_username : option string;
  venue_name : option string;
  ar_city : option string;
  ar_province : option string
}.

(** [LEFT JOIN sports_venues f ON fr.venue_id = f.id]: [sports_venues.id]
    is the primary key. *)
Definition venue_by_id (s : db) (vid : Z) : option Venue.t :=
  find (fun f => Venue.id f =? vid) (sports_venues s).

Definition select_all_reports_row (s : db) (r : Report.t) : all_reports_row :=
  let f := venue_by_id s (Report.venue_id r) in
  mkAllReportsRow r (joined_username s (Some (Report.reported_by_user_id r)))
    (option_map Venue.name f)
    (match f with Some v => Venue.city v | None => None end)
    (match f with Some v => Venue.province v | None => None end).

Definition get_all_reports (s : db) : reply (list all_reports_row) :=
  mkReply 200
    (Json (map (select_all_reports_row s)
             (order_by report_created_desc (venue_reports s)))).

(** ** POST /delete-all-fields *)

(** [DELETE FROM sports_venues], with the cascade of [delete_from]. *)
Definition delete_all_fields (s : db) : response * db :=
  (mkResponse 200 (Message "All fields deleted successfully"),
   snd (delete_from tbl_sports_venues (fun _ => true) (fun _ => false) s)).

(** ** GET /my-fields  (users router) *)

(** The columns the statement selects: those of the venue but
    [added_by_username], and the constant [source_table]. *)
Module MyField.
Record t := mk {
  id : Z;
  name : string;
  description : option string;
  latitude : Z;
  longitude : Z;
  address : option string;
  city : option string;
  province : option string;
  region : option string;
  surface_type : option string;
  venue_type : option string;
  is_public : bool;
  has_lighting : bool;
  has_changing_rooms : bool;
  has_parking : bool;
  opening_hours : option string;
  prices : option string;
  added_by_user_id : option Z;
  created_at : Z;
  updated_at : Z;
  sport_type : string;
  source_table : string
}.
End MyField.

Definition select_my_field (f : Venue.t) : MyField.t :=
  MyField.mk (Venue.id f) (Venue.name f) (Venue.description f) (Venue.latitude f)
    (Venue.longitude f) (Venue.address f) (Venue.city f) (Venue.province f)
    (Venue.region f) (Venue.surface_type f) (Venue.venue_type f) (Venue.is_public f)
    (Venue.has_lighting f) (Venue.has_changing_rooms f) (Venue.has_parking f)
    (Venue.opening_hours f) (Venue.prices f) (Venue.added_by_user_id f)
    (Venue.created_at f) (Venue.updated_at f) (Venue.sport_type f) "sports_venues".

Definition my_fields (user : auth_user) (s : db) : reply (list MyField.t) :=
  mkReply 200
    (Json (map select_my_field
             (order_by created_desc
                (select_where (fun f => owner_is (Venue.added_by_user_id f) (userId user))
                              (sports_venues s))))).

(** ** Requests that change the database, in sequence *)

(** The six kinds of request embedded above that write to the database.
    The handlers that create and update a venue, and [/init-db], are not
    among them. *)
Inductive request :=
| ImageRequest (r : image_request)
| DeleteVenue (user : auth_user) (id : Z)
| FileReport (sendFieldReportEmail : email_data -> email_result) (user : auth_user)
             (id : Z) (b : report_request) (now : Z) (localeDate : string)
| DeleteAllFields.

Definition handle (r : request) (s : db) : db :=
  match r with
  | ImageRequest r => snd (serve r s)
  | DeleteVenue user id => snd (delete_venue user id s)
  | FileReport send user id b now localeDate =>
      fr_db (file_report send user id b now localeDate s)
  | DeleteAllFields => snd (delete_all_fields s)
  end.

Definition handle_all (rs : list request) (s : db) : db :=
  fold_left (fun s r => handle r s) rs s.

(** Every reference column points at a row: an image at its venue and
    its uploader, a report at its venue and its reporter, a venue at its
    owner unless it has none. *)
Definition references_hold (s : db) : Prop :=
  Forall (fun fi => venue_exists s (Image.field_id fi) = true
                    /\ user_exists s (Image.uploaded_by fi) = true) (field_images s)
  /\ Forall (fun r => venue_exists s (Report.venue_id r) = true
                      /\ user_exists s (Report.reported_by_user_id r) = true)
            (venue_reports s)
  /\ Forall (fun f => match Venue.added_by_user_id f with
                      | Some uid => user_exists s uid = true
                      | None => True
                      end) (sports_venues s).

(** The primary keys: ids are unique in each table, and those of the two
    tables the router inserts into lie below their sequences. *)
Definition keys_hold (s : db) : Prop :=
  images_keyed s
  /\ NoDup (map Report.id (venue_reports s))
  /\ Forall (fun r => Report.id r < venue_reports_id_seq s) (venue_reports s)
  /\ NoDup (map Venue.id (sports_venues s)).

(** A user has at most one report against a venue. *)
Definition one_report_each (s : db) : Prop :=
  NoDup (map (fun r => (Report.venue_id r, Report.reported_by_user_id r)) (venue_reports s)).

(** *** Relations between the database before and after a request *)

(** [l'] holds rows of [l], in their order, with nothing changed but
    [is_primary]. *)
Definition reflagged (l l' : list Image.t) : Prop :=
  exists (keep flag : Image.t -> bool),
    l' = map (fun x => Image.set_is_primary (flag x) x) (filter keep l).

(** [s'] is [s] with rows deleted, and no surviving image or report has
    lost its venue. *)
Definition pruned (s s' : db) : Prop :=
  users s' = users s
  /\ field_images_id_seq s' = field_images_id_seq s
  /\ venue_reports_id_seq s' = venue_reports_id_seq s
  /\ (exists p, sports_venues s' = filter p (sports_venues s))
  /\ (exists p, football_fields s' = filter p (football_fields s))
  /\ (exists p, field_images s' = filter p (field_images s))
  /\ (exists p, venue_reports s' = filter p (venue_reports s))
  /\ (forall fi f, In fi (field_images s') -> In f (sports_venues s) ->
                   Venue.id f = Image.field_id fi -> In f (sports_venues s'))
  /\ (forall r f, In r (venue_reports s') -> In f (sports_venues s) ->
                  Venue.id f = Report.venue_id r -> In f (sports_venues s')).

(** *** The two rows a request can insert *)

Definition with_new_image (fi : Image.t) (s : db) : db :=
  mkDb (users s) (sports_venues s) (football_fields s)
       (field_images s ++ [fi])%list (venue_reports s)
       (field_images_id_seq s + 1) (venue_reports_id_seq s).

Definition with_new_report (row : Report.t) (s : db) : db :=
  mkDb (users s) (sports_venues s) (football_fields s) (field_images s)
       (venue_reports s ++ [row])%list
       (field_images_id_seq s) (venue_reports_id_seq s + 1).

(** *** A sequence of requests of every kind *)

Definition sample_requests : list request :=
  [ImageRequest (Attach mario 4 (a_jpeg "field-10.jpg") 70);
   FileReport notifier_down mario 1 (mkReportRequest "altro" None) 80 "1/1/2025, 12:00:00";
   ImageRequest (SetPrimary leosant 4 2);
   ImageRequest (Remove mario 1 1);
   DeleteVenue leosant 4;
   FileReport notifier_up leosant 2 (mkReportRequest "non_esiste" None) 90
              "1/1/2025, 12:30:00";
   DeleteAllFields].

(** *** The database without a venue *)

(** Venue [id] gone, with its images and its reports. *)
Definition without_venue (id : Z) (s : db) : db :=
  mkDb (users s)
       (delete_where (fun f => Venue.id f =? id) (sports_venues s))
       (football_fields s)
       (delete_where (fun fi => Image.field_id fi =? id) (field_images s))
       (delete_where (fun r => Report.venue_id r =? id) (venue_reports s))
       (field_images_id_seq s) (venue_reports_id_seq s).

Definition listed_rows (r : response) : list venue_row :=
  match json r with
  | Rows rows => rows
  | _ => []
  end.

(** *** What a row of reports carries *)

Definition reports_newest_first (a b : report_row) : Prop :=
  Report.created_at (rr_report b) <= Report.created_at (rr_report a).

(** The joined reporter name of a row. *)
Definition reporter_joined (s : db) (r : report_row) : Prop :=
  (forall n, rr_reporter_username r = Some n ->
     exists u, In u (users s)
               /\ User.id u = Report.reported_by_user_id (rr_report r)
               /\ User.username u = n)
  /\ (rr_reporter_username r = None ->
      forall u, In u (users s) -> User.id u <> Report.reported_by_user_id (rr_report r)).

(** *** Order of the rows of my-fields *)

Definition my_fields_newest_first (a b : MyField.t) : Prop :=
  MyField.created_at b <= MyField.created_at a.

(** *** What a row of all reports carries *)

Definition all_reports_newest_first (a b : all_reports_row) : Prop :=
  Report.created_at (ar_report b) <= Report.created_at (ar_report a).

(** The venue columns of a row: those of the venue the report is against,
    or NULL when no venue has that id. *)
Definition venue_joined (s : db) (r : all_reports_row) : Prop :=
  (venue_exists s (Report.venue_id (ar_report r)) = true ->
   exists f, In f (sports_venues s)
             /\ Venue.id f = Report.venue_id (ar_report r)
             /\ venue_name r = Some (Venue.name f)
             /\ ar_city r = Venue.city f
             /\ ar_province r = Venue.province f)
  /\ (venue_exists s (Report.venue_id (ar_report r)) = false ->
      venue_name r = None /\ ar_city r = None /\ ar_province r = None).

(** *** Three requests with matching paths *)

Definition matched_requests : list image_request :=
  [Remove leosant 1 1;
   Attach leosant 1 (a_jpeg "field-3.jpg") 300;
   SetPrimary stranger 1 3].

(** * validateEmail  (auth router) *)

(** ** Regular expressions anchored at both ends *)

Inductive regex :=
| Empty
| Eps
| Chars (class : ascii -> bool)
| Cat (r1 r2 : regex)
| Alt (r1 r2 : regex)
| Star (r : regex).

(** [r+] *)
Definition Plus (r : regex) : regex := Cat r (Star r).

Fixpoint nullable (r : regex) : bool :=
  match r with
  | Empty => false
  | Eps => true
  | Chars _ => false
  | Cat r1 r2 => nullable r1 && nullable r2
  | Alt r1 r2 => nullable r1 || nullable r2
  | Star _ => true
  end.

(** What is left of [r] after the character [c]. *)
Fixpoint deriv (c : ascii) (r : regex) : regex :=
  match r with
  | Empty => Empty
  | Eps => Empty
  | Chars class => if class c then Eps else Empty
  | Cat r1 r2 =>
      Alt (Cat (deriv c r1) r2) (if nullable r1 then deriv c r2 else Empty)
  | Alt r1 r2 => Alt (deriv c r1) (deriv c r2)
  | Star r1 => Cat (deriv c r1) (Star r1)
  end.

(** [/^r$/.test(x)] *)
Fixpoint regex_test (r : regex) (x : string) : bool :=
  match x with
  | EmptyString => nullable r
  | String c x' => regex_test (deriv c r) x'
  end.

(** The strings of a regular expression. *)
Inductive lang : regex -> string -> Prop :=
| lang_eps : lang Eps ""
| lang_chars (class : ascii -> bool) (c : ascii) :
    class c = true -> lang (Chars class) (String c "")
| lang_cat (r1 r2 : regex) (x1 x2 : string) :
    lang r1 x1 -> lang r2 x2 -> lang (Cat r1 r2) (x1 ++ x2)
| lang_alt_l (r1 r2 : regex) (x : string) : lang r1 x -> lang (Alt r1 r2) x
| lang_alt_r (r1 r2 : regex) (x : string) : lang r2 x -> lang (Alt r1 r2) x
| lang_star_nil (r : regex) : lang (Star r) ""
| lang_star_more (r : regex) (x1 x2 : string) :
    lang r x1 -> lang (Star r) x2 -> lang (Star r) (x1 ++ x2).

(** ** The function *)

Definition in_range (lo hi : nat) (c : ascii) : bool :=
  ((lo <=? nat_of_ascii c) && (nat_of_ascii c <=? hi))%nat.

(** [a-zA-Z] *)
Definition is_letter (c : ascii) : bool := in_range 97 122 c || in_range 65 90 c.

(** [a-zA-Z0-9] *)
Definition is_alnum (c : ascii) : bool := is_letter c || in_range 48 57 c.

Definition one_of (chars : string) (c : ascii) : bool :=
  existsb (Ascii.eqb c) (list_ascii_of_string chars).

(** [[a-zA-Z0-9._%+-]] *)
Definition local_class (c : ascii) : bool := is_alnum c || one_of "._%+-" c.

(** [[a-zA-Z0-9.-]] *)
Definition domain_class (c : ascii) : bool := is_alnum c || one_of ".-" c.

(** [/^[a-zA-Z0-9._%+-]+@[a-zA-Z0-9.-]+\.[a-zA-Z]{2,}$/] *)
Definition emailRegex : regex :=
  Cat (Plus (Chars local_class))
      (Cat (Chars (one_of "@"))
           (Cat (Plus (Chars domain_class))
                (Cat (Chars (one_of "."))
                     (Cat (Chars is_letter) (Plus (Chars is_letter)))))).

Definition disposableDomains : list string :=
  ["10minutemail.com"; "guerrillamail.com"; "tempmail.org"; "mailinator.com";
   "yopmail.com"; "throwaway.email"; "temp-mail.org"; "fakeinbox.com";
   "sharklasers.com"; "getairmail.com"; "mailnesia.com"; "maildrop.cc";
   "tempr.email"; "tmpmail.org"; "tmpeml.com"; "tmpbox.net"; "tmpmail.net";
   "tmpeml.net"; "tmpbox.org"; "tmpmail.com"; "tmpeml.org"; "tmpbox.com"].

(** [x.split(sep)] for a separator of one character: the pieces between
    the separators, one piece more than there are separators. *)
Fixpoint split (sep : ascii) (x : string) : list string :=
  match x with
  | EmptyString => [EmptyString]
  | String c x' =>
      if Ascii.eqb c sep then EmptyString :: split sep x'
      else match split sep x' with
           | piece :: pieces => String c piece :: pieces
           | [] => [String c EmptyString]
           end
  end.

Record email_validation := mkEmailValidation {
  isValid : bool;
  validation_message : option string
}.

(** [emailValidator.validate] is the library's; it is an argument here.
    [toLowerCase] is [lower]. *)
Definition validateEmail (emailValidator_validate : string -> bool) (email : string)
  : email_validation :=
  if negb (emailValidator_validate email) then
    mkEmailValidation false (Some "Formato email non valido")
  else
    let domain := option_map lower (nth_error (split "@" email) 1) in
    if match domain with
       | Some d => existsb (String.eqb d) disposableDomains
       | None => false
       end
    then mkEmailValidation false (Some "Email temporanee non sono consentite")
    else if negb (regex_test emailRegex email) then
      mkEmailValidation false (Some "Formato email non valido")
    else mkEmailValidation true None.

(** ** Strings of one class *)

Fixpoint all_chars (class : ascii -> bool) (x : string) : bool :=
  match x with
  | EmptyString => true
  | String c x' => class c && all_chars class x'
  end.

Definition is_at (c : ascii) : bool := Ascii.eqb c "@".

(** The shape the regular expression asks for. *)
Definition email_shape (email local domain tld : string) : Prop :=
  email = (local ++ "@" ++ domain ++ "." ++ tld)%string
  /\ local <> "" /\ all_chars local_class local = true
  /\ domain <> "" /\ all_chars domain_class domain = true
  /\ (2 <= String.length tld)%nat /\ all_chars is_letter tld = true.

(** ** Strings without the at sign *)

Definition no_at (x : string) : bool := all_chars (fun c => negb (is_at c)) x.

(** ** A database with a legacy row *)

Definition legacy_db : db :=
  mkDb (users busy_db) (sports_venues busy_db) [Legacy.mk 1 (Some 2)]
       (field_images busy_db) (venue_reports busy_db) 2 2.

(** * Properties *)

(** ** Sorting *)

Section OrderBy.
Context {A : Type} (le : A -> A -> bool).
Hypothesis le_total : forall a b, le a b = true \/ le b a = true.
Hypothesis le_trans : forall a b c, le a b = true -> le b c = true -> le a c = true.

Lemma insert_by_perm (x : A) (l : list A) : Permutation (insert_by le x l) (x :: l).
Proof.
  induction l as [|y l IH]; simpl.
  - apply Permutation_refl.
  - destruct (le x y).
    + apply Permutation_refl.
    + eapply perm_trans; [apply perm_skip, IH | apply perm_swap].
Qed.

Lemma order_by_perm (l : list A) : Permutation (order_by le l) l.
Proof.
  induction l as [|x l IH]; simpl.
  - constructor.
  - eapply perm_trans; [apply insert_by_perm | apply perm_skip, IH].
Qed.

Lemma order_by_In (l : list A) (x : A) : In x (order_by le l) <-> In x l.
Proof.
  split; apply Permutation_in;
    [apply order_by_perm | apply Permutation_sym, order_by_perm].
Qed.

Lemma insert_by_sorted (x : A) (l : list A) :
  StronglySorted (fun a b => le a b = true) l ->
  StronglySorted (fun a b => le a b = true) (insert_by le x l).
Proof.
  induction 1 as [|y l Hs IH Hy]; simpl.
  - repeat constructor.
  - destruct (le x y) eqn:E.
    + constructor; [constructor; assumption|].
      constructor; [exact E|].
      rewrite Forall_forall in *. intros z Hz. eapply le_trans; eauto.
    + constructor; [exact IH|].
      rewrite Forall_forall in *. intros z Hz.
      apply (Permutation_in _ (insert_by_perm x l)) in Hz.
      destruct Hz as [<-|Hz]; [|auto].
      destruct (le_total x y) as [H|H]; congruence.
Qed.

Lemma order_by_sorted (l : list A) :
  StronglySorted (fun a b => le a b = true) (order_by le l).
Proof.
  induction l as [|x l IH]; simpl; [constructor | apply insert_by_sorted, IH].
Qed.

Lemma order_by_nil (l : list A) : order_by le l = [] -> l = [].
Proof.
  intros H. apply Permutation_nil. rewrite <- H. apply order_by_perm.
Qed.

(** The first row of an ordered selection is a least one of the table. *)
Lemma order_by_head (l : list A) (x : A) (rest : list A) :
  order_by le l = x :: rest ->
  In x l /\ forall y, In y l -> le x y = true.
Proof.
  intros H. pose proof (order_by_sorted l) as Hs. rewrite H in Hs.
  split.
  - apply order_by_In. rewrite H. now left.
  - intros y Hy. apply order_by_In in Hy. rewrite H in Hy.
    destruct Hy as [<-|Hy].
    + destruct (le_total x x); assumption.
    + inversion Hs as [|? ? _ Hall]; subst.
      rewrite Forall_forall in Hall. auto.
Qed.
End OrderBy.

(** ** [LIKE] on a pattern without special characters *)








Lemma lower_app (x y : string) : lower (x ++ y) = (lower x ++ lower y)%string.
Proof.
  induction x as [|c x IH]; [reflexivity|]. simpl. now rewrite IH.
Qed.

Lemma lower_like_param (x : string) : lower (like_param x) = like_param (lower x).
Proof.
  unfold like_param. rewrite !lower_app. reflexivity.
Qed.


(** [contains] is the occurrence of a substring. *)
Lemma prefixb_spec (x t : string) :
  prefixb x t = true <-> exists b, t = (x ++ b)%string.
Proof.
  revert t. induction x as [|a x IH]; intros t; simpl.
  - split; [intros _; now exists t | reflexivity].
  - destruct t as [|c t].
    + split; [discriminate | intros [b Hb]; discriminate].
    + rewrite andb_true_iff, IH. split.
      * intros [Ha [b ->]]. apply Ascii.eqb_eq in Ha as ->. now exists b.
      * intros [b Hb]. injection Hb as -> ->. split; [apply Ascii.eqb_refl | now exists b].
Qed.

Lemma contains_spec (x t : string) :
  contains x t = true <-> exists a b, t = (a ++ x ++ b)%string.
Proof.
  induction t as [|c t IH].
  - simpl. rewrite orb_false_r, prefixb_spec. split.
    + intros [b Hb]. now exists EmptyString, b.
    + intros [a [b Hb]]. destruct a; [now exists b | discriminate].
  - cbn [contains]. rewrite orb_true_iff, prefixb_spec, IH. split.
    + intros [[b Hb] | [a [b ->]]].
      * now exists EmptyString, b.
      * now exists (String c a), b.
    + intros [a [b Hb]]. destruct a as [|a0 a].
      * left. now exists b.
      * right. injection Hb as -> ->. now exists a, b.
Qed.

(** ** Venue listing *)



Lemma created_desc_total (a b : Venue.t) :
  created_desc a b = true \/ created_desc b a = true.
Proof. unfold created_desc. rewrite !Z.leb_le. lia. Qed.

Lemma created_desc_trans (a b c : Venue.t) :
  created_desc a b = true -> created_desc b c = true -> created_desc a c = true.
Proof. unfold created_desc. rewrite !Z.leb_le. lia. Qed.

Lemma StronglySorted_map {A B : Type} (R : A -> A -> Prop) (Q : B -> B -> Prop)
  (f : A -> B) (l : list A) :
  (forall a b, R a b -> Q (f a) (f b)) ->
  StronglySorted R l -> StronglySorted Q (map f l).
Proof.
  intros HRQ. induction 1 as [|x l Hs IH Hx]; simpl; constructor; [exact IH|].
  rewrite Forall_forall in *. intros y Hy.
  apply in_map_iff in Hy as [z [<- Hz]]. auto.
Qed.


Lemma images_of_eq (s : db) (fid : Z) :
  images_of s fid
  = map json_build_object (filter (fun fi => Image.field_id fi =? fid) (field_images s)).
Proof.
  unfold images_of, select_where.
  destruct (filter _ (field_images s)); reflexivity.
Qed.

Lemma joined_username_some (s : db) (owner : option Z) (n : string) :
  joined_username s owner = Some n ->
  exists u, In u (users s) /\ owner = Some (User.id u) /\ User.username u = n.
Proof.
  unfold joined_username, user_by_id. destruct owner as [uid|]; [|discriminate].
  destruct (find _ (users s)) as [u|] eqn:E; [|discriminate].
  intros [= <-]. apply find_some in E as [Hin Hid]. apply Z.eqb_eq in Hid.
  exists u. now subst.
Qed.

Lemma joined_username_none (s : db) (owner : option Z) :
  joined_username s owner = None ->
  forall u, In u (users s) -> owner <> Some (User.id u).
Proof.
  unfold joined_username, user_by_id. destruct owner as [uid|]; [|discriminate].
  destruct (find _ (users s)) as [u|] eqn:E; [discriminate|].
  intros _ u Hu [= ->]. apply (find_none _ _ E) in Hu. simpl in Hu.
  rewrite Z.eqb_refl in Hu. discriminate.
Qed.

Example list_everything :
  returned_ids (list_venues no_filters seed_db) = [1; 2; 3].
Proof. reflexivity. Qed.

Example list_milano_swimming :
  returned_ids (list_venues milano_swimming seed_db) = [3].
Proof. reflexivity. Qed.

Example list_ignores_case :
  returned_ids (list_venues (mkQuery (Some "mILA") None (Some "lomb") None None None) seed_db)
  = [1; 3].
Proof. reflexivity. Qed.




(** ** Image manager: sequences of requests and the primary-image invariant *)

Example attach_attach :
  map (fun fi => (Image.id fi, Image.is_primary fi))
      (field_images (serve_all (firstn 2 matched_remove) seed_db))
  = [(1, true); (2, false)].
Proof. reflexivity. Qed.

Example remove_promotes_second :
  map (fun fi => (Image.id fi, Image.is_primary fi))
      (field_images (serve_all matched_remove seed_db))
  = [(2, true)].
Proof. reflexivity. Qed.

(** *** Counting rows *)

Section Counting.
Context {A : Type}.

Lemma length_filter_app (P : A -> bool) (l : list A) (x : A) :
  List.length (filter P (l ++ [x])%list)
  = (List.length (filter P l) + (if P x then 1 else 0))%nat.
Proof.
  rewrite filter_app, length_app. simpl. destruct (P x); reflexivity.
Qed.

Lemma length_filter_map (P : A -> bool) (g : A -> A) (l : list A) :
  List.length (filter P (map g l)) = List.length (filter (fun x => P (g x)) l).
Proof.
  induction l as [|a l IH]; [reflexivity|].
  simpl. destruct (P (g a)); simpl; now rewrite IH.
Qed.

Lemma filter_filter (P Q : A -> bool) (l : list A) :
  filter P (filter Q l) = filter (fun x => Q x && P x) l.
Proof.
  induction l as [|a l IH]; [reflexivity|].
  simpl. destruct (Q a); simpl; [destruct (P a)|]; now rewrite IH.
Qed.

Lemma filter_none (P : A -> bool) (l : list A) :
  List.length (filter P l) = 0%nat -> forall x, In x l -> P x = false.
Proof.
  intros H x Hx. destruct (P x) eqn:E; [|reflexivity].
  assert (Hin : In x (filter P l)) by (apply filter_In; auto).
  destruct (filter P l); [contradiction | discriminate].
Qed.

Lemma length_filter_le (P Q : A -> bool) (l : list A) :
  (forall x, In x l -> P x = true -> Q x = true) ->
  (List.length (filter P l) <= List.length (filter Q l))%nat.
Proof.
  induction l as [|a l IH]; intros H; [simpl; lia|].
  assert (IH' := IH (fun x Hx => H x (or_intror Hx))).
  simpl. destruct (P a) eqn:Pa.
  - rewrite (H a (or_introl eq_refl) Pa). simpl. lia.
  - destruct (Q a); simpl; lia.
Qed.
End Counting.

Section Keyed.
Context {A : Type} (key : A -> Z).

Lemma filter_key_absent (k : Z) (l : list A) :
  ~ In k (map key l) -> filter (fun r => key r =? k) l = [].
Proof.
  induction l as [|a l IH]; intros H; [reflexivity|].
  simpl in *. destruct (Z.eqb_spec (key a) k) as [E|E].
  - exfalso. auto.
  - apply IH. auto.
Qed.

Lemma filter_key_present (r : A) (l : list A) :
  NoDup (map key l) -> In r l -> filter (fun x => key x =? key r) l = [r].
Proof.
  induction l as [|a l IH]; intros Hnd Hin; [contradiction|].
  simpl in Hnd. apply NoDup_cons_iff in Hnd as [Hnotin Hnd].
  simpl. destruct Hin as [->|Hin].
  - rewrite Z.eqb_refl. f_equal. now apply filter_key_absent.
  - destruct (Z.eqb_spec (key a) (key r)) as [E|E].
    + exfalso. apply Hnotin. rewrite E. now apply in_map.
    + now apply IH.
Qed.

Lemma key_injective (r r' : A) (l : list A) :
  NoDup (map key l) -> In r l -> In r' l -> key r = key r' -> r = r'.
Proof.
  intros Hnd Hr Hr' E.
  assert (H : In r (filter (fun x => key x =? key r') l)).
  { apply filter_In. split; [assumption | now apply Z.eqb_eq]. }
  rewrite (filter_key_present r' l Hnd Hr') in H.
  destruct H as [H|[]]. now symmetry.
Qed.

Lemma NoDup_map_filter (P : A -> bool) (l : list A) :
  NoDup (map key l) -> NoDup (map key (filter P l)).
Proof.
  induction l as [|a l IH]; intros Hnd; [constructor|].
  simpl in Hnd. apply NoDup_cons_iff in Hnd as [Hnotin Hnd].
  simpl. destruct (P a); [|auto].
  simpl. constructor; [|auto].
  intros Hin. apply Hnotin. apply in_map_iff in Hin as [x [Hx Hin]].
  apply filter_In in Hin as [Hin _]. rewrite <- Hx. now apply in_map.
Qed.

(** Deleting the row keyed like [r] takes exactly [r] out of any count. *)
Lemma length_filter_delete (P : A -> bool) (r : A) (l : list A) :
  NoDup (map key l) -> In r l ->
  (List.length (filter P (delete_where (fun x => (key x =? key r)%Z) l))
   + (if P r then 1 else 0))%nat
  = List.length (filter P l).
Proof.
  unfold delete_where.
  induction l as [|a l IH]; intros Hnd Hin; [contradiction|].
  simpl in Hnd. apply NoDup_cons_iff in Hnd as [Hnotin Hnd].
  simpl. destruct Hin as [->|Hin].
  - rewrite Z.eqb_refl. simpl.
    assert (E : filter (fun x => negb (key x =? key r)) l = l).
    { apply forallb_filter_id. apply forallb_forall. intros x Hx.
      apply negb_true_iff, Z.eqb_neq. intros E. apply Hnotin.
      rewrite <- E. now apply in_map. }
    rewrite E. destruct (P r); simpl; lia.
  - destruct (Z.eqb_spec (key a) (key r)) as [E|E].
    + exfalso. apply Hnotin. rewrite E. now apply in_map.
    + simpl. specialize (IH Hnd Hin). destruct (P a); simpl; lia.
Qed.
End Keyed.

(** *** The invariant on the table itself *)

Lemma nprim_le_nimg (v : Z) (l : list Image.t) : (nprim v l <= nimg v l)%nat.
Proof.
  apply length_filter_le. unfold primary_in, in_venue. intros x _ H.
  now apply andb_true_iff in H.
Qed.

Lemma nimg_pos (v : Z) (l : list Image.t) (fi : Image.t) :
  In fi l -> Image.field_id fi = v -> nimg v l <> 0%nat.
Proof.
  intros Hin Hv H. apply (filter_none _ _ H) in Hin.
  unfold in_venue in Hin. apply Z.eqb_neq in Hin. contradiction.
Qed.

Lemma primary_invariant_iff (s : db) :
  primary_invariant s <-> one_primary (field_images s).
Proof.
  unfold primary_invariant, one_primary, primary_images, venue_images.
  split; intros H v; specialize (H v);
    rewrite filter_filter in H || rewrite filter_filter;
    fold (primary_in v) in *; fold (in_venue v) in *;
    fold (nprim v (field_images s)) in *;
    pose proof (nprim_le_nimg v (field_images s)) as Hle; unfold nimg in *.
  - destruct H as [H1 H2].
    destruct (filter (in_venue v) (field_images s)) eqn:E; simpl in *; [lia|].
    apply H2. discriminate.
  - destruct (filter (in_venue v) (field_images s)) eqn:E; simpl in *.
    + split; [lia | congruence].
    + split; [lia | intros _; exact H].
Qed.

Lemma nimg_app (v : Z) (l : list Image.t) (x : Image.t) :
  nimg v (l ++ [x])%list = (nimg v l + (if in_venue v x then 1 else 0))%nat.
Proof. apply length_filter_app. Qed.

Lemma nprim_app (v : Z) (l : list Image.t) (x : Image.t) :
  nprim v (l ++ [x])%list = (nprim v l + (if primary_in v x then 1 else 0))%nat.
Proof. apply length_filter_app. Qed.

Lemma one_primary_attach (l : list Image.t) (i v0 : Z) (url : string) (u t : Z) :
  one_primary l ->
  one_primary (l ++ [Image.mk i v0 url u t (nimg v0 l =? 0)%nat])%list.
Proof.
  intros H v. pose proof (H v) as Hv.
  rewrite nimg_app, nprim_app. unfold primary_in, in_venue.
  cbn [Image.field_id Image.is_primary].
  destruct (Z.eqb_spec v0 v) as [<-|Ne]; cbn [andb].
  - rewrite Hv. destruct (Nat.eqb_spec (nimg v0 l) 0) as [E|E].
    + rewrite E. reflexivity.
    + destruct (Nat.eqb_spec (nimg v0 l + 1) 0); lia.
  - rewrite !Nat.add_0_r. exact Hv.
Qed.

Lemma set_primary_updates (v0 i0 : Z) (l : list Image.t) :
  update_where (fun fi => Image.id fi =? i0) (Image.set_is_primary true)
    (update_where (fun fi => Image.field_id fi =? v0) (Image.set_is_primary false) l)
  = map (clear_then_set v0 i0) l.
Proof. unfold update_where. rewrite map_map. reflexivity. Qed.

Lemma clear_then_set_field (v0 i0 : Z) (fi : Image.t) :
  Image.field_id (clear_then_set v0 i0 fi) = Image.field_id fi.
Proof.
  unfold clear_then_set. destruct (Image.field_id fi =? v0); simpl;
    destruct (Image.id fi =? i0); reflexivity.
Qed.

Lemma clear_then_set_id (v0 i0 : Z) (fi : Image.t) :
  Image.id (clear_then_set v0 i0 fi) = Image.id fi.
Proof.
  unfold clear_then_set. destruct (Image.field_id fi =? v0); simpl;
    destruct (Image.id fi =? i0); reflexivity.
Qed.

Lemma clear_then_set_primary (v0 i0 : Z) (fi : Image.t) :
  Image.is_primary (clear_then_set v0 i0 fi)
  = if Image.id fi =? i0 then true
    else if Image.field_id fi =? v0 then false else Image.is_primary fi.
Proof.
  unfold clear_then_set. destruct (Image.field_id fi =? v0); simpl;
    destruct (Image.id fi =? i0); reflexivity.
Qed.

Lemma one_primary_set_primary (l : list Image.t) (r0 : Image.t) :
  NoDup (map Image.id l) -> In r0 l -> one_primary l ->
  one_primary (map (clear_then_set (Image.field_id r0) (Image.id r0)) l).
Proof.
  intros Hnd Hin H v. set (v0 := Image.field_id r0). set (i0 := Image.id r0).
  assert (Hn : nimg v (map (clear_then_set v0 i0) l) = nimg v l).
  { unfold nimg. rewrite length_filter_map. f_equal. apply filter_ext.
    intros x. unfold in_venue. now rewrite clear_then_set_field. }
  rewrite Hn. unfold nprim. rewrite length_filter_map.
  destruct (Z.eqb_spec v v0) as [->|Hv].
  - rewrite (filter_ext_in _ (fun x => Image.id x =? Image.id r0)).
    + rewrite (filter_key_present Image.id r0 l Hnd Hin). simpl.
      destruct (Nat.eqb_spec (nimg v0 l) 0) as [E|E]; [|reflexivity].
      exfalso. now apply (nimg_pos v0 l r0 Hin).
    + intros x Hx. unfold primary_in.
      rewrite clear_then_set_field, clear_then_set_primary. fold i0.
      destruct (Z.eqb_spec (Image.id x) i0) as [E|E].
      * rewrite (key_injective Image.id x r0 l Hnd Hx Hin E).
        fold v0. now rewrite Z.eqb_refl.
      * destruct (Image.field_id x =? v0); reflexivity.
  - rewrite (filter_ext_in _ (primary_in v)); [apply H|].
    intros x Hx. unfold primary_in.
    rewrite clear_then_set_field, clear_then_set_primary.
    destruct (Z.eqb_spec (Image.field_id x) v) as [Ex|Ex]; [|reflexivity].
    destruct (Z.eqb_spec (Image.id x) i0) as [E|E].
    + exfalso. apply Hv. rewrite <- Ex.
      now rewrite (key_injective Image.id x r0 l Hnd Hx Hin E).
    + destruct (Z.eqb_spec (Image.field_id x) v0); [congruence | reflexivity].
Qed.

Lemma nimg_delete (v : Z) (r0 : Image.t) (l : list Image.t) :
  NoDup (map Image.id l) -> In r0 l ->
  (nimg v (delete_where (fun fi => (Image.id fi =? Image.id r0)%Z) l)
   + (if in_venue v r0 then 1 else 0))%nat = nimg v l.
Proof. intros. unfold nimg. now apply length_filter_delete. Qed.

Lemma nprim_delete (v : Z) (r0 : Image.t) (l : list Image.t) :
  NoDup (map Image.id l) -> In r0 l ->
  (nprim v (delete_where (fun fi => (Image.id fi =? Image.id r0)%Z) l)
   + (if primary_in v r0 then 1 else 0))%nat = nprim v l.
Proof. intros. unfold nprim. now apply length_filter_delete. Qed.

(** Deleting a row leaves every venue but its own as it was; its own
    venue keeps its primary unless the row was the primary. *)
Lemma one_primary_delete (l : list Image.t) (r0 : Image.t) (v : Z) :
  NoDup (map Image.id l) -> In r0 l -> one_primary l ->
  let l1 := delete_where (fun fi => Image.id fi =? Image.id r0) l in
  (v <> Image.field_id r0 \/ Image.is_primary r0 = false \/ nimg v l1 = 0%nat ->
   nprim v l1 = if (nimg v l1 =? 0)%nat then 0%nat else 1%nat)
  /\ (v = Image.field_id r0 -> Image.is_primary r0 = true -> nprim v l1 = 0%nat).
Proof.
  intros Hnd Hin H l1.
  pose proof (nimg_delete v r0 l Hnd Hin) as Hi.
  pose proof (nprim_delete v r0 l Hnd Hin) as Hp.
  pose proof (nprim_le_nimg v l1) as Hle.
  fold l1 in Hi, Hp. specialize (H v).
  unfold primary_in, in_venue in *.
  destruct (Z.eqb_spec (Image.field_id r0) v) as [E|E]; simpl in *.
  - destruct (Image.is_primary r0) eqn:Pr;
      destruct (Nat.eqb_spec (nimg v l) 0); destruct (Nat.eqb_spec (nimg v l1) 0);
      split; intros; try lia; try (intuition (congruence || lia)).
  - destruct (Nat.eqb_spec (nimg v l) 0); destruct (Nat.eqb_spec (nimg v l1) 0);
      split; intros; try lia; try congruence.
Qed.

(** Promoting a row of a venue that has no primary gives it exactly one
    and touches no other venue. *)
Lemma one_primary_promote (l : list Image.t) (n : Image.t) :
  NoDup (map Image.id l) -> In n l ->
  nprim (Image.field_id n) l = 0%nat ->
  (forall v, v <> Image.field_id n ->
     nprim v l = if (nimg v l =? 0)%nat then 0%nat else 1%nat) ->
  one_primary (update_where (fun fi => Image.id fi =? Image.id n)
                            (Image.set_is_primary true) l).
Proof.
  intros Hnd Hin Hzero Hother v. unfold update_where.
  set (h := fun r => if Image.id r =? Image.id n then Image.set_is_primary true r else r).
  assert (Hfield : forall x, Image.field_id (h x) = Image.field_id x).
  { intros x. unfold h. destruct (Image.id x =? Image.id n); reflexivity. }
  assert (Hn : nimg v (map h l) = nimg v l).
  { unfold nimg. rewrite length_filter_map. f_equal. apply filter_ext.
    intros x. unfold in_venue. now rewrite Hfield. }
  rewrite Hn. unfold nprim. rewrite length_filter_map.
  destruct (Z.eqb_spec v (Image.field_id n)) as [->|Hv].
  - rewrite (filter_ext_in _ (fun x => Image.id x =? Image.id n)).
    + rewrite (filter_key_present Image.id n l Hnd Hin). simpl.
      destruct (Nat.eqb_spec (nimg (Image.field_id n) l) 0) as [E|E]; [|reflexivity].
      exfalso. now apply (nimg_pos (Image.field_id n) l n Hin).
    + intros x Hx. unfold primary_in. rewrite Hfield. unfold h.
      destruct (Z.eqb_spec (Image.id x) (Image.id n)) as [E|E].
      * rewrite (key_injective Image.id x n l Hnd Hx Hin E).
        simpl. now rewrite Z.eqb_refl.
      * apply (filter_none _ _ Hzero x Hx).
  - rewrite (filter_ext_in _ (primary_in v)); [now apply Hother|].
    intros x Hx. unfold primary_in. rewrite Hfield. unfold h.
    destruct (Z.eqb_spec (Image.field_id x) v) as [Ex|Ex]; [|reflexivity].
    destruct (Z.eqb_spec (Image.id x) (Image.id n)) as [E|E]; [|reflexivity].
    exfalso. apply Hv. rewrite <- Ex.
    now rewrite (key_injective Image.id x n l Hnd Hx Hin E).
Qed.

(** *** What each handler leaves in [field_images] *)

Lemma select_head {A : Type} (p : A -> bool) (l : list A) (x : A) (rest : list A) :
  select_where p l = x :: rest -> In x l /\ p x = true.
Proof.
  intros H. apply (filter_In p x l). unfold select_where in H. rewrite H. now left.
Qed.

Lemma uploaded_asc_total (a b : Image.t) :
  uploaded_asc a b = true \/ uploaded_asc b a = true.
Proof. unfold uploaded_asc. rewrite !Z.leb_le. lia. Qed.

Lemma uploaded_asc_trans (a b c : Image.t) :
  uploaded_asc a b = true -> uploaded_asc b c = true -> uploaded_asc a c = true.
Proof. unfold uploaded_asc. rewrite !Z.leb_le. lia. Qed.

Lemma map_id_update (p : Image.t -> bool) (b : bool) (l : list Image.t) :
  map Image.id (update_where p (Image.set_is_primary b) l) = map Image.id l.
Proof.
  unfold update_where. rewrite map_map. apply map_ext.
  intros x. destruct (p x); reflexivity.
Qed.

Lemma Forall_update (P : Image.t -> Prop) (p : Image.t -> bool) (b : bool)
  (l : list Image.t) :
  (forall x, P x -> P (Image.set_is_primary b x)) ->
  Forall P l -> Forall P (update_where p (Image.set_is_primary b) l).
Proof.
  intros HP H. unfold update_where. apply Forall_forall. intros y Hy.
  apply in_map_iff in Hy as [x [<- Hx]]. rewrite Forall_forall in H.
  destruct (p x); auto.
Qed.

Lemma Forall_filter {A : Type} (P : A -> Prop) (p : A -> bool) (l : list A) :
  Forall P l -> Forall P (filter p l).
Proof.
  rewrite !Forall_forall. intros H x Hx. apply filter_In in Hx as [Hx _]. auto.
Qed.

Lemma images_keyed_bump (s : db) :
  images_keyed s -> images_keyed (bump_field_images_seq s).
Proof.
  intros [Hnd Hlt]. split; [exact Hnd|]. simpl.
  eapply Forall_impl; [|exact Hlt]. simpl. intros; lia.
Qed.

Lemma upload_image_integer (user : auth_user) (id : Z) (up : upload_outcome) (now : Z)
  (s : db) :
  image_ids_integer s -> image_ids_integer (snd (upload_image user id up now s)).
Proof.
  intros Ht. unfold upload_image.
  destruct up as [|msg|originalname mimetype filename]; simpl; try assumption.
  destruct (hasValidExtension originalname && hasValidMimeType mimetype);
    simpl; [|assumption].
  destruct (int4 id) eqn:Hid; simpl; [|assumption].
  destruct (venue_exists s id); simpl; [|assumption].
  unfold insert_field_image.
  destruct (int4 (field_images_id_seq s)) eqn:Hseq; simpl; [|assumption].
  destruct (user_exists s (userId user)); simpl; [|assumption].
  apply Forall_app. split; [exact Ht|]. repeat constructor; assumption.
Qed.

Lemma upload_image_keeps (user : auth_user) (id : Z) (up : upload_outcome) (now : Z)
  (s : db) :
  images_keyed s -> primary_invariant s ->
  images_keyed (snd (upload_image user id up now s))
  /\ primary_invariant (snd (upload_image user id up now s)).
Proof.
  intros Hk Hp. unfold upload_image.
  destruct up as [|msg|originalname mimetype filename]; simpl; try (split; assumption).
  destruct (hasValidExtension originalname && hasValidMimeType mimetype);
    simpl; [|split; assumption].
  destruct (int4 id); simpl; [|split; assumption].
  destruct (venue_exists s id); simpl; [|split; assumption].
  unfold insert_field_image.
  destruct (int4 (field_images_id_seq s)); simpl; [|split; assumption].
  destruct (user_exists s (userId user)); simpl.
  - destruct Hk as [Hnd Hlt]. split; [split|]; simpl.
    + rewrite map_app. simpl. apply NoDup_app.
      * exact Hnd.
      * repeat constructor. intros [].
      * intros x Hx [<-|[]]. apply in_map_iff in Hx as [fi [E Hfi]].
        rewrite Forall_forall in Hlt. specialize (Hlt fi Hfi). lia.
    + apply Forall_app. split.
      * eapply Forall_impl; [|exact Hlt]. simpl. intros; lia.
      * repeat constructor. simpl. lia.
    + apply primary_invariant_iff. simpl.
      apply primary_invariant_iff in Hp.
      apply (one_primary_attach (field_images s) _ id _ _ _ Hp).
  - split; [now apply images_keyed_bump|].
    apply primary_invariant_iff. simpl. now apply primary_invariant_iff.
Qed.

Lemma set_primary_keeps (user : auth_user) (id imageId : Z) (s : db) :
  images_keyed s -> primary_invariant s ->
  images_keyed (snd (set_primary user id imageId s))
  /\ primary_invariant (snd (set_primary user id imageId s)).
Proof.
  intros Hk Hp. unfold set_primary.
  destruct (int4 imageId && int4 id); simpl; [|split; assumption].
  destruct (select_where _ (field_images s)) as [|r0 rest] eqn:E; simpl;
    [split; assumption|].
  apply select_head in E as [Hin Hr0]. apply andb_true_iff in Hr0 as [Hi Hv].
  apply Z.eqb_eq in Hi, Hv. destruct Hk as [Hnd Hlt].
  split; [split|]; simpl.
  - now rewrite !map_id_update.
  - apply Forall_update; [auto|]. apply Forall_update; [auto|]. exact Hlt.
  - apply primary_invariant_iff. simpl. rewrite set_primary_updates.
    rewrite <- Hi, <- Hv. apply one_primary_set_primary; try assumption.
    now apply primary_invariant_iff.
Qed.

Lemma set_primary_integer (user : auth_user) (id imageId : Z) (s : db) :
  image_ids_integer s -> image_ids_integer (snd (set_primary user id imageId s)).
Proof.
  intros Ht. unfold set_primary.
  destruct (int4 imageId && int4 id); simpl; [|assumption].
  destruct (select_where _ (field_images s)); simpl; [assumption|].
  apply Forall_update; [auto|]. apply Forall_update; [auto|]. exact Ht.
Qed.

Lemma delete_image_integer (user : auth_user) (id imageId : Z) (s : db) :
  image_ids_integer s -> image_ids_integer (snd (delete_image user id imageId s)).
Proof.
  intros Ht. unfold delete_image.
  destruct (int4 imageId); simpl; [|assumption].
  destruct (select_where _ (field_images s)) as [|r0 rest]; simpl; [assumption|].
  destruct (negb (Image.uploaded_by r0 =? userId user)); simpl; [assumption|].
  assert (Ht1 : Forall (fun fi => int4 (Image.id fi) = true
                                  /\ int4 (Image.field_id fi) = true)
                       (delete_where (fun fi => Image.id fi =? imageId) (field_images s)))
    by (apply Forall_filter; exact Ht).
  destruct (Image.is_primary r0); simpl; [|assumption].
  destruct (int4 id); simpl; [|assumption].
  unfold limit.
  destruct (order_by uploaded_asc _) as [|n rest']; simpl; [assumption|].
  apply Forall_update; [auto | exact Ht1].
Qed.

Lemma delete_image_keeps (user : auth_user) (id imageId : Z) (s : db) :
  images_keyed s -> primary_invariant s ->
  (forall fi, In fi (field_images s) -> Image.id fi = imageId -> int4 id = true) ->
  remove_path_matches (Remove user id imageId) s ->
  images_keyed (snd (delete_image user id imageId s))
  /\ primary_invariant (snd (delete_image user id imageId s)).
Proof.
  intros Hk Hp Ht Hpath. unfold delete_image.
  destruct (int4 imageId); simpl; [|split; assumption].
  destruct (select_where _ (field_images s)) as [|r0 rest] eqn:E; simpl;
    [split; assumption|].
  apply select_head in E as [Hin Hi]. apply Z.eqb_eq in Hi.
  destruct (negb (Image.uploaded_by r0 =? userId user)); simpl; [split; assumption|].
  simpl in Hpath. pose proof (Hpath r0 Hin Hi) as Hv.
  rewrite (Ht r0 Hin Hi), andb_false_r.
  destruct Hk as [Hnd Hlt]. apply primary_invariant_iff in Hp.
  subst imageId.
  set (l1 := delete_where (fun fi => Image.id fi =? Image.id r0) (field_images s)).
  assert (Hnd1 : NoDup (map Image.id l1)) by (apply NoDup_map_filter; exact Hnd).
  assert (Hlt1 : Forall (fun fi => Image.id fi < field_images_id_seq s) l1)
    by (apply Forall_filter; exact Hlt).
  assert (Hplain : forall v,
            v <> Image.field_id r0 \/ Image.is_primary r0 = false \/ nimg v l1 = 0%nat ->
            nprim v l1 = if (nimg v l1 =? 0)%nat then 0%nat else 1%nat).
  { intros v. apply (one_primary_delete (field_images s) r0 v Hnd Hin Hp). }
  destruct (Image.is_primary r0) eqn:Pr.
  - destruct (order_by uploaded_asc
                (select_where (fun fi => Image.field_id fi =? id) l1))
      as [|n rest'] eqn:Eo.
    + split; [split; assumption|]. apply primary_invariant_iff. simpl. fold l1.
      intros v. apply Hplain.
      destruct (Z.eq_dec v (Image.field_id r0)) as [->|Hne]; [|now left].
      right; right. rewrite Hv.
      apply order_by_nil in Eo. unfold nimg, in_venue.
      unfold select_where in Eo. now rewrite Eo.
    + apply (order_by_head uploaded_asc uploaded_asc_total uploaded_asc_trans) in Eo
        as [Hn _].
      apply filter_In in Hn as [Hn Hfn]. apply Z.eqb_eq in Hfn.
      split; [split|]; simpl; fold l1.
      * now rewrite map_id_update.
      * apply Forall_update; [auto | exact Hlt1].
      * apply primary_invariant_iff. simpl. fold l1.
        apply one_primary_promote; try assumption.
        -- rewrite Hfn, <- Hv.
           apply (one_primary_delete (field_images s) r0 (Image.field_id r0) Hnd Hin Hp);
             [reflexivity | exact Pr].
        -- intros v Hne. apply Hplain. left. congruence.
  - split; [split; assumption|]. apply primary_invariant_iff. simpl. fold l1.
    intros v. apply Hplain. right. now left.
Qed.

Lemma serve_integer (r : image_request) (s : db) :
  image_ids_integer s -> image_ids_integer (snd (serve r s)).
Proof.
  intros Ht. destruct r as [user id up now|user id imageId|user id imageId]; simpl.
  - now apply upload_image_integer.
  - now apply delete_image_integer.
  - now apply set_primary_integer.
Qed.

Lemma serve_keeps (r : image_request) (s : db) :
  images_keyed s -> primary_invariant s -> image_ids_integer s ->
  remove_path_matches r s ->
  images_keyed (snd (serve r s)) /\ primary_invariant (snd (serve r s)).
Proof.
  intros Hk Hp Ht Hpath.
  destruct r as [user id up now|user id imageId|user id imageId]; simpl.
  - now apply upload_image_keeps.
  - apply delete_image_keeps; try assumption.
    intros fi Hfi Hi. simpl in Hpath. rewrite <- (Hpath fi Hfi Hi).
    unfold image_ids_integer in Ht. rewrite Forall_forall in Ht. apply (Ht fi Hfi).
  - now apply set_primary_keeps.
Qed.

(** Every sequence of image requests whose [Remove]s go through the venue
    of the image they delete keeps the invariant. *)
Lemma primary_invariant_kept (rs : list image_request) (s : db) :
  images_keyed s -> primary_invariant s -> image_ids_integer s -> paths_match rs s ->
  images_keyed (serve_all rs s) /\ primary_invariant (serve_all rs s).
Proof.
  revert s. induction rs as [|r rs IH]; intros s Hk Hp Ht Hm; simpl.
  - split; assumption.
  - destruct Hm as [Hr Hrs].
    destruct (serve_keeps r s Hk Hp Ht Hr) as [Hk' Hp'].
    apply IH; [assumption | assumption | now apply serve_integer | assumption].
Qed.

Lemma no_images_invariant (s : db) : field_images s = [] -> primary_invariant s.
Proof.
  intros H v. unfold primary_images, venue_images. rewrite H. simpl.
  split; [lia | congruence].
Qed.

(** From a database without images, every sequence of Attach, Remove and
    SetPrimary whose [Remove]s go through the venue of the image they
    delete leaves at most one primary image per venue, and exactly one in
    each venue that has an image. *)
Lemma primary_invariant_from_no_images (rs : list image_request) (s : db) :
  field_images s = [] -> paths_match rs s -> primary_invariant (serve_all rs s).
Proof.
  intros Hnil Hm.
  apply primary_invariant_kept; [|now apply no_images_invariant| |exact Hm].
  - unfold images_keyed. rewrite Hnil. split; constructor.
  - unfold image_ids_integer. rewrite Hnil. constructor.
Qed.

Example matched_remove_paths : paths_match matched_remove seed_db.
Proof.
  simpl. repeat split. intros fi [<-|[<-|[]]]; [reflexivity | discriminate].
Qed.

(** *** Attach *)

(** A stored upload is flagged primary exactly when the venue had no image. *)
Lemma upload_image_flag (user : auth_user) (id : Z) (up : upload_outcome) (now : Z)
  (s : db) :
  status (fst (upload_image user id up now s)) = 200 ->
  exists fi,
    field_images (snd (upload_image user id up now s)) = (field_images s ++ [fi])%list
    /\ Image.id fi = field_images_id_seq s
    /\ Image.field_id fi = id
    /\ Image.uploaded_by fi = userId user
    /\ Image.uploaded_at fi = now
    /\ (Image.is_primary fi = true <-> venue_images id s = []).
Proof.
  unfold upload_image.
  destruct up as [|msg|originalname mimetype filename]; simpl; try discriminate.
  destruct (hasValidExtension originalname && hasValidMimeType mimetype);
    simpl; [|discriminate].
  destruct (int4 id); simpl; [|discriminate].
  destruct (venue_exists s id); simpl; [|discriminate].
  unfold insert_field_image.
  destruct (int4 (field_images_id_seq s)); simpl; [|discriminate].
  destruct (user_exists s (userId user)); simpl; [|discriminate].
  intros _. eexists. split; [reflexivity|]. simpl. repeat split; try reflexivity.
  - unfold venue_images, select_where. intros H. apply Nat.eqb_eq in H.
    now apply length_zero_iff_nil.
  - unfold venue_images, select_where. intros ->. reflexivity.
Qed.

(** *** Remove *)

Lemma filter_map_fixed {A : Type} (P : A -> bool) (h : A -> A) (l : list A) :
  (forall x, In x l -> P (h x) = P x) ->
  (forall x, In x l -> P x = true -> h x = x) ->
  filter P (map h l) = filter P l.
Proof.
  induction l as [|a l IH]; intros H1 H2; [reflexivity|].
  simpl. rewrite (H1 a (or_introl eq_refl)).
  rewrite IH;
    [| intros; apply H1; simpl; auto | intros; apply H2; simpl; auto].
  destruct (P a) eqn:Pa; [|reflexivity].
  now rewrite (H2 a (or_introl eq_refl) Pa).
Qed.

Lemma filter_comm {A : Type} (P Q : A -> bool) (l : list A) :
  filter P (filter Q l) = filter Q (filter P l).
Proof.
  rewrite !filter_filter. apply filter_ext. intros x. apply andb_comm.
Qed.

Lemma delete_image_table (user : auth_user) (id imageId : Z) (s : db) (r0 : Image.t) :
  NoDup (map Image.id (field_images s)) ->
  In r0 (field_images s) -> Image.id r0 = imageId ->
  Image.uploaded_by r0 = userId user ->
  int4 imageId = true -> int4 id = true ->
  let l1 := delete_where (fun fi => Image.id fi =? imageId) (field_images s) in
  let out := delete_image user id imageId s in
  fst out = mkResponse 200 (Message "Image deleted successfully")
  /\ snd out = with_field_images (field_images (snd out)) s
  /\ (Image.is_primary r0 = false -> field_images (snd out) = l1)
  /\ (Image.is_primary r0 = true -> promoted_in id l1 (field_images (snd out))).
Proof.
  intros Hnd Hin Hi Hu Hii Hid l1 out. subst out. unfold delete_image.
  assert (Hsel : select_where (fun fi => Image.id fi =? imageId) (field_images s) = [r0]).
  { rewrite <- Hi. apply (filter_key_present Image.id r0 _ Hnd Hin). }
  rewrite Hii, Hid. cbn [negb]. rewrite Hsel. rewrite Hu, Z.eqb_refl. cbn [negb].
  rewrite andb_false_r.
  destruct (Image.is_primary r0) eqn:Pr.
  - cbn [field_images with_field_images]. fold l1. unfold limit.
    destruct (order_by uploaded_asc
                (select_where (fun fi => Image.field_id fi =? id) l1))
      as [|n rest'] eqn:Eo; cbn [firstn fst snd field_images with_field_images].
    + split; [reflexivity|]. split; [reflexivity|]. split; [discriminate|].
      intros _. left. split; [|reflexivity].
      apply order_by_nil in Eo. intros fi Hfi Hv.
      assert (H : In fi (select_where (fun fi => Image.field_id fi =? id) l1)).
      { apply filter_In. split; [assumption | now apply Z.eqb_eq]. }
      now rewrite Eo in H.
    + split; [reflexivity|]. split; [reflexivity|]. split; [discriminate|].
      intros _. right. exists n.
      apply (order_by_head uploaded_asc uploaded_asc_total uploaded_asc_trans) in Eo
        as [Hn Hmin].
      apply filter_In in Hn as [Hn Hfn]. apply Z.eqb_eq in Hfn.
      split; [assumption|]. split; [assumption|]. split; [|reflexivity].
      intros fi Hfi Hv. apply Z.leb_le. apply Hmin.
      apply filter_In. split; [assumption | now apply Z.eqb_eq].
  - cbn [fst snd field_images with_field_images]. fold l1.
    split; [reflexivity|]. split; [reflexivity|]. split; [reflexivity | discriminate].
Qed.

Example two_uploads : serve_all (firstn 2 mismatched_remove) seed_db = two_images.
Proof. reflexivity. Qed.

Lemma update_keeps_uploaded_at (p : Image.t -> bool) (b : bool) (x : Image.t) :
  Image.uploaded_at (if p x then Image.set_is_primary b x else x) = Image.uploaded_at x
  /\ Image.field_id (if p x then Image.set_is_primary b x else x) = Image.field_id x.
Proof. destruct (p x); split; reflexivity. Qed.

(** When the path names the venue of the deleted primary image, the
    oldest remaining image of that venue becomes its only primary. *)
Lemma delete_image_promotes_oldest (user : auth_user) (id imageId : Z) (s : db)
  (r0 : Image.t) :
  images_keyed s -> primary_invariant s ->
  In r0 (field_images s) -> Image.id r0 = imageId ->
  Image.uploaded_by r0 = userId user ->
  Image.is_primary r0 = true -> Image.field_id r0 = id ->
  int4 imageId = true -> int4 id = true ->
  let s' := snd (delete_image user id imageId s) in
  (venue_images id s' = [] -> primary_images id s' = [])
  /\ (venue_images id s' <> [] ->
      exists n, primary_images id s' = [n]
                /\ forall fi, In fi (venue_images id s') ->
                              Image.uploaded_at n <= Image.uploaded_at fi).
Proof.
  intros Hk Hp Hin Hi Hu Pr Hv Hii Hid s'. split.
  - unfold primary_images. now intros ->.
  - intros Hne. pose proof Hk as [Hnd _].
    assert (Hpath : remove_path_matches (Remove user id imageId) s).
    { simpl. intros fi Hfi E. rewrite <- Hv.
      f_equal. apply (key_injective Image.id fi r0 _ Hnd Hfi Hin). congruence. }
    destruct (delete_image_keeps user id imageId s Hk Hp (fun _ _ _ => Hid) Hpath)
      as [_ Hp'].
    fold s' in Hp'.
    destruct (delete_image_table user id imageId s r0 Hnd Hin Hi Hu Hii Hid)
      as [_ [_ [_ Ht]]].
    specialize (Ht Pr). fold s' in Ht.
    destruct Ht as [[Hnone Hl2] | [n [Hn [Hfn [Hmin Hl2]]]]].
    + exfalso. apply Hne. unfold venue_images. rewrite Hl2.
      destruct (filter _ _) as [|x l] eqn:E; [reflexivity|].
      assert (Hx : In x (filter (fun fi => Image.field_id fi =? id)
                                (delete_where (fun fi => Image.id fi =? imageId)
                                              (field_images s))))
        by (rewrite E; now left).
      apply filter_In in Hx as [Hx Hfx]. apply Z.eqb_eq in Hfx.
      now apply Hnone in Hx.
    + set (n' := Image.set_is_primary true n).
      assert (Hn' : In n' (field_images s')).
      { rewrite Hl2. unfold update_where. apply in_map_iff. exists n.
        split; [|assumption]. now rewrite Z.eqb_refl. }
      assert (Hpn : In n' (primary_images id s')).
      { unfold primary_images, venue_images. apply filter_In. split; [|reflexivity].
        apply filter_In. split; [assumption|]. simpl. now apply Z.eqb_eq. }
      destruct (Hp' id) as [_ Hone]. specialize (Hone Hne).
      destruct (primary_images id s') as [|x [|y l]] eqn:E; try discriminate.
      destruct Hpn as [->|[]]. exists n'. split; [reflexivity|].
      intros fi Hfi. unfold venue_images in Hfi.
      apply filter_In in Hfi as [Hfi Hff]. apply Z.eqb_eq in Hff.
      rewrite Hl2 in Hfi. unfold update_where in Hfi.
      apply in_map_iff in Hfi as [x [<- Hx]].
      destruct (update_keeps_uploaded_at
                  (fun fi => Image.id fi =? Image.id n) true x) as [Eu Ef].
      rewrite Eu. simpl. apply Hmin; [assumption|]. now rewrite <- Ef.
Qed.

Lemma delete_image_promotes_oldest_example :
  let s' := snd (delete_image leosant 1 1 two_images) in
  (venue_images 1 s' = [] -> primary_images 1 s' = [])
  /\ (venue_images 1 s' <> [] ->
      exists n, primary_images 1 s' = [n]
                /\ forall fi, In fi (venue_images 1 s') ->
                              Image.uploaded_at n <= Image.uploaded_at fi).
Proof.
  apply (delete_image_promotes_oldest leosant 1 1 two_images first_image);
    try reflexivity.
  - split.
    + simpl. repeat constructor; simpl; intuition discriminate.
    + simpl. repeat constructor; simpl; lia.
  - intros v. unfold primary_images, venue_images.
    cbn [field_images two_images filter first_image second_image Image.field_id].
    destruct (1 =? v); simpl;
      (split; [lia | intros H; try reflexivity; now contradiction H]).
  - simpl. auto.
Qed.

(** C3 (failing input): user 1 deletes image 1, the primary image of
    venue 1, through the path of venue 2.  The handler answers 200 and
    looks for the next primary among the images of venue 2, so image 2,
    the one image left in venue 1, stays non-primary: venue 1 has an image
    and no primary.  Through the path of venue 1 the same request
    promotes image 2. *)
Theorem remove_primary_through_other_venue :
  In first_image (field_images two_images)
  /\ Image.is_primary first_image = true
  /\ Image.uploaded_by first_image = userId leosant
  /\ delete_image leosant 2 1 two_images
     = (mkResponse 200 (Message "Image deleted successfully"),
        with_field_images [second_image] two_images)
  /\ venue_images 1 (snd (delete_image leosant 2 1 two_images)) = [second_image]
  /\ primary_images 1 (snd (delete_image leosant 2 1 two_images)) = []
  /\ primary_images 1 (snd (delete_image leosant 1 1 two_images))
     = [Image.set_is_primary true second_image].
Proof.
  repeat split; try reflexivity. simpl. auto.
Qed.

(** C1 (failing input): from the seeded database, which has no image,
    two uploads to venue 1 followed by the deletion of image 1 through the
    path of venue 2 end in a state where venue 1 has one image and no
    primary, so the invariant does not survive every sequence of Attach,
    Remove and SetPrimary. *)
Theorem primary_invariant_broken_by_remove :
  field_images seed_db = []
  /\ primary_invariant seed_db
  /\ serve_all mismatched_remove seed_db = with_field_images [second_image] two_images
  /\ ~ primary_invariant (serve_all mismatched_remove seed_db).
Proof.
  split; [reflexivity|]. split; [now apply no_images_invariant|].
  split; [reflexivity|].
  intros H. destruct (H 1) as [_ H1].
  assert (E : venue_images 1 (serve_all mismatched_remove seed_db) <> [])
    by (vm_compute; discriminate).
  specialize (H1 E). vm_compute in H1. discriminate.
Qed.

Lemma two_images_keys : NoDup (map Image.id (field_images two_images)).
Proof. simpl. repeat constructor; simpl; intuition discriminate. Qed.

Lemma delete_where_ids (imageId : Z) (l : list Image.t) :
  ~ In imageId (map Image.id (delete_where (fun fi => Image.id fi =? imageId) l)).
Proof.
  intros H. apply in_map_iff in H as [x [E Hx]].
  apply filter_In in Hx as [_ Hx]. apply negb_true_iff, Z.eqb_neq in Hx. contradiction.
Qed.

(** C9: the handler never compares the image's venue with the venue id of
    the path.  For an image the caller uploaded, whatever INTEGER the
    path gives as venue id: the answer is 200 and the row is gone; the
    table is otherwise the old one, except that, when the image was
    primary, the oldest image among those of the path's venue is flagged
    primary; and when the path's venue is not the image's venue, the
    remaining images of the image's venue are left exactly as they were,
    none of them promoted. *)
Theorem delete_image_ignores_path_venue (user : auth_user) (id imageId : Z) (s : db)
  (r0 : Image.t) :
  NoDup (map Image.id (field_images s)) ->
  In r0 (field_images s) -> Image.id r0 = imageId ->
  Image.uploaded_by r0 = userId user ->
  int4 imageId = true -> int4 id = true ->
  let l1 := delete_where (fun fi => Image.id fi =? imageId) (field_images s) in
  let s' := snd (delete_image user id imageId s) in
  fst (delete_image user id imageId s)
  = mkResponse 200 (Message "Image deleted successfully")
  /\ ~ In imageId (map Image.id (field_images s'))
  /\ (Image.is_primary r0 = false -> field_images s' = l1)
  /\ (Image.is_primary r0 = true -> promoted_in id l1 (field_images s'))
  /\ (id <> Image.field_id r0 ->
      venue_images (Image.field_id r0) s'
      = delete_where (fun fi => Image.id fi =? imageId)
                     (venue_images (Image.field_id r0) s)).
Proof.
  intros Hnd Hin Hi Hu Hii Hid l1 s'.
  destruct (delete_image_table user id imageId s r0 Hnd Hin Hi Hu Hii Hid)
    as [Hresp [_ [Hplain Hprom]]].
  fold l1 in Hplain, Hprom. fold s' in Hplain, Hprom.
  assert (Hnd1 : NoDup (map Image.id l1)) by (apply NoDup_map_filter; exact Hnd).
  assert (Hvenue : filter (fun fi => Image.field_id fi =? Image.field_id r0) l1
                   = delete_where (fun fi => Image.id fi =? imageId)
                                  (venue_images (Image.field_id r0) s)).
  { unfold l1, delete_where, venue_images. apply filter_comm. }
  split; [exact Hresp|]. split; [|split; [exact Hplain|split; [exact Hprom|]]].
  - destruct (Image.is_primary r0) eqn:Pr.
    + destruct (Hprom eq_refl) as [[_ ->] | [n [_ [_ [_ ->]]]]].
      * apply delete_where_ids.
      * rewrite map_id_update. apply delete_where_ids.
    + rewrite (Hplain eq_refl). apply delete_where_ids.
  - intros Hne. unfold venue_images at 1. rewrite <- Hvenue.
    destruct (Image.is_primary r0) eqn:Pr; [|now rewrite (Hplain eq_refl)].
    destruct (Hprom eq_refl) as [[_ ->] | [n [Hn [Hfn [_ ->]]]]]; [reflexivity|].
    unfold update_where. apply filter_map_fixed.
    + intros x _. destruct (Image.id x =? Image.id n); reflexivity.
    + intros x Hx Hfx. apply Z.eqb_eq in Hfx.
      destruct (Z.eqb_spec (Image.id x) (Image.id n)) as [E|E]; [|reflexivity].
      exfalso. apply Hne.
      rewrite <- Hfx, (key_injective Image.id x n l1 Hnd1 Hx Hn E). now symmetry.
Qed.

Lemma delete_image_ignores_path_venue_witness :
  let l1 := delete_where (fun fi => Image.id fi =? 1) (field_images two_images) in
  let s' := snd (delete_image leosant 2 1 two_images) in
  fst (delete_image leosant 2 1 two_images)
  = mkResponse 200 (Message "Image deleted successfully")
  /\ ~ In 1 (map Image.id (field_images s'))
  /\ (Image.is_primary first_image = false -> field_images s' = l1)
  /\ (Image.is_primary first_image = true -> promoted_in 2 l1 (field_images s'))
  /\ (2 <> Image.field_id first_image ->
      venue_images (Image.field_id first_image) s'
      = delete_where (fun fi => Image.id fi =? 1)
                     (venue_images (Image.field_id first_image) two_images)).
Proof.
  apply (delete_image_ignores_path_venue leosant 2 1 two_images first_image).
  - exact two_images_keys.
  - simpl. auto.
  - reflexivity.
  - reflexivity.
  - reflexivity.
  - reflexivity.
Defined.

(** ** Set primary *)

(** C4: a second SetPrimary with the same venue and image gives the
    response of the first and leaves the database the first one left. *)
Theorem set_primary_idempotent (user : auth_user) (id imageId : Z) (s : db) :
  set_primary user id imageId (snd (set_primary user id imageId s))
  = set_primary user id imageId s.
Proof.
  unfold set_primary.
  destruct (int4 imageId && int4 id); cbn [negb]; [|reflexivity].
  destruct (select_where _ (field_images s)) as [|r0 rest] eqn:E.
  - cbn [snd]. now rewrite E.
  - cbn [snd field_images with_field_images]. rewrite set_primary_updates.
    set (g := clear_then_set id imageId).
    assert (Hsel : select_where
                     (fun fi => (Image.id fi =? imageId) && (Image.field_id fi =? id))
                     (map g (field_images s))
                   = map g (select_where
                              (fun fi => (Image.id fi =? imageId) && (Image.field_id fi =? id))
                              (field_images s))).
    { unfold select_where. generalize (field_images s) as l.
      unfold g. induction l as [|a l IH]; [reflexivity|]. simpl.
      rewrite clear_then_set_id, clear_then_set_field.
      destruct ((Image.id a =? imageId) && (Image.field_id a =? id)); simpl;
        now rewrite IH. }
    rewrite Hsel, E. cbn [map].
    cbn [field_images with_field_images users sports_venues football_fields
         venue_reports field_images_id_seq venue_reports_id_seq].
    rewrite set_primary_updates. fold g.
    assert (Hg : map g (map g (field_images s)) = map g (field_images s)).
    { rewrite map_map. apply map_ext. intros x. unfold g, clear_then_set.
      destruct x as [i v url u t b]. simpl.
      destruct (v =? id) eqn:Ev; simpl; destruct (i =? imageId) eqn:Ei; simpl;
        rewrite ?Ev, ?Ei; simpl; rewrite ?Ei; reflexivity. }
    rewrite Hg. reflexivity.
Qed.

(** C10: the handler reads nothing of the caller, so two authenticated
    callers get the same response and leave the same database. *)
Theorem set_primary_any_caller (user1 user2 : auth_user) (id imageId : Z) (s : db) :
  set_primary user1 id imageId s = set_primary user2 id imageId s.
Proof. reflexivity. Qed.

Example set_primary_by_stranger :
  let stranger := mkAuthUser 77 "nobody" false in
  set_primary stranger 1 2 two_images
  = (mkResponse 200 (Message "Primary image updated successfully"),
     with_field_images [Image.set_is_primary false first_image;
                        Image.set_is_primary true second_image] two_images).
Proof. reflexivity. Qed.

(** ** Venue delete *)

Lemma existsb_false_filter {A : Type} (p : A -> bool) (l : list A) :
  existsb p l = false -> filter p l = [].
Proof.
  induction l as [|a l IH]; [reflexivity|]. simpl.
  intros H. apply orb_false_elim in H as [-> H]. auto.
Qed.

(** C5, as stated, fails: a caller who is neither an admin nor the owner
    gets 404 for venue 1, which exists, and 404 for venue 99, which does
    not, but the two bodies differ, so the outcome does tell whether the
    venue exists. *)
Lemma delete_venue_reveals_existence :
  isAdmin seed_db (userId stranger) = false
  /\ owns_venue seed_db (userId stranger) 1 = false
  /\ venue_exists seed_db 1 = true
  /\ venue_exists seed_db 99 = false
  /\ fst (delete_venue stranger 1 seed_db)
     = mkResponse 404 (Message "Venue not found or access denied")
  /\ fst (delete_venue stranger 99 seed_db)
     = mkResponse 404 (Message "Venue not found")
  /\ fst (delete_venue stranger 1 seed_db) <> fst (delete_venue stranger 99 seed_db).
Proof.
  do 6 (split; [reflexivity|]).
  intros H. vm_compute in H. discriminate H.
Qed.

(** C5 (amended): for path ids that are INTEGER values, a caller who is
    no admin and owns no venue and no legacy field of id [id] gets status
    404 from the delete, the status the delete of an id that names no
    venue gets; neither request changes the database.  (The message of
    the body is not the same in the two cases when [id] names a venue.)
    A path id outside INTEGER is answered 500, the database unchanged. *)
Theorem delete_venue_denied_as_missing (user : auth_user) (id missing : Z) (s : db) :
  int4 id = true -> int4 missing = true ->
  isAdmin s (userId user) = false ->
  owns_venue s (userId user) id = false ->
  owns_legacy_field s (userId user) id = false ->
  venue_exists s missing = false ->
  status (fst (delete_venue user id s)) = 404
  /\ status (fst (delete_venue user missing s)) = 404
  /\ snd (delete_venue user id s) = s
  /\ snd (delete_venue user missing s) = s
  /\ (forall outside, int4 outside = false ->
        delete_venue user outside s = (server_error, s)).
Proof.
  intros Hid Him Hadm Hown Hleg Hmiss.
  assert (Hm : delete_venue user missing s = (mkResponse 404 (Message "Venue not found"), s)).
  { unfold delete_venue, select_where. rewrite Him. cbn [negb].
    now rewrite (existsb_false_filter _ _ Hmiss). }
  assert (Hd : status (fst (delete_venue user id s)) = 404
               /\ snd (delete_venue user id s) = s).
  { unfold delete_venue. rewrite Hid. cbn [negb].
    destruct (select_where (fun f => Venue.id f =? id) (sports_venues s));
      [split; reflexivity|].
    rewrite Hadm. unfold venueCheck, select_where.
    rewrite (existsb_false_filter _ _ Hown), (existsb_false_filter _ _ Hleg).
    split; reflexivity. }
  rewrite Hm. destruct Hd as [Hd1 Hd2].
  split; [assumption|]. split; [reflexivity|]. split; [assumption|].
  split; [reflexivity|].
  intros outside Ho. unfold delete_venue. now rewrite Ho.
Qed.

Lemma delete_venue_denied_as_missing_witness :
  status (fst (delete_venue stranger 1 seed_db)) = 404
  /\ status (fst (delete_venue stranger 99 seed_db)) = 404
  /\ snd (delete_venue stranger 1 seed_db) = seed_db
  /\ snd (delete_venue stranger 99 seed_db) = seed_db
  /\ (forall outside, int4 outside = false ->
        delete_venue stranger outside seed_db = (server_error, seed_db)).
Proof.
  apply (delete_venue_denied_as_missing stranger 1 99 seed_db); reflexivity.
Defined.

(** ** Filing a report *)

Example first_filing :
  file_report notifier_up leosant 1 (mkReportRequest "info_errate" None) 500
              "1/1/2025, 12:00:00" seed_db
  = (mkResponse 201 (ReportCreated "Segnalazione inviata con successo" first_report),
     one_report,
     [console_log "Email notification sent for field report: Campo Comunale San Siro"]).
Proof. reflexivity. Qed.

Example second_filing :
  fr_response (file_report notifier_up leosant 1
                 (mkReportRequest "altro" (Some "closed since last winter")) 600
                 "1/1/2025, 12:10:00" one_report)
  = already_reported.
Proof. reflexivity. Qed.

Lemma existsb_true_filter {A : Type} (p : A -> bool) (l : list A) :
  existsb p l = true -> exists x rest, filter p l = x :: rest.
Proof.
  intros H. apply existsb_exists in H as [x [Hx Hp]].
  assert (Hin : In x (filter p l)) by (apply filter_In; auto).
  destruct (filter p l) as [|y rest]; [contradiction|]. now exists y, rest.
Qed.

Lemma valid_report_type_In (x : string) :
  valid_report_type x = true <-> In x report_types.
Proof.
  unfold valid_report_type. rewrite existsb_exists. split.
  - intros [y [Hy E]]. apply String.eqb_eq in E. now subst.
  - intros H. exists x. split; [assumption | apply String.eqb_refl].
Qed.

Lemma valid_description_range (d : option string) :
  valid_description d = true <-> description_in_range d.
Proof.
  destruct d as [x|]; unfold valid_description, description_in_range; [|tauto].
  rewrite andb_true_iff, !Nat.leb_le. tauto.
Qed.

Lemma validationResult_nil (b : report_request) :
  validationResult b = []
  <-> In (report_type b) report_types /\ description_in_range (description b).
Proof.
  rewrite <- valid_report_type_In, <- valid_description_range.
  unfold validationResult.
  destruct (valid_report_type (report_type b)), (valid_description (description b));
    simpl; split; intros H; try discriminate; try (destruct H; discriminate); auto.
Qed.

(** C2: when user U has a report against the existing venue V, a second
    filing by U against V is answered with the conflict (status 400, "Hai
    già segnalato questo impianto"), stores nothing and attempts no
    notification, whatever report type of the enumeration and whatever
    description of 10 to 500 characters, or none, it carries. *)
Theorem second_report_rejected (sendFieldReportEmail : email_data -> email_result)
  (user : auth_user) (id : Z) (b : report_request) (now : Z) (localeDate : string)
  (s : db) :
  int4 id = true ->
  venue_exists s id = true ->
  has_reported s (userId user) id = true ->
  In (report_type b) report_types ->
  description_in_range (description b) ->
  file_report sendFieldReportEmail user id b now localeDate s = (already_reported, s, []).
Proof.
  intros Hid Hv Hr Hty Hdescr. unfold file_report.
  rewrite (proj2 (validationResult_nil b) (conj Hty Hdescr)).
  rewrite Hid. cbn [negb].
  apply existsb_true_filter in Hv as [f [fs Hf]].
  apply existsb_true_filter in Hr as [r [rs Hrep]].
  unfold select_where. rewrite Hf, Hrep. reflexivity.
Qed.

Lemma second_report_rejected_witness :
  file_report notifier_up leosant 1
    (mkReportRequest "altro" (Some "closed since last winter")) 600
    "1/1/2025, 12:10:00" one_report
  = (already_reported, one_report, []).
Proof.
  apply (second_report_rejected notifier_up leosant 1
           (mkReportRequest "altro" (Some "closed since last winter")) 600
           "1/1/2025, 12:10:00" one_report).
  - reflexivity.
  - reflexivity.
  - reflexivity.
  - simpl. auto.
  - simpl. lia.
Defined.

(** C7, as stated, fails: with the report type ["non_esiste"], which is
    not in the enumeration the claim gives, the report is accepted, and
    with ["does-not-exist"], which is in it, the report is refused by the
    validation. *)
Lemma report_type_enumeration_differs :
  ~ In "non_esiste" spec_report_types
  /\ status (fr_response (file_report notifier_up leosant 1
                            (mkReportRequest "non_esiste" None) 500
                            "1/1/2025, 12:00:00" seed_db)) = 201
  /\ In "does-not-exist" spec_report_types
  /\ file_report notifier_up leosant 1 (mkReportRequest "does-not-exist" None) 500
                 "1/1/2025, 12:00:00" seed_db
     = (mkResponse 400 (Errors [mkVErr "report_type" "Tipo di segnalazione non valido"]),
        seed_db, []).
Proof.
  split; [|split; [reflexivity | split; [simpl; auto | reflexivity]]].
  simpl. intros [H|[H|[H|[]]]]; discriminate H.
Qed.

(** C7 (amended): a report is accepted (201) only when its type is one of
    ["non_esiste"], ["info_errate"], ["altro"] and its description, when
    present, has between 10 and 500 characters; with any other type, or
    with a present description outside that range, the answer is 400 with
    the validation errors, and the database is the one before the call. *)
Theorem file_report_validates (sendFieldReportEmail : email_data -> email_result)
  (user : auth_user) (id : Z) (b : report_request) (now : Z) (localeDate : string)
  (s : db) :
  let out := file_report sendFieldReportEmail user id b now localeDate s in
  (status (fr_response out) = 201 ->
   In (report_type b) report_types /\ description_in_range (description b))
  /\ (~ (In (report_type b) report_types /\ description_in_range (description b)) ->
      validationResult b <> []
      /\ out = (mkResponse 400 (Errors (validationResult b)), s, [])).
Proof.
  intros out. subst out. unfold file_report. split.
  - destruct (validationResult b) as [|e es] eqn:Ev.
    + intros _. now apply validationResult_nil.
    + simpl. discriminate.
  - intros H. destruct (validationResult b) as [|e es] eqn:Ev.
    + exfalso. apply H. now apply validationResult_nil.
    + split; [discriminate | reflexivity].
Qed.

Example short_description_refused :
  file_report notifier_up leosant 1 (mkReportRequest "altro" (Some "too short")) 500
              "1/1/2025, 12:00:00" seed_db
  = (mkResponse 400
       (Errors [mkVErr "description" "Descrizione deve essere tra 10 e 500 caratteri"]),
     seed_db, []).
Proof. reflexivity. Qed.

Example ten_characters_accepted :
  status (fr_response (file_report notifier_up leosant 1
                         (mkReportRequest "altro" (Some "0123456789")) 500
                         "1/1/2025, 12:00:00" seed_db)) = 201.
Proof. reflexivity. Qed.

(** C8: the response and the database a filing produces do not depend on
    the e-mail collaborator; in particular a filing that is answered 201
    when the notification is sent is answered 201, with the same stored
    report, when the notification fails.  The failure only shows on the
    console. *)
Theorem file_report_notifier_isolated
  (send1 send2 : email_data -> email_result)
  (user : auth_user) (id : Z) (b : report_request) (now : Z) (localeDate : string)
  (s : db) :
  fr_response (file_report send1 user id b now localeDate s)
  = fr_response (file_report send2 user id b now localeDate s)
  /\ fr_db (file_report send1 user id b now localeDate s)
     = fr_db (file_report send2 user id b now localeDate s).
Proof.
  unfold file_report.
  destruct (validationResult b); [|split; reflexivity].
  destruct (int4 id); cbn [negb]; [|split; reflexivity].
  destruct (select_where _ (sports_venues s)); [split; reflexivity|].
  destruct (select_where _ (venue_reports s)); [|split; reflexivity].
  destruct (insert_venue_report id (userId user) b now s) as [[row|] s'];
    split; reflexivity.
Qed.

Example notifier_down_console :
  fr_console (file_report notifier_down leosant 1 (mkReportRequest "info_errate" None) 500
                "1/1/2025, 12:00:00" seed_db)
  = [console_error "Error sending email notification: ECONNREFUSED"].
Proof. reflexivity. Qed.

Example filing_with_notifier_down :
  file_report notifier_down leosant 1 (mkReportRequest "info_errate" None) 500
              "1/1/2025, 12:00:00" seed_db
  = (mkResponse 201 (ReportCreated "Segnalazione inviata con successo" first_report),
     one_report,
     [console_error "Error sending email notification: ECONNREFUSED"]).
Proof. reflexivity. Qed.

(** A filing that passes every check is answered 201 and appends exactly
    the new pending report, whatever the notifier does. *)
Lemma file_report_accepts (sendFieldReportEmail : email_data -> email_result)
  (user : auth_user) (id : Z) (b : report_request) (now : Z) (localeDate : string)
  (s : db) :
  validationResult b = [] ->
  int4 id = true ->
  venue_exists s id = true ->
  has_reported s (userId user) id = false ->
  int4 (venue_reports_id_seq s) = true ->
  user_exists s (userId user) = true ->
  let row := Report.mk (venue_reports_id_seq s) id (userId user) (report_type b)
                       (description b) "pending" now now in
  fr_response (file_report sendFieldReportEmail user id b now localeDate s)
  = mkResponse 201 (ReportCreated "Segnalazione inviata con successo" row)
  /\ venue_reports (fr_db (file_report sendFieldReportEmail user id b now localeDate s))
     = (venue_reports s ++ [row])%list.
Proof.
  intros Hval Hid Hv Hr Hseq Hu row. unfold file_report. rewrite Hval, Hid. cbn [negb].
  apply existsb_true_filter in Hv as [f [fs Hf]].
  unfold select_where. rewrite Hf.
  rewrite (existsb_false_filter _ _ Hr).
  unfold insert_venue_report. rewrite Hseq, Hu. split; reflexivity.
Qed.

(** ** Worked requests *)

Example delete_by_stranger :
  delete_venue stranger 4 busy_db = (not_found_or_denied, busy_db).
Proof. reflexivity. Qed.

Example delete_by_owner :
  delete_venue mario 4 busy_db
  = (mkResponse 200 (Message "Field deleted successfully"), busy_db_without_campetto).
Proof. reflexivity. Qed.

Example delete_by_admin :
  delete_venue leosant 4 busy_db
  = (mkResponse 200 (Message "Impianto eliminato con successo (Admin)"),
     busy_db_without_campetto).
Proof. reflexivity. Qed.

Example delete_of_another_owner :
  delete_venue mario 1 busy_db = (not_found_or_denied, busy_db).
Proof. reflexivity. Qed.

Example upload_refused_by_filter :
  upload_image mario 4 (FilePart "notes.txt" "text/plain" "field-3.txt") 70 busy_db
  = (mkResponse 400 (Message "Only image files are allowed! Received: text/plain"), busy_db).
Proof. reflexivity. Qed.

Example upload_extension_any_case :
  hasValidExtension "Campo.JPEG" = true /\ hasValidExtension "campo.jpeg.exe" = false.
Proof. split; reflexivity. Qed.

Example upload_second_image :
  field_images (snd (upload_image mario 4 (FilePart "b.gif" "image/gif" "field-10.gif") 70 busy_db))
  = [Image.mk 1 4 "/uploads/field-images/field-9.png" 2 50 true;
     Image.mk 2 4 "/uploads/field-images/field-10.gif" 2 70 false].
Proof. reflexivity. Qed.

Example delete_image_of_another_uploader :
  delete_image leosant 4 1 busy_db
  = (mkResponse 403 (Message "You can only delete images you uploaded"), busy_db).
Proof. reflexivity. Qed.

Example set_primary_wrong_venue :
  set_primary mario 1 1 busy_db = (mkResponse 404 (Message "Image not found"), busy_db).
Proof. reflexivity. Qed.

(** A path id outside INTEGER: the first statement that binds it raises
    and the answer is 500.  Only the image delete has written by then,
    when the image was primary: the row is gone and nothing is promoted. *)
Example path_id_outside_integer :
  get_venue 2147483648 busy_db = mkReply 500 (JsonMessage "Server error")
  /\ get_venue_reports leosant 2147483648 busy_db = mkReply 500 (JsonMessage "Server error")
  /\ delete_venue leosant 2147483648 busy_db = (server_error, busy_db)
  /\ upload_image mario 2147483648 (a_jpeg "field-13.jpg") 70 busy_db
     = (server_error, busy_db)
  /\ set_primary mario 2147483648 1 busy_db = (server_error, busy_db)
  /\ file_report notifier_up mario 2147483648 (mkReportRequest "altro" None) 80
                 "1/1/2025, 12:00:00" busy_db
     = (server_error, busy_db, [console_error "Error creating report:"])
  /\ delete_image leosant 2147483648 2 two_images
     = (mkResponse 200 (Message "Image deleted successfully"),
        with_field_images [first_image] two_images)
  /\ delete_image leosant 2147483648 1 two_images
     = (server_error, with_field_images [second_image] two_images).
Proof. repeat split; reflexivity. Qed.

Example like_escape :
  like_match (like_param (String backslash EmptyString)) "100%" = true
  /\ like_match (like_param (String backslash EmptyString)) "100" = false
  /\ like_match (like_param "M_l%o") "Milano" = true.
Proof. repeat split; reflexivity. Qed.

(** * Properties of the router as a whole *)

(** ** What a request can do to the tables *)

Lemma set_is_primary_same (x : Image.t) : Image.set_is_primary (Image.is_primary x) x = x.
Proof. destruct x; reflexivity. Qed.

Lemma filter_true {A : Type} (l : list A) : filter (fun _ => true) l = l.
Proof. induction l as [|a l IH]; simpl; congruence. Qed.

Lemma reflagged_refl (l : list Image.t) : reflagged l l.
Proof.
  exists (fun _ => true), Image.is_primary. rewrite filter_true.
  rewrite <- (map_id l) at 1. apply map_ext. intros x. symmetry. apply set_is_primary_same.
Qed.

Lemma reflagged_delete (p : Image.t -> bool) (l : list Image.t) :
  reflagged l (delete_where p l).
Proof.
  exists (fun x => negb (p x)), Image.is_primary. unfold delete_where.
  rewrite <- (map_id (filter _ l)) at 1. apply map_ext.
  intros x. symmetry. apply set_is_primary_same.
Qed.

Lemma reflagged_update (p : Image.t -> bool) (b : bool) (l l' : list Image.t) :
  reflagged l l' -> reflagged l (update_where p (Image.set_is_primary b) l').
Proof.
  intros [keep [flag ->]].
  exists keep,
    (fun x => if p (Image.set_is_primary (flag x) x) then b else flag x).
  unfold update_where. rewrite map_map. apply map_ext. intros x.
  destruct (p (Image.set_is_primary (flag x) x)); reflexivity.
Qed.

Lemma reflagged_ids (l l' : list Image.t) :
  reflagged l l' -> exists keep, map Image.id l' = map Image.id (filter keep l).
Proof.
  intros [keep [flag ->]]. exists keep. rewrite map_map. reflexivity.
Qed.

Lemma reflagged_Forall (P : Image.t -> Prop) (l l' : list Image.t) :
  (forall x b, P x -> P (Image.set_is_primary b x)) ->
  reflagged l l' -> Forall P l -> Forall P l'.
Proof.
  intros HP [keep [flag ->]] H. apply Forall_forall. intros y Hy.
  apply in_map_iff in Hy as [x [<- Hx]]. apply filter_In in Hx as [Hx _].
  rewrite Forall_forall in H. auto.
Qed.

Lemma delete_image_reflags (user : auth_user) (id imageId : Z) (s : db) :
  exists l',
    snd (delete_image user id imageId s) = with_field_images l' s
    /\ reflagged (field_images s) l'.
Proof.
  unfold delete_image.
  assert (Hsame : s = with_field_images (field_images s) s) by (destruct s; reflexivity).
  destruct (negb (int4 imageId)).
  { exists (field_images s). split; [exact Hsame | apply reflagged_refl]. }
  destruct (select_where _ (field_images s)) as [|image rest].
  - exists (field_images s). split; [exact Hsame | apply reflagged_refl].
  - destruct (negb (Image.uploaded_by image =? userId user)).
    + exists (field_images s). split; [exact Hsame | apply reflagged_refl].
    + destruct (Image.is_primary image); cbn [andb].
      * destruct (negb (int4 id)); cbn [snd].
        { eexists. split; [reflexivity | apply reflagged_delete]. }
        cbn [field_images with_field_images].
        destruct (limit 1 _) as [|nextPrimary rest'].
        -- eexists. split; [reflexivity | apply reflagged_delete].
        -- eexists. split; [reflexivity|].
           apply reflagged_update, reflagged_delete.
      * eexists. split; [reflexivity | apply reflagged_delete].
Qed.

Lemma set_primary_reflags (user : auth_user) (id imageId : Z) (s : db) :
  exists l',
    snd (set_primary user id imageId s) = with_field_images l' s
    /\ reflagged (field_images s) l'.
Proof.
  unfold set_primary.
  destruct (negb (int4 imageId && int4 id)).
  { exists (field_images s). split; [destruct s; reflexivity | apply reflagged_refl]. }
  destruct (select_where _ (field_images s)) as [|image rest].
  - exists (field_images s). split; [destruct s; reflexivity | apply reflagged_refl].
  - cbn [snd field_images with_field_images]. eexists. split; [reflexivity|].
    apply reflagged_update, reflagged_update, reflagged_refl.
Qed.

(** The three outcomes of an upload for the database. *)
Lemma upload_image_cases (user : auth_user) (id : Z) (up : upload_outcome) (now : Z)
  (s : db) :
  let s' := snd (upload_image user id up now s) in
  s' = s
  \/ s' = bump_field_images_seq s
  \/ exists fi,
       s' = mkDb (users s) (sports_venues s) (football_fields s)
                 (field_images s ++ [fi])%list (venue_reports s)
                 (field_images_id_seq s + 1) (venue_reports_id_seq s)
       /\ Image.id fi = field_images_id_seq s
       /\ Image.field_id fi = id
       /\ Image.uploaded_by fi = userId user
       /\ venue_exists s id = true
       /\ user_exists s (userId user) = true.
Proof.
  unfold upload_image.
  destruct up as [|msg|originalname mimetype filename]; cbn [snd]; auto.
  destruct (hasValidExtension originalname && hasValidMimeType mimetype); cbn [snd]; auto.
  destruct (int4 id); cbn [negb snd]; auto.
  destruct (venue_exists s id) eqn:Ev; cbn [snd]; auto.
  unfold insert_field_image.
  destruct (int4 (field_images_id_seq s)); cbn [negb snd]; auto.
  destruct (user_exists s (userId user)) eqn:Eu; cbn [snd]; auto.
  right; right. eexists. split; [reflexivity|]. cbn. auto.
Qed.

(** The three outcomes of a filing for the database. *)
Lemma file_report_cases (sendFieldReportEmail : email_data -> email_result)
  (user : auth_user) (id : Z) (b : report_request) (now : Z) (localeDate : string)
  (s : db) :
  let s' := fr_db (file_report sendFieldReportEmail user id b now localeDate s) in
  s' = s
  \/ s' = bump_venue_reports_seq s
  \/ exists row,
       s' = mkDb (users s) (sports_venues s) (football_fields s) (field_images s)
                 (venue_reports s ++ [row])%list
                 (field_images_id_seq s) (venue_reports_id_seq s + 1)
       /\ row = Report.mk (venue_reports_id_seq s) id (userId user) (report_type b)
                          (description b) "pending" now now
       /\ venue_exists s id = true
       /\ user_exists s (userId user) = true
       /\ has_reported s (userId user) id = false.
Proof.
  unfold file_report, fr_db.
  destruct (validationResult b); cbn [fst snd]; auto.
  destruct (int4 id); cbn [negb fst snd]; auto.
  destruct (select_where _ (sports_venues s)) as [|field rest] eqn:Ev; cbn [fst snd]; auto.
  destruct (select_where _ (venue_reports s)) as [|r rs] eqn:Er; cbn [fst snd]; auto.
  unfold insert_venue_report.
  destruct (int4 (venue_reports_id_seq s)); cbn [negb fst snd]; auto.
  destruct (user_exists s (userId user)) eqn:Eu; cbn [fst snd]; auto.
  right; right. eexists. split; [reflexivity|]. split; [reflexivity|].
  split; [|split; [reflexivity|]].
  - unfold venue_exists. apply existsb_exists. exists field.
    apply (select_head _ _ _ _ Ev).
  - unfold has_reported. destruct (existsb _ (venue_reports s)) eqn:E; [|reflexivity].
    apply existsb_true_filter in E as [x [xs E]].
    unfold select_where in Er. rewrite Er in E. discriminate.
Qed.

Lemma pruned_refl (s : db) : pruned s s.
Proof.
  repeat split; try (exists (fun _ => true); now rewrite filter_true); auto.
Qed.

Lemma pruned_delete_from (tbl : table_name) (pv : Venue.t -> bool) (pl : Legacy.t -> bool)
  (s : db) :
  pruned s (snd (delete_from tbl pv pl s)).
Proof.
  destruct tbl; cbn [delete_from snd].
  - unfold pruned, delete_where, select_where.
    cbn [users sports_venues football_fields field_images venue_reports
         field_images_id_seq venue_reports_id_seq].
    split; [reflexivity|]. split; [reflexivity|]. split; [reflexivity|].
    split; [eexists; reflexivity|].
    split; [exists (fun _ => true); now rewrite filter_true|].
    split; [eexists; reflexivity|]. split; [eexists; reflexivity|].
    split.
    + intros fi f Hfi Hf E. apply filter_In in Hfi as [_ Hfi].
      apply negb_true_iff in Hfi. apply filter_In. split; [assumption|].
      destruct (pv f) eqn:Pf; [|reflexivity]. exfalso.
      assert (Hex : existsb (fun f0 => Venue.id f0 =? Image.field_id fi)
                            (filter pv (sports_venues s)) = true).
      { apply existsb_exists. exists f. split; [apply filter_In; auto|].
        now apply Z.eqb_eq. }
      congruence.
    + intros r f Hr Hf E. apply filter_In in Hr as [_ Hr].
      apply negb_true_iff in Hr. apply filter_In. split; [assumption|].
      destruct (pv f) eqn:Pf; [|reflexivity]. exfalso.
      assert (Hex : existsb (fun f0 => Venue.id f0 =? Report.venue_id r)
                            (filter pv (sports_venues s)) = true).
      { apply existsb_exists. exists f. split; [apply filter_In; auto|].
        now apply Z.eqb_eq. }
      congruence.
  - unfold pruned, delete_where.
    cbn [users sports_venues football_fields field_images venue_reports
         field_images_id_seq venue_reports_id_seq].
    repeat split; try (exists (fun _ => true); now rewrite filter_true); auto.
    eexists; reflexivity.
Qed.

(** The admin's two [DELETE]s on the child tables. *)
Lemma pruned_children (id : Z) (s : db) :
  let s1 := with_field_images
              (delete_where (fun fi => Image.field_id fi =? id) (field_images s)) s in
  pruned s (mkDb (users s1) (sports_venues s1) (football_fields s1) (field_images s1)
                 (delete_where (fun r => Report.venue_id r =? id) (venue_reports s1))
                 (field_images_id_seq s1) (venue_reports_id_seq s1)).
Proof.
  unfold pruned, delete_where.
  cbn [with_field_images users sports_venues football_fields field_images venue_reports
       field_images_id_seq venue_reports_id_seq].
  repeat split; try (exists (fun _ => true); now rewrite filter_true); auto;
    eexists; reflexivity.
Qed.

(** A venue delete prunes the database, in at most two steps. *)
Lemma delete_venue_prunes (user : auth_user) (id : Z) (s : db) :
  exists s1, pruned s s1 /\ pruned s1 (snd (delete_venue user id s)).
Proof.
  unfold delete_venue.
  destruct (negb (int4 id)); [exists s; split; apply pruned_refl|].
  destruct (select_where _ (sports_venues s)) as [|f fs];
    [exists s; split; apply pruned_refl|].
  destruct (isAdmin s (userId user)).
  - eexists. split; [apply (pruned_children id s)|].
    destruct (venueCheck _ _ _) as [|[tableName o] rest]; [apply pruned_refl|].
    destruct (fst (delete_from tableName _ _ _) =? 0)%nat; apply pruned_delete_from.
  - exists s. split; [apply pruned_refl|].
    destruct (venueCheck _ _ _) as [|[tableName o] rest]; [apply pruned_refl|].
    destruct (fst (delete_from tableName _ _ _) =? 0)%nat; apply pruned_delete_from.
Qed.

Lemma delete_all_fields_prunes (s : db) : pruned s (snd (delete_all_fields s)).
Proof. apply pruned_delete_from. Qed.

(** *** The reference columns *)

Lemma references_pruned (s s' : db) :
  pruned s s' -> references_hold s -> references_hold s'.
Proof.
  intros [Hu [_ [_ [[pv Hv] [_ [[pi Hi] [[pr Hr] [Hci Hcr]]]]]]]] [Himg [Hrep Hown]].
  assert (Hue : forall uid, user_exists s' uid = user_exists s uid)
    by (intros uid; unfold user_exists; now rewrite Hu).
  rewrite Forall_forall in Himg, Hrep, Hown.
  split; [|split]; apply Forall_forall.
  - intros x Hx.
    assert (Hx' : In x (field_images s)) by (rewrite Hi in Hx; now apply filter_In in Hx).
    destruct (Himg x Hx') as [Hex Hus]. rewrite Hue. split; [|assumption].
    unfold venue_exists in *. apply existsb_exists in Hex as [f [Hf Hid]].
    apply existsb_exists. exists f. split; [|assumption].
    apply (Hci x f Hx Hf). now apply Z.eqb_eq.
  - intros x Hx.
    assert (Hx' : In x (venue_reports s)) by (rewrite Hr in Hx; now apply filter_In in Hx).
    destruct (Hrep x Hx') as [Hex Hus]. rewrite Hue. split; [|assumption].
    unfold venue_exists in *. apply existsb_exists in Hex as [f [Hf Hid]].
    apply existsb_exists. exists f. split; [|assumption].
    apply (Hcr x f Hx Hf). now apply Z.eqb_eq.
  - intros f Hf. rewrite Hv in Hf. apply filter_In in Hf as [Hf _].
    specialize (Hown f Hf). destruct (Venue.added_by_user_id f); [|exact I].
    now rewrite Hue.
Qed.

(** *** A property kept by every kind of change is kept by every request *)

Section KeptByRequests.
Variable Inv : db -> Prop.
Hypothesis kept_pruned : forall s s', pruned s s' -> Inv s -> Inv s'.
Hypothesis kept_reflagged :
  forall s l', reflagged (field_images s) l' -> Inv s -> Inv (with_field_images l' s).
Hypothesis kept_new_image :
  forall s fi,
    Image.id fi = field_images_id_seq s ->
    venue_exists s (Image.field_id fi) = true ->
    user_exists s (Image.uploaded_by fi) = true ->
    Inv s -> Inv (with_new_image fi s).
Hypothesis kept_new_report :
  forall s row,
    Report.id row = venue_reports_id_seq s ->
    venue_exists s (Report.venue_id row) = true ->
    user_exists s (Report.reported_by_user_id row) = true ->
    has_reported s (Report.reported_by_user_id row) (Report.venue_id row) = false ->
    Inv s -> Inv (with_new_report row s).
Hypothesis kept_bump_images : forall s, Inv s -> Inv (bump_field_images_seq s).
Hypothesis kept_bump_reports : forall s, Inv s -> Inv (bump_venue_reports_seq s).

Lemma handle_keeps (r : request) (s : db) : Inv s -> Inv (handle r s).
Proof.
  intros H. destruct r as [[user id up now|user id imageId|user id imageId]
                          |user id|send user id b now localeDate|]; cbn [handle serve].
  - destruct (upload_image_cases user id up now s) as [E|[E|[fi [E [Hi [Hf [Hu [Hv Hus]]]]]]]];
      rewrite E; auto.
    apply kept_new_image; congruence.
  - destruct (delete_image_reflags user id imageId s) as [l' [E Hl]].
    rewrite E. now apply kept_reflagged.
  - destruct (set_primary_reflags user id imageId s) as [l' [E Hl]].
    rewrite E. now apply kept_reflagged.
  - destruct (delete_venue_prunes user id s) as [s1 [H1 H2]].
    apply (kept_pruned s1); [assumption|]. now apply (kept_pruned s).
  - destruct (file_report_cases send user id b now localeDate s)
      as [E|[E|[row [E [Hrow [Hv [Hu Hr]]]]]]]; rewrite E; auto.
    apply kept_new_report; subst row; auto.
  - apply (kept_pruned s); [apply delete_all_fields_prunes | assumption].
Qed.

Lemma handle_all_keeps (rs : list request) (s : db) : Inv s -> Inv (handle_all rs s).
Proof.
  revert s. induction rs as [|r rs IH]; intros s H; [exact H|].
  apply IH. now apply handle_keeps.
Qed.
End KeptByRequests.

Lemma references_reflagged (s : db) (l' : list Image.t) :
  reflagged (field_images s) l' -> references_hold s ->
  references_hold (with_field_images l' s).
Proof.
  intros Hl [Himg [Hrep Hown]]. split; [|split; assumption].
  cbn [field_images with_field_images].
  apply (reflagged_Forall _ (field_images s) l'); [|assumption|exact Himg].
  intros x b Hx. exact Hx.
Qed.

Lemma references_new_image (s : db) (fi : Image.t) :
  venue_exists s (Image.field_id fi) = true ->
  user_exists s (Image.uploaded_by fi) = true ->
  references_hold s -> references_hold (with_new_image fi s).
Proof.
  intros Hv Hu [Himg [Hrep Hown]]. split; [|split; assumption].
  cbn [field_images with_new_image]. apply Forall_app. split; [exact Himg|].
  constructor; [|constructor]. split; assumption.
Qed.

Lemma references_new_report (s : db) (row : Report.t) :
  venue_exists s (Report.venue_id row) = true ->
  user_exists s (Report.reported_by_user_id row) = true ->
  references_hold s -> references_hold (with_new_report row s).
Proof.
  intros Hv Hu [Himg [Hrep Hown]]. split; [assumption|split; [|assumption]].
  cbn [venue_reports with_new_report]. apply Forall_app. split; [exact Hrep|].
  constructor; [|constructor]. split; assumption.
Qed.

(** *** The primary keys *)

Lemma keys_pruned (s s' : db) : pruned s s' -> keys_hold s -> keys_hold s'.
Proof.
  intros [_ [Hsi [Hsr [[pv Hv] [_ [[pi Hi] [[pr Hr] _]]]]]]] [[Hnd Hlt] [Hrnd [Hrlt Hvnd]]].
  unfold keys_hold, images_keyed. rewrite Hsi, Hsr, Hv, Hi, Hr.
  repeat split.
  - now apply NoDup_map_filter.
  - now apply Forall_filter.
  - now apply NoDup_map_filter.
  - now apply Forall_filter.
  - now apply NoDup_map_filter.
Qed.

Lemma keys_reflagged (s : db) (l' : list Image.t) :
  reflagged (field_images s) l' -> keys_hold s -> keys_hold (with_field_images l' s).
Proof.
  intros Hl [[Hnd Hlt] Hrest]. split; [|exact Hrest]. split.
  - cbn [field_images with_field_images].
    destruct (reflagged_ids _ _ Hl) as [keep ->]. now apply NoDup_map_filter.
  - cbn [field_images with_field_images field_images_id_seq].
    apply (reflagged_Forall _ (field_images s) l'); [|assumption|exact Hlt].
    intros x b Hx. exact Hx.
Qed.

Lemma NoDup_map_snoc {A : Type} (key : A -> Z) (bound : Z) (l : list A) (x : A) :
  NoDup (map key l) -> Forall (fun y => key y < bound) l -> key x = bound ->
  NoDup (map key (l ++ [x])%list)
  /\ Forall (fun y => key y < bound + 1) (l ++ [x])%list.
Proof.
  intros Hnd Hlt Hx. split.
  - rewrite map_app. simpl. apply NoDup_app.
    + exact Hnd.
    + repeat constructor. intros [].
    + intros k Hk [<-|[]]. apply in_map_iff in Hk as [y [E Hy]].
      rewrite Forall_forall in Hlt. specialize (Hlt y Hy). lia.
  - apply Forall_app. split.
    + eapply Forall_impl; [|exact Hlt]. simpl. intros; lia.
    + repeat constructor. lia.
Qed.

Lemma keys_new_image (s : db) (fi : Image.t) :
  Image.id fi = field_images_id_seq s -> keys_hold s -> keys_hold (with_new_image fi s).
Proof.
  intros Hi [[Hnd Hlt] Hrest]. split; [|exact Hrest].
  unfold images_keyed. cbn [field_images with_new_image field_images_id_seq].
  now apply NoDup_map_snoc.
Qed.

Lemma keys_new_report (s : db) (row : Report.t) :
  Report.id row = venue_reports_id_seq s -> keys_hold s -> keys_hold (with_new_report row s).
Proof.
  intros Hi [Himg [Hrnd [Hrlt Hvnd]]]. split; [exact Himg|].
  cbn [venue_reports with_new_report venue_reports_id_seq sports_venues].
  destruct (NoDup_map_snoc Report.id _ _ row Hrnd Hrlt Hi) as [H1 H2].
  repeat split; assumption.
Qed.

Lemma keys_bump_images (s : db) : keys_hold s -> keys_hold (bump_field_images_seq s).
Proof.
  intros [Himg Hrest]. split; [now apply images_keyed_bump | exact Hrest].
Qed.

Lemma keys_bump_reports (s : db) : keys_hold s -> keys_hold (bump_venue_reports_seq s).
Proof.
  intros [Himg [Hrnd [Hrlt Hvnd]]]. split; [exact Himg|].
  cbn [venue_reports bump_venue_reports_seq venue_reports_id_seq sports_venues].
  repeat split; try assumption.
  eapply Forall_impl; [|exact Hrlt]. simpl. intros; lia.
Qed.

(** *** One report for each user and venue *)

Lemma NoDup_map_filter_any {A B : Type} (key : A -> B) (p : A -> bool) (l : list A) :
  NoDup (map key l) -> NoDup (map key (filter p l)).
Proof.
  induction l as [|a l IH]; intros Hnd; [constructor|].
  simpl in Hnd. apply NoDup_cons_iff in Hnd as [Hnotin Hnd].
  simpl. destruct (p a); [|auto].
  simpl. constructor; [|auto].
  intros Hin. apply Hnotin. apply in_map_iff in Hin as [x [Hx Hin]].
  apply filter_In in Hin as [Hin _]. rewrite <- Hx. now apply in_map.
Qed.

Lemma one_report_pruned (s s' : db) : pruned s s' -> one_report_each s -> one_report_each s'.
Proof.
  intros [_ [_ [_ [_ [_ [_ [[pr Hr] _]]]]]]] H. unfold one_report_each.
  rewrite Hr. now apply NoDup_map_filter_any.
Qed.

Lemma one_report_new_report (s : db) (row : Report.t) :
  has_reported s (Report.reported_by_user_id row) (Report.venue_id row) = false ->
  one_report_each s -> one_report_each (with_new_report row s).
Proof.
  intros Hr H. unfold one_report_each. cbn [venue_reports with_new_report].
  rewrite map_app. simpl. apply NoDup_app.
  - exact H.
  - repeat constructor. intros [].
  - intros k Hk [<-|[]]. apply in_map_iff in Hk as [r [E Hin]].
    injection E as Ev Eu. unfold has_reported in Hr.
    assert (Hex : existsb (fun r0 => (Report.venue_id r0 =? Report.venue_id row)
                                     && (Report.reported_by_user_id r0
                                         =? Report.reported_by_user_id row))
                          (venue_reports s) = true).
    { apply existsb_exists. exists r. split; [assumption|].
      rewrite Ev, Eu, !Z.eqb_refl. reflexivity. }
    congruence.
Qed.

Example sample_requests_before_the_last :
  let s := handle_all (removelast sample_requests) busy_db in
  map Venue.id (sports_venues s) = [1; 2; 3]
  /\ field_images s = []
  /\ map (fun r => (Report.id r, Report.venue_id r, Report.reported_by_user_id r))
         (venue_reports s) = [(2, 1, 2); (3, 2, 1)].
Proof. repeat split; reflexivity. Qed.

Lemma busy_db_references : references_hold busy_db.
Proof.
  unfold references_hold. cbn [busy_db field_images venue_reports sports_venues].
  split; [|split].
  - repeat constructor.
  - repeat constructor.
  - cbn [seed_db sports_venues app]. repeat constructor.
Qed.

Lemma busy_db_keys : keys_hold busy_db.
Proof.
  unfold keys_hold, images_keyed. cbn.
  repeat split; repeat constructor; cbn; try lia; intuition discriminate.
Qed.

Lemma busy_db_one_report_each : one_report_each busy_db.
Proof. unfold one_report_each. cbn. repeat constructor. intros []. Qed.

(** X1: whatever uploads, image deletes, set-primary requests, venue
    deletes, report filings and delete-all-fields requests the router
    serves, in whatever order, every image still refers to a venue and a
    user of the database, every report to a venue and a user, and every
    owned venue to a user. *)
Theorem requests_keep_references (rs : list request) (s : db) :
  references_hold s -> references_hold (handle_all rs s).
Proof.
  apply handle_all_keeps.
  - exact references_pruned.
  - exact references_reflagged.
  - intros s0 fi _. apply references_new_image.
  - intros s0 row _ Hv Hu _. now apply references_new_report.
  - intros s0 H. exact H.
  - intros s0 H. exact H.
Qed.

Lemma requests_keep_references_witness :
  references_hold (handle_all sample_requests busy_db).
Proof.
  apply (requests_keep_references sample_requests busy_db).
  exact busy_db_references.
Defined.

(** X2: the ids of images, of reports and of venues stay unique, and the
    ids of images and reports stay below their sequences, through every
    sequence of uploads, image deletes, set-primary requests, venue
    deletes, report filings and delete-all-fields requests.  (The
    handlers that create and update a venue are not among them.) *)
Theorem requests_keep_keys (rs : list request) (s : db) :
  keys_hold s -> keys_hold (handle_all rs s).
Proof.
  apply handle_all_keeps.
  - exact keys_pruned.
  - exact keys_reflagged.
  - intros s0 fi Hi _ _. now apply keys_new_image.
  - intros s0 row Hi _ _ _. now apply keys_new_report.
  - exact keys_bump_images.
  - exact keys_bump_reports.
Qed.

Lemma requests_keep_keys_witness : keys_hold (handle_all sample_requests busy_db).
Proof.
  apply (requests_keep_keys sample_requests busy_db). exact busy_db_keys.
Defined.

(** X3: no sequence of uploads, image deletes, set-primary requests,
    venue deletes, report filings and delete-all-fields requests leaves
    two reports by one user against one venue, when there were none. *)
Theorem requests_keep_one_report_each (rs : list request) (s : db) :
  one_report_each s -> one_report_each (handle_all rs s).
Proof.
  apply handle_all_keeps.
  - exact one_report_pruned.
  - intros s0 l' _ H. exact H.
  - intros s0 fi _ _ _ H. exact H.
  - intros s0 row _ _ _ Hr. now apply one_report_new_report.
  - intros s0 H. exact H.
  - intros s0 H. exact H.
Qed.

Lemma requests_keep_one_report_each_witness :
  one_report_each (handle_all sample_requests busy_db).
Proof.
  apply (requests_keep_one_report_each sample_requests busy_db).
  exact busy_db_one_report_each.
Defined.

(** X4: none of these six kinds of request adds, changes or removes a
    user. *)
Theorem requests_leave_users (rs : list request) (s : db) :
  users (handle_all rs s) = users s.
Proof.
  apply (handle_all_keeps (fun s' => users s' = users s)); try reflexivity.
  - intros s0 s' [Hu _] H. congruence.
  - intros s0 l' _ H. exact H.
  - intros s0 fi _ _ _ H. exact H.
  - intros s0 row _ _ _ _ H. exact H.
  - intros s0 H. exact H.
  - intros s0 H. exact H.
Qed.

(** ** Image requests, one at a time *)

Lemma filter_map_comm {A : Type} (P : A -> bool) (g : A -> A) (l : list A) :
  filter P (map g l) = map g (filter (fun x => P (g x)) l).
Proof.
  induction l as [|a l IH]; [reflexivity|].
  simpl. destruct (P (g a)); simpl; now rewrite IH.
Qed.

(** X5: when the image belongs to the venue of the path, the two ids
    being INTEGER values, SetPrimary answers 200 and leaves that image
    as the one primary image of the venue, whatever the flags were before;
    the images of every other venue are as they were and no row is added
    or removed. *)
Theorem set_primary_sets_target (user : auth_user) (id imageId : Z) (s : db)
  (r0 : Image.t) :
  NoDup (map Image.id (field_images s)) ->
  In r0 (field_images s) -> Image.id r0 = imageId -> Image.field_id r0 = id ->
  int4 imageId = true -> int4 id = true ->
  fst (set_primary user id imageId s)
  = mkResponse 200 (Message "Primary image updated successfully")
  /\ primary_images id (snd (set_primary user id imageId s))
     = [Image.set_is_primary true r0]
  /\ (forall v, v <> id ->
        venue_images v (snd (set_primary user id imageId s)) = venue_images v s)
  /\ map Image.id (field_images (snd (set_primary user id imageId s)))
     = map Image.id (field_images s).
Proof.
  intros Hnd Hin Hi Hv Hii Hid. unfold set_primary. rewrite Hii, Hid. cbn [andb negb].
  destruct (select_where _ (field_images s)) as [|x rest] eqn:E.
  { exfalso.
    assert (H : In r0 (select_where
                         (fun fi => (Image.id fi =? imageId) && (Image.field_id fi =? id))
                         (field_images s))).
    { apply filter_In. split; [assumption|]. subst. now rewrite !Z.eqb_refl. }
    rewrite E in H. contradiction. }
  cbn [fst snd]. split; [reflexivity|].
  unfold primary_images, venue_images. cbn [field_images with_field_images].
  rewrite set_primary_updates. split; [|split].
  - rewrite filter_filter, filter_map_comm.
    rewrite (filter_ext_in _ (fun x => Image.id x =? Image.id r0)).
    + rewrite (filter_key_present Image.id r0 _ Hnd Hin). cbn [map].
      unfold clear_then_set. rewrite Hv, Z.eqb_refl. cbn. rewrite Hi, Z.eqb_refl.
      reflexivity.
    + intros y Hy. rewrite clear_then_set_field, clear_then_set_primary, Hi.
      destruct (Z.eqb_spec (Image.id y) imageId) as [Ey|Ey].
      * assert (y = r0) by (apply (key_injective Image.id y r0 _ Hnd Hy Hin); congruence).
        subst y. rewrite Hv, Z.eqb_refl. reflexivity.
      * destruct (Image.field_id y =? id); reflexivity.
  - intros v Hne. apply filter_map_fixed.
    + intros y _. now rewrite clear_then_set_field.
    + intros y Hy Hf. apply Z.eqb_eq in Hf. unfold clear_then_set.
      destruct (Z.eqb_spec (Image.field_id y) id) as [Ef|Ef]; [congruence|].
      destruct (Z.eqb_spec (Image.id y) imageId) as [Ey|Ey]; [|reflexivity].
      exfalso. apply Ef.
      assert (y = r0) by (apply (key_injective Image.id y r0 _ Hnd Hy Hin); congruence).
      now subst y.
  - rewrite map_map. apply map_ext. intros y. apply clear_then_set_id.
Qed.

Lemma set_primary_sets_target_witness :
  fst (set_primary stranger 1 2 two_images)
  = mkResponse 200 (Message "Primary image updated successfully")
  /\ primary_images 1 (snd (set_primary stranger 1 2 two_images))
     = [Image.set_is_primary true second_image]
  /\ (forall v, v <> 1 ->
        venue_images v (snd (set_primary stranger 1 2 two_images))
        = venue_images v two_images)
  /\ map Image.id (field_images (snd (set_primary stranger 1 2 two_images)))
     = map Image.id (field_images two_images).
Proof.
  apply (set_primary_sets_target stranger 1 2 two_images second_image).
  - exact two_images_keys.
  - simpl. auto.
  - reflexivity.
  - reflexivity.
  - reflexivity.
  - reflexivity.
Defined.

(** X6: SetPrimary is answered 200 exactly when the two ids of the path
    are INTEGER values and some image has that id and that venue; in
    every other case the database is the one before, and the answer is
    404 -- an unknown image id, or an image of another venue -- when both
    ids are INTEGER values and 500 when one of them is not. *)
Theorem set_primary_found_iff (user : auth_user) (id imageId : Z) (s : db) :
  (status (fst (set_primary user id imageId s)) = 200
   <-> int4 imageId = true /\ int4 id = true
       /\ exists fi, In fi (field_images s) /\ Image.id fi = imageId
                     /\ Image.field_id fi = id)
  /\ (status (fst (set_primary user id imageId s)) <> 200 ->
      set_primary user id imageId s
      = (if int4 imageId && int4 id then mkResponse 404 (Message "Image not found")
         else server_error, s)).
Proof.
  unfold set_primary.
  destruct (int4 imageId) eqn:Hii; cbn [andb negb];
    [|split; [split; [discriminate | intros [H _]; discriminate H] | reflexivity]].
  destruct (int4 id) eqn:Hid; cbn [andb negb];
    [|split; [split; [discriminate | intros [_ [H _]]; discriminate H] | reflexivity]].
  destruct (select_where _ (field_images s)) as [|x rest] eqn:E; cbn [fst snd status].
  - split; [split|]; [discriminate| |reflexivity].
    intros [_ [_ [fi [Hin [Hi Hv]]]]].
    assert (H : In fi (select_where
                         (fun fi => (Image.id fi =? imageId) && (Image.field_id fi =? id))
                         (field_images s))).
    { apply filter_In. split; [assumption|]. subst. now rewrite !Z.eqb_refl. }
    rewrite E in H. contradiction.
  - split; [split|]; [|reflexivity|congruence].
    intros _. apply select_head in E as [Hin Hx].
    apply andb_true_iff in Hx as [Hi Hv]. apply Z.eqb_eq in Hi, Hv.
    split; [reflexivity|]. split; [reflexivity|]. now exists x.
Qed.

(** X7: an image can be deleted by nobody but its uploader: any other
    caller, an admin too, is answered 403 and the database is the one
    before, whatever the venue id of the path (the image id being an
    INTEGER value). *)
Theorem delete_image_only_by_uploader (user : auth_user) (id imageId : Z) (s : db)
  (r0 : Image.t) :
  NoDup (map Image.id (field_images s)) ->
  In r0 (field_images s) -> Image.id r0 = imageId ->
  Image.uploaded_by r0 <> userId user ->
  int4 imageId = true ->
  delete_image user id imageId s
  = (mkResponse 403 (Message "You can only delete images you uploaded"), s).
Proof.
  intros Hnd Hin Hi Hu Hii. unfold delete_image. rewrite Hii. cbn [negb].
  assert (Hsel : select_where (fun fi => Image.id fi =? imageId) (field_images s) = [r0]).
  { rewrite <- Hi. apply (filter_key_present Image.id r0 _ Hnd Hin). }
  rewrite Hsel. apply Z.eqb_neq in Hu. now rewrite Hu.
Qed.

Lemma delete_image_only_by_uploader_witness :
  isAdmin busy_db (userId leosant) = true
  /\ delete_image leosant 4 1 busy_db
     = (mkResponse 403 (Message "You can only delete images you uploaded"), busy_db).
Proof.
  split; [reflexivity|].
  apply (delete_image_only_by_uploader leosant 4 1 busy_db
           (Image.mk 1 4 "/uploads/field-images/field-9.png" 2 50 true)).
  - simpl. repeat constructor. intros [].
  - simpl. auto.
  - reflexivity.
  - simpl. discriminate.
  - reflexivity.
Defined.

(** X8: an upload answered 200 appends one row to [field_images] -- id
    taken from the sequence, the venue of the path, the caller as
    uploader, primary exactly when the venue had no image -- and changes
    no other row or table; an upload answered anything else changes no
    table at all. *)
Theorem upload_image_effect (user : auth_user) (id : Z) (up : upload_outcome) (now : Z)
  (s : db) :
  let s' := snd (upload_image user id up now s) in
  (status (fst (upload_image user id up now s)) = 200 ->
   exists fi,
     s' = with_new_image fi s
     /\ Image.id fi = field_images_id_seq s
     /\ Image.field_id fi = id
     /\ Image.uploaded_by fi = userId user
     /\ Image.uploaded_at fi = now
     /\ (Image.is_primary fi = true <-> venue_images id s = [])
     /\ json (fst (upload_image user id up now s))
        = ImageUploaded "Image uploaded successfully" (Image.image_url fi))
  /\ (status (fst (upload_image user id up now s)) <> 200 ->
      users s' = users s /\ sports_venues s' = sports_venues s
      /\ football_fields s' = football_fields s /\ field_images s' = field_images s
      /\ venue_reports s' = venue_reports s).
Proof.
  unfold upload_image.
  destruct up as [|msg|originalname mimetype filename]; cbn [fst snd status];
    try (split; [discriminate | intros _; repeat split]).
  destruct (hasValidExtension originalname && hasValidMimeType mimetype);
    cbn [fst snd status]; [|split; [discriminate | intros _; repeat split]].
  destruct (int4 id); cbn [negb fst snd status];
    [|split; [discriminate | intros _; repeat split]].
  destruct (venue_exists s id); cbn [fst snd status];
    [|split; [discriminate | intros _; repeat split]].
  unfold insert_field_image.
  destruct (int4 (field_images_id_seq s)); cbn [negb fst snd status];
    [|split; [discriminate | intros _; repeat split]].
  destruct (user_exists s (userId user)); cbn [fst snd status].
  - split; [|congruence]. intros _. eexists. split; [reflexivity|].
    cbn. repeat split.
    + unfold venue_images, select_where. intros H. apply Nat.eqb_eq in H.
      now apply length_zero_iff_nil.
    + unfold venue_images, select_where. intros ->. reflexivity.
  - split; [discriminate | intros _; repeat split].
Qed.

(** ** Venue delete, and what the read handlers show afterwards *)

Lemma filter_implied {A : Type} (p q : A -> bool) (l : list A) :
  (forall x, In x l -> p x = true -> q x = true) ->
  filter q (filter p l) = filter p l.
Proof.
  intros H. apply forallb_filter_id. apply forallb_forall.
  intros x Hx. apply filter_In in Hx as [Hx Hp]. auto.
Qed.

(** The cascade of a delete whose rows all have the id [id]. *)
Lemma cascade_one_id (id : Z) (pv : Venue.t -> bool) (pl : Legacy.t -> bool) (s : db)
  (f : Venue.t) (fs : list Venue.t) :
  select_where pv (sports_venues s) = f :: fs ->
  (forall x, pv x = true -> Venue.id x = id) ->
  delete_from tbl_sports_venues pv pl s
  = (S (List.length fs),
     mkDb (users s) (delete_where pv (sports_venues s)) (football_fields s)
          (delete_where (fun fi => Image.field_id fi =? id) (field_images s))
          (delete_where (fun r => Report.venue_id r =? id) (venue_reports s))
          (field_images_id_seq s) (venue_reports_id_seq s)).
Proof.
  intros Hsel Hid. cbn [delete_from]. rewrite Hsel. cbn [List.length].
  assert (Href : forall vid,
            existsb (fun x => Venue.id x =? vid) (f :: fs) = (vid =? id)).
  { intros vid. destruct (Z.eqb_spec vid id) as [->|Hne].
    - apply existsb_exists. exists f. split; [now left|]. apply Z.eqb_eq.
      apply Hid. apply (select_head pv (sports_venues s) f fs Hsel).
    - destruct (existsb _ (f :: fs)) eqn:E; [|reflexivity].
      apply existsb_exists in E as [x [Hx Hv]]. apply Z.eqb_eq in Hv.
      exfalso. apply Hne. rewrite <- Hv. apply Hid.
      assert (Hin : In x (select_where pv (sports_venues s))) by (now rewrite Hsel).
      now apply filter_In in Hin. }
  f_equal. f_equal.
  - unfold delete_where. apply filter_ext. intros fi. rewrite Href.
    now rewrite Z.eqb_sym.
  - unfold delete_where. apply filter_ext. intros r. rewrite Href.
    now rewrite Z.eqb_sym.
Qed.

Lemma delete_where_twice {A : Type} (p : A -> bool) (l : list A) :
  delete_where p (delete_where p l) = delete_where p l.
Proof. unfold delete_where. apply filter_implied. auto. Qed.

Lemma delete_venue_admin_result (user : auth_user) (id : Z) (s : db) :
  int4 id = true ->
  isAdmin s (userId user) = true ->
  venue_exists s id = true ->
  delete_venue user id s
  = (mkResponse 200 (Message "Impianto eliminato con successo (Admin)"),
     without_venue id s).
Proof.
  intros Hid Hadm Hex. unfold delete_venue. rewrite Hadm, Hid. cbn [negb].
  apply existsb_true_filter in Hex as [f [fs Hf]].
  unfold select_where at 1. rewrite Hf.
  unfold venueCheck.
  cbn [with_field_images users sports_venues football_fields field_images venue_reports
       field_images_id_seq venue_reports_id_seq].
  unfold select_where at 1. rewrite Hf. cbn [map app].
  rewrite (cascade_one_id id _ _ _ f fs); [| exact Hf | intros x Hx; now apply Z.eqb_eq].
  cbn [fst snd Nat.eqb users sports_venues football_fields field_images venue_reports
       field_images_id_seq venue_reports_id_seq].
  rewrite !delete_where_twice. reflexivity.
Qed.

(** X9: an admin's delete of an existing venue, the path id being an
    INTEGER value, is answered 200 and removes the venue, every image of
    it and every report against it, and nothing else. *)
Theorem delete_venue_by_admin (user : auth_user) (id : Z) (s : db) :
  int4 id = true ->
  isAdmin s (userId user) = true ->
  venue_exists s id = true ->
  delete_venue user id s
  = (mkResponse 200 (Message "Impianto eliminato con successo (Admin)"),
     without_venue id s).
Proof. exact (delete_venue_admin_result user id s). Qed.

Lemma delete_venue_by_admin_witness :
  delete_venue leosant 4 busy_db
  = (mkResponse 200 (Message "Impianto eliminato con successo (Admin)"),
     without_venue 4 busy_db).
Proof.
  apply (delete_venue_by_admin leosant 4 busy_db); reflexivity.
Defined.

Lemma owned_rows_of_id (id uid : Z) (s : db) :
  NoDup (map Venue.id (sports_venues s)) ->
  owns_venue s uid id = true ->
  delete_where (fun f => (Venue.id f =? id) && owner_is (Venue.added_by_user_id f) uid)
               (sports_venues s)
  = delete_where (fun f => Venue.id f =? id) (sports_venues s).
Proof.
  intros Hnd Hown. unfold owns_venue in Hown.
  apply existsb_exists in Hown as [f [Hf Hp]].
  apply andb_true_iff in Hp as [Hid Ho]. apply Z.eqb_eq in Hid.
  unfold delete_where. apply filter_ext_in. intros x Hx.
  destruct (Z.eqb_spec (Venue.id x) id) as [E|E]; [|reflexivity].
  assert (x = f) by (apply (key_injective Venue.id x f _ Hnd Hx Hf); congruence).
  subst x. now rewrite Ho.
Qed.

Lemma delete_venue_owner_result (user : auth_user) (id : Z) (s : db) :
  int4 id = true ->
  NoDup (map Venue.id (sports_venues s)) ->
  isAdmin s (userId user) = false ->
  owns_venue s (userId user) id = true ->
  delete_venue user id s
  = (mkResponse 200 (Message "Field deleted successfully"), without_venue id s).
Proof.
  intros Hid Hnd Hadm Hown. unfold delete_venue. rewrite Hadm, Hid. cbn [negb].
  pose proof Hown as Hown'. unfold owns_venue in Hown'.
  apply existsb_true_filter in Hown' as [f [fs Hf]].
  assert (Hex : exists g gs,
            select_where (fun f => Venue.id f =? id) (sports_venues s) = g :: gs).
  { apply existsb_true_filter. apply existsb_exists.
    destruct (select_head _ _ _ _ Hf) as [Hin Hp].
    apply andb_true_iff in Hp as [Hfid _]. now exists f. }
  destruct Hex as [g [gs Hg]]. rewrite Hg.
  unfold venueCheck. unfold select_where at 1. rewrite Hf. cbn [map app].
  rewrite (cascade_one_id id _ _ _ f fs);
    [| exact Hf | intros x Hx; apply andb_true_iff in Hx as [Hx _]; now apply Z.eqb_eq].
  cbn [fst snd Nat.eqb]. unfold without_venue.
  now rewrite (owned_rows_of_id id (userId user) s Hnd Hown).
Qed.

(** X10: the owner's delete of a venue, when the owner is no admin and
    the path id is an INTEGER value, is answered 200 and leaves the
    database an admin's delete of that venue leaves. *)
Theorem delete_venue_by_owner (user : auth_user) (id : Z) (s : db) :
  int4 id = true ->
  NoDup (map Venue.id (sports_venues s)) ->
  isAdmin s (userId user) = false ->
  owns_venue s (userId user) id = true ->
  delete_venue user id s
  = (mkResponse 200 (Message "Field deleted successfully"), without_venue id s).
Proof. exact (delete_venue_owner_result user id s). Qed.

Lemma delete_venue_by_owner_witness :
  delete_venue mario 4 busy_db
  = (mkResponse 200 (Message "Field deleted successfully"), without_venue 4 busy_db).
Proof.
  apply (delete_venue_by_owner mario 4 busy_db); try reflexivity.
  cbn. repeat constructor; cbn; intuition discriminate.
Defined.

Lemma select_deleted {A : Type} (p : A -> bool) (l : list A) :
  select_where p (delete_where p l) = [].
Proof.
  unfold select_where, delete_where.
  destruct (filter p (filter _ l)) as [|x rest] eqn:E; [reflexivity|].
  assert (H : In x (filter p (filter (fun r => negb (p r)) l))) by (rewrite E; now left).
  apply filter_In in H as [H Hp]. apply filter_In in H as [_ Hn].
  rewrite Hp in Hn. discriminate.
Qed.

Lemma returned_ids_listed (q : list_query) (s : db) (id : Z) :
  In id (returned_ids (list_venues q s)) ->
  exists f, In f (sports_venues s) /\ Venue.id f = id /\ where_clause q f = true.
Proof.
  unfold returned_ids, list_venues. cbn [json]. rewrite map_map. cbn [vr_venue select_venue_row].
  intros H. apply in_map_iff in H as [f [E Hf]].
  apply order_by_In in Hf. apply filter_In in Hf as [Hf Hw]. now exists f.
Qed.

(** X11: once an admin or the owner has deleted a venue, the path id
    being an INTEGER value, the venue is gone for every reader and
    writer: GET /:id and the reports of the venue are answered 404, no
    listing returns it, and a second delete, by anyone, is answered 404
    and changes nothing. *)
Theorem deleted_venue_is_gone (user : auth_user) (id : Z) (s : db) :
  int4 id = true ->
  NoDup (map Venue.id (sports_venues s)) ->
  venue_exists s id = true ->
  isAdmin s (userId user) = true \/ owns_venue s (userId user) id = true ->
  status (fst (delete_venue user id s)) = 200
  /\ get_venue id (snd (delete_venue user id s))
     = mkReply 404 (JsonMessage "Venue not found")
  /\ (forall q, ~ In id (returned_ids (list_venues q (snd (delete_venue user id s)))))
  /\ (forall viewer,
        get_venue_reports viewer id (snd (delete_venue user id s))
        = mkReply 404 (JsonMessage "Venue not found"))
  /\ (forall user',
        delete_venue user' id (snd (delete_venue user id s))
        = (mkResponse 404 (Message "Venue not found"), snd (delete_venue user id s))).
Proof.
  intros Hid Hnd Hex Hwho.
  assert (Hres : status (fst (delete_venue user id s)) = 200
                 /\ snd (delete_venue user id s) = without_venue id s).
  { destruct (isAdmin s (userId user)) eqn:Hadm.
    - now rewrite (delete_venue_admin_result user id s Hid Hadm Hex).
    - destruct Hwho as [Hw|Hw]; [discriminate|].
      now rewrite (delete_venue_owner_result user id s Hid Hnd Hadm Hw). }
  destruct Hres as [Hst ->]. split; [exact Hst|].
  assert (Hsel : select_where (fun f => Venue.id f =? id)
                              (sports_venues (without_venue id s)) = [])
    by apply select_deleted.
  split; [|split; [|split]].
  - unfold get_venue. rewrite Hid. cbn [negb]. now rewrite Hsel.
  - intros q H. apply returned_ids_listed in H as [f [Hf [Hfid _]]].
    assert (Hin : In f (select_where (fun f => Venue.id f =? id)
                                     (sports_venues (without_venue id s)))).
    { apply filter_In. split; [assumption | now apply Z.eqb_eq]. }
    now rewrite Hsel in Hin.
  - intros viewer. unfold get_venue_reports. rewrite Hid. cbn [negb]. now rewrite Hsel.
  - intros user'. unfold delete_venue. rewrite Hid. cbn [negb]. now rewrite Hsel.
Qed.

Lemma deleted_venue_is_gone_witness :
  status (fst (delete_venue mario 4 busy_db)) = 200
  /\ get_venue 4 (snd (delete_venue mario 4 busy_db))
     = mkReply 404 (JsonMessage "Venue not found")
  /\ (forall q, ~ In 4 (returned_ids (list_venues q (snd (delete_venue mario 4 busy_db)))))
  /\ (forall viewer,
        get_venue_reports viewer 4 (snd (delete_venue mario 4 busy_db))
        = mkReply 404 (JsonMessage "Venue not found"))
  /\ (forall user',
        delete_venue user' 4 (snd (delete_venue mario 4 busy_db))
        = (mkResponse 404 (Message "Venue not found"),
           snd (delete_venue mario 4 busy_db))).
Proof.
  apply (deleted_venue_is_gone mario 4 busy_db).
  - reflexivity.
  - cbn. repeat constructor; cbn; intuition discriminate.
  - reflexivity.
  - right. reflexivity.
Defined.

(** ** Reading venues *)

(** X12: GET /:id and the listing agree.  With unique venue ids that
    are INTEGER values, every row any listing returns is the row GET /:id
    returns for that venue's id, and the row GET /:id returns is a row of
    the unfiltered listing; GET /:id is answered 404 exactly for the
    INTEGER values no venue has as id, and 500 exactly for the path ids
    that are no INTEGER value. *)
Theorem get_venue_agrees_with_listing (s : db) :
  NoDup (map Venue.id (sports_venues s)) ->
  venue_ids_integer s ->
  (forall q row,
     In row (listed_rows (list_venues q s)) ->
     get_venue (Venue.id (vr_venue row)) s = mkReply 200 (Json row))
  /\ (forall id row,
        get_venue id s = mkReply 200 (Json row) ->
        Venue.id (vr_venue row) = id
        /\ In row (listed_rows (list_venues no_filters s)))
  /\ (forall id,
        get_venue id s = mkReply 404 (JsonMessage "Venue not found")
        <-> int4 id = true /\ venue_exists s id = false)
  /\ (forall id,
        get_venue id s = mkReply 500 (JsonMessage "Server error")
        <-> int4 id = false).
Proof.
  intros Hnd Hty. split; [|split; [|split]].
  - intros q row H. unfold listed_rows, list_venues in H. cbn [json] in H.
    apply in_map_iff in H as [f [<- Hf]]. apply order_by_In in Hf.
    apply filter_In in Hf as [Hf _]. unfold get_venue. cbn [vr_venue select_venue_row].
    unfold venue_ids_integer in Hty. rewrite Forall_forall in Hty.
    rewrite (Hty f Hf). cbn [negb].
    unfold select_where. now rewrite (filter_key_present Venue.id f _ Hnd Hf).
  - intros id row H. unfold get_venue in H.
    destruct (int4 id); cbn [negb] in H; [|discriminate].
    destruct (select_where _ (sports_venues s)) as [|f fs] eqn:E; [discriminate|].
    cbn [map] in H. injection H as <-.
    apply select_head in E as [Hf Hid]. apply Z.eqb_eq in Hid.
    split; [exact Hid|].
    unfold listed_rows, list_venues. cbn [json]. apply in_map. apply order_by_In.
    apply filter_In. split; [assumption | reflexivity].
  - intros id. unfold get_venue, venue_exists.
    destruct (int4 id); cbn [negb];
      [|split; [discriminate | intros [H _]; discriminate H]].
    destruct (select_where _ (sports_venues s)) as [|f fs] eqn:E.
    + split; [intros _ | reflexivity]. split; [reflexivity|].
      destruct (existsb _ (sports_venues s)) eqn:Ex; [|reflexivity].
      apply existsb_true_filter in Ex as [x [xs Ex]].
      unfold select_where in E. rewrite E in Ex. discriminate.
    + split; [discriminate|]. intros [_ H]. exfalso.
      apply select_head in E as [Hf Hid].
      assert (Ex : existsb (fun f0 => Venue.id f0 =? id) (sports_venues s) = true)
        by (apply existsb_exists; now exists f).
      congruence.
  - intros id. unfold get_venue.
    destruct (int4 id); cbn [negb]; [|split; reflexivity].
    split; [|discriminate].
    destruct (select_where _ (sports_venues s)); discriminate.
Qed.

Lemma get_venue_agrees_with_listing_witness :
  (forall q row,
     In row (listed_rows (list_venues q busy_db)) ->
     get_venue (Venue.id (vr_venue row)) busy_db = mkReply 200 (Json row))
  /\ (forall id row,
        get_venue id busy_db = mkReply 200 (Json row) ->
        Venue.id (vr_venue row) = id
        /\ In row (listed_rows (list_venues no_filters busy_db)))
  /\ (forall id,
        get_venue id busy_db = mkReply 404 (JsonMessage "Venue not found")
        <-> int4 id = true /\ venue_exists busy_db id = false)
  /\ (forall id,
        get_venue id busy_db = mkReply 500 (JsonMessage "Server error")
        <-> int4 id = false).
Proof.
  apply (get_venue_agrees_with_listing busy_db).
  - cbn. repeat constructor; cbn; intuition discriminate.
  - unfold venue_ids_integer. cbn. repeat constructor.
Defined.

Example get_campetto :
  get_venue 4 busy_db
  = mkReply 200
      (Json (mkVenueRow campetto (Some "mario")
               [mkImageJson 1 "/uploads/field-images/field-9.png" 2 50 true])).
Proof. reflexivity. Qed.

Lemma truthy_lower (f : option string) :
  truthy (option_map lower f) = option_map lower (truthy f).
Proof. destruct f as [[|c x]|]; reflexivity. Qed.

Lemma cond_ilike_lower (col f : option string) :
  cond_ilike col f
  = match option_map lower (truthy f) with
    | Some x =>
        match col with
        | Some t => like_match (like_param x) (lower t)
        | None => false
        end
    | None => true
    end.
Proof.
  unfold cond_ilike, col_ilike, ilike. destruct (truthy f) as [x|]; [|reflexivity].
  cbn [option_map]. destruct col as [t|]; [|reflexivity].
  now rewrite lower_like_param.
Qed.

(** X13: the letter case of the city, province and region filters does
    not matter: two queries whose place filters agree once folded to
    lower case, and whose other filters are equal, get the same listing. *)
Theorem list_venues_ignores_filter_case (q q' : list_query) (s : db) :
  option_map lower (q_city q) = option_map lower (q_city q') ->
  option_map lower (q_province q) = option_map lower (q_province q') ->
  option_map lower (q_region q) = option_map lower (q_region q') ->
  q_surface_type q = q_surface_type q' ->
  q_venue_type q = q_venue_type q' ->
  q_sport_type q = q_sport_type q' ->
  list_venues q s = list_venues q' s.
Proof.
  intros Hc Hp Hr Hs Hv Ht. unfold list_venues. do 4 f_equal.
  unfold select_where. apply filter_ext. intros f. unfold where_clause.
  rewrite !cond_ilike_lower, <- !truthy_lower, Hc, Hp, Hr, Hs, Hv, Ht. reflexivity.
Qed.

Lemma list_venues_ignores_filter_case_witness :
  list_venues (mkQuery (Some "MILANO") (Some "mi") None None None (Some "swimming")) seed_db
  = list_venues (mkQuery (Some "milano") (Some "MI") None None None (Some "swimming")) seed_db.
Proof.
  apply (list_venues_ignores_filter_case
           (mkQuery (Some "MILANO") (Some "mi") None None None (Some "swimming"))
           (mkQuery (Some "milano") (Some "MI") None None None (Some "swimming"))
           seed_db); reflexivity.
Defined.

(** ** Reports of a venue *)

Lemma report_created_desc_total (a b : Report.t) :
  report_created_desc a b = true \/ report_created_desc b a = true.
Proof. unfold report_created_desc. rewrite !Z.leb_le. lia. Qed.

Lemma report_created_desc_trans (a b c : Report.t) :
  report_created_desc a b = true -> report_created_desc b c = true ->
  report_created_desc a c = true.
Proof. unfold report_created_desc. rewrite !Z.leb_le. lia. Qed.

Lemma select_report_row_joined (s : db) (r : Report.t) :
  reporter_joined s (select_report_row s r).
Proof.
  unfold reporter_joined, select_report_row. cbn [rr_report rr_reporter_username]. split.
  - intros n H. apply joined_username_some in H as [u [Hu [E Hn]]].
    exists u. injection E as E. auto.
  - intros H u Hu E. apply (joined_username_none _ _ H u Hu). now rewrite E.
Qed.

(** X14: a caller who is no admin and owns no venue of that id never
    gets the reports of a venue: the answer is 500 when the path id is no
    INTEGER value, 404 when it is one and no venue has it, and 403 when a
    venue has it. *)
Theorem venue_reports_hidden (user : auth_user) (id : Z) (s : db) :
  isAdmin s (userId user) = false ->
  owns_venue s (userId user) id = false ->
  get_venue_reports user id s
  = if negb (int4 id) then mkReply 500 (JsonMessage "Server error")
    else if venue_exists s id then mkReply 403 (JsonMessage "Access denied")
    else mkReply 404 (JsonMessage "Venue not found").
Proof.
  intros Hadm Hown. unfold get_venue_reports, venue_exists. rewrite Hadm.
  destruct (negb (int4 id)); [reflexivity|].
  destruct (select_where _ (sports_venues s)) as [|f fs] eqn:E.
  - destruct (existsb _ (sports_venues s)) eqn:Ex; [|reflexivity].
    apply existsb_true_filter in Ex as [x [xs Ex]].
    unfold select_where in E. rewrite E in Ex. discriminate.
  - apply select_head in E as [Hf Hid].
    assert (Ex : existsb (fun f0 => Venue.id f0 =? id) (sports_venues s) = true)
      by (apply existsb_exists; now exists f).
    rewrite Ex.
    assert (Ho : owner_is (Venue.added_by_user_id f) (userId user) = false).
    { destruct (owner_is _ _) eqn:Eo; [|reflexivity].
      assert (owns_venue s (userId user) id = true); [|congruence].
      apply existsb_exists. exists f. split; [assumption|]. now rewrite Hid, Eo. }
    now rewrite Ho.
Qed.

Lemma venue_reports_hidden_witness :
  get_venue_reports stranger 4 busy_db
  = if negb (int4 4) then mkReply 500 (JsonMessage "Server error")
    else if venue_exists busy_db 4 then mkReply 403 (JsonMessage "Access denied")
    else mkReply 404 (JsonMessage "Venue not found").
Proof.
  apply (venue_reports_hidden stranger 4 busy_db); reflexivity.
Defined.

(** X15: the owner of a venue and every admin get, with status 200,
    exactly the reports against that venue, newest first, each with the
    user name of its reporter (the path id being an INTEGER value). *)
Theorem venue_reports_shown (user : auth_user) (id : Z) (s : db) :
  int4 id = true ->
  NoDup (map Venue.id (sports_venues s)) ->
  venue_exists s id = true ->
  isAdmin s (userId user) = true \/ owns_venue s (userId user) id = true ->
  exists rows,
    get_venue_reports user id s = mkReply 200 (Json rows)
    /\ Permutation (map rr_report rows)
                   (filter (fun r => Report.venue_id r =? id) (venue_reports s))
    /\ StronglySorted reports_newest_first rows
    /\ Forall (reporter_joined s) rows.
Proof.
  intros Hid Hnd Hex Hwho.
  eexists. split; [|split; [|split]].
  - unfold get_venue_reports. rewrite Hid. cbn [negb].
    apply existsb_true_filter in Hex as [f [fs Hf]].
    unfold select_where at 1. rewrite Hf.
    assert (Hok : negb (owner_is (Venue.added_by_user_id f) (userId user))
                  && negb (isAdmin s (userId user)) = false).
    { destruct Hwho as [->|Hown]; [apply andb_false_r|].
      apply existsb_exists in Hown as [g [Hg Hp]].
      apply andb_true_iff in Hp as [Hgid Ho]. apply Z.eqb_eq in Hgid.
      assert (Hin : In f (filter (fun f => Venue.id f =? id) (sports_venues s)))
        by (rewrite Hf; now left).
      apply filter_In in Hin as [Hin Hfid]. apply Z.eqb_eq in Hfid.
      assert (g = f) by (apply (key_injective Venue.id g f _ Hnd Hg Hin); congruence).
      subst g. now rewrite Ho. }
    rewrite Hok. reflexivity.
  - rewrite map_map. cbn [rr_report select_report_row]. rewrite map_id.
    apply order_by_perm.
  - apply StronglySorted_map with (R := fun a b => report_created_desc a b = true).
    + intros a b H. unfold reports_newest_first, report_created_desc in *.
      cbn [rr_report select_report_row]. now apply Z.leb_le in H.
    + apply order_by_sorted;
        [apply report_created_desc_total | apply report_created_desc_trans].
  - apply Forall_forall. intros r Hr. apply in_map_iff in Hr as [x [<- _]].
    apply select_report_row_joined.
Qed.

Lemma venue_reports_shown_witness :
  exists rows,
    get_venue_reports mario 4 busy_db = mkReply 200 (Json rows)
    /\ Permutation (map rr_report rows)
                   (filter (fun r => Report.venue_id r =? 4) (venue_reports busy_db))
    /\ StronglySorted reports_newest_first rows
    /\ Forall (reporter_joined busy_db) rows.
Proof.
  apply (venue_reports_shown mario 4 busy_db).
  - reflexivity.
  - cbn. repeat constructor; cbn; intuition discriminate.
  - reflexivity.
  - right. reflexivity.
Defined.

Example reports_of_campetto :
  get_venue_reports mario 4 busy_db
  = mkReply 200
      (Json [mkReportRow (Report.mk 1 4 1 "altro" None "pending" 60 60) (Some "Leosant06")]).
Proof. reflexivity. Qed.

Lemma user_exists_find (s : db) (uid : Z) :
  user_exists s uid = true ->
  exists u, user_by_id s uid = Some u /\ In u (users s) /\ User.id u = uid.
Proof.
  unfold user_exists, user_by_id. intros H.
  destruct (find _ (users s)) as [u|] eqn:E.
  - apply find_some in E as [Hin Hid]. apply Z.eqb_eq in Hid. now exists u.
  - apply existsb_exists in H as [u [Hu Hid]].
    apply (find_none _ _ E) in Hu. cbn in Hu. congruence.
Qed.

(** A filing is answered 201 exactly when it passes every check and the
    insert stores the row. *)
Lemma file_report_201 (sendFieldReportEmail : email_data -> email_result)
  (user : auth_user) (id : Z) (b : report_request) (now : Z) (localeDate : string)
  (s : db) :
  status (fr_response (file_report sendFieldReportEmail user id b now localeDate s)) = 201
  <-> validationResult b = []
      /\ int4 id = true
      /\ venue_exists s id = true
      /\ has_reported s (userId user) id = false
      /\ int4 (venue_reports_id_seq s) = true
      /\ user_exists s (userId user) = true.
Proof.
  split.
  - unfold file_report, fr_response.
    destruct (validationResult b); cbn [fst snd status]; [|discriminate].
    destruct (int4 id); cbn [negb fst snd status]; [|discriminate].
    destruct (select_where _ (sports_venues s)) as [|field rest] eqn:Ev;
      cbn [fst snd status]; [discriminate|].
    destruct (select_where _ (venue_reports s)) as [|r rs] eqn:Er;
      cbn [fst snd status]; [|discriminate].
    unfold insert_venue_report.
    destruct (int4 (venue_reports_id_seq s)); cbn [negb fst snd status]; [|discriminate].
    destruct (user_exists s (userId user)) eqn:Eu; cbn [fst snd status]; [|discriminate].
    intros _. split; [reflexivity|]. split; [reflexivity|].
    split; [|split; [|split; reflexivity]].
    + apply existsb_exists. exists field. apply (select_head _ _ _ _ Ev).
    + unfold has_reported. destruct (existsb _ (venue_reports s)) eqn:E; [|reflexivity].
      apply existsb_true_filter in E as [x [xs E]].
      unfold select_where in Er. rewrite Er in E. discriminate.
  - intros [Hval [Hid [Hv [Hr [Hseq Hu]]]]].
    destruct (file_report_accepts sendFieldReportEmail user id b now localeDate s
                Hval Hid Hv Hr Hseq Hu) as [-> _]. reflexivity.
Qed.


(** X17: a report that was accepted shows up when an admin asks for the
    reports of the venue: the new row is in the answer, with the user name
    of the caller who filed it. *)
Theorem filed_report_is_listed (sendFieldReportEmail : email_data -> email_result)
  (user viewer : auth_user) (id : Z) (b : report_request) (now : Z) (localeDate : string)
  (s : db) :
  status (fr_response (file_report sendFieldReportEmail user id b now localeDate s)) = 201 ->
  isAdmin s (userId viewer) = true ->
  exists rows row u,
    get_venue_reports viewer id
      (fr_db (file_report sendFieldReportEmail user id b now localeDate s))
    = mkReply 200 (Json rows)
    /\ In row rows
    /\ rr_report row
       = Report.mk (venue_reports_id_seq s) id (userId user) (report_type b)
                   (description b) "pending" now now
    /\ In u (users s) /\ User.id u = userId user
    /\ rr_reporter_username row = Some (User.username u).
Proof.
  intros H201 Hadm. pose proof H201 as H.
  apply file_report_201 in H as [Hval [Hid [Hv [Hr [Hseq Hu]]]]].
  assert (Hdb : fr_db (file_report sendFieldReportEmail user id b now localeDate s)
                = with_new_report
                    (Report.mk (venue_reports_id_seq s) id (userId user) (report_type b)
                               (description b) "pending" now now) s).
  { unfold file_report, fr_db. rewrite Hval, Hid. cbn [negb].
    apply existsb_true_filter in Hv as [f [fs Hf]].
    unfold select_where. rewrite Hf, (existsb_false_filter _ _ Hr).
    unfold insert_venue_report. rewrite Hseq, Hu. reflexivity. }
  rewrite Hdb. set (row := Report.mk _ _ _ _ _ _ _ _).
  destruct (user_exists_find s (userId user) Hu) as [u [Hfind [Hin Huid]]].
  apply existsb_true_filter in Hv as [f [fs Hf]].
  eexists. exists (select_report_row (with_new_report row s) row), u.
  split; [|split; [|split; [|split; [|split]]]].
  - unfold get_venue_reports. rewrite Hid. cbn [negb sports_venues with_new_report].
    unfold select_where at 1. rewrite Hf.
    assert (Ha : isAdmin (with_new_report row s) (userId viewer) = true) by exact Hadm.
    rewrite Ha, andb_false_r. reflexivity.
  - apply in_map. apply order_by_In. apply filter_In. split.
    + cbn [venue_reports with_new_report]. apply in_or_app. right. now left.
    + cbn. apply Z.eqb_refl.
  - reflexivity.
  - exact Hin.
  - exact Huid.
  - unfold select_report_row. cbn [rr_reporter_username Report.reported_by_user_id row].
    unfold joined_username.
    assert (Hf' : user_by_id (with_new_report row s) (userId user) = Some u) by exact Hfind.
    now rewrite Hf'.
Qed.

Lemma filed_report_is_listed_witness :
  exists rows row u,
    get_venue_reports leosant 1
      (fr_db (file_report notifier_down mario 1 (mkReportRequest "altro" None) 80
                "1/1/2025, 12:00:00" busy_db))
    = mkReply 200 (Json rows)
    /\ In row rows
    /\ rr_report row
       = Report.mk (venue_reports_id_seq busy_db) 1 (userId mario)
                   (report_type (mkReportRequest "altro" None))
                   (description (mkReportRequest "altro" None)) "pending" 80 80
    /\ In u (users busy_db) /\ User.id u = userId mario
    /\ rr_reporter_username row = Some (User.username u).
Proof.
  apply (filed_report_is_listed notifier_down mario leosant 1
           (mkReportRequest "altro" None) 80 "1/1/2025, 12:00:00" busy_db);
    reflexivity.
Defined.

(** X18: an image that was stored shows up in GET /:id of its venue: the
    answer is 200 and the images of the row contain the new image, with
    its id, path, uploader, time and flag. *)
Theorem uploaded_image_is_shown (user : auth_user) (id : Z)
  (originalname mimetype filename : string) (now : Z) (s : db) :
  status (fst (upload_image user id (FilePart originalname mimetype filename) now s)) = 200 ->
  exists row img,
    get_venue id (snd (upload_image user id (FilePart originalname mimetype filename) now s))
    = mkReply 200 (Json row)
    /\ In img (vr_images row)
    /\ ij_id img = field_images_id_seq s
    /\ ij_image_url img = ("/uploads/field-images/" ++ filename)%string
    /\ ij_uploaded_by img = userId user
    /\ ij_uploaded_at img = now
    /\ (ij_is_primary img = true <-> venue_images id s = []).
Proof.
  unfold upload_image.
  destruct (hasValidExtension originalname && hasValidMimeType mimetype);
    cbn [fst snd status]; [|discriminate].
  destruct (int4 id) eqn:Hint; cbn [negb fst snd status]; [|discriminate].
  destruct (venue_exists s id) eqn:Ev; cbn [fst snd status]; [|discriminate].
  unfold insert_field_image.
  destruct (int4 (field_images_id_seq s)); cbn [negb fst snd status]; [|discriminate].
  destruct (user_exists s (userId user));
    cbn [fst snd status]; [|discriminate].
  intros _. apply existsb_true_filter in Ev as [f [fs Hf]].
  eexists. eexists. split; [|split].
  - unfold get_venue. rewrite Hint. cbn [negb sports_venues].
    unfold select_where. rewrite Hf.
    cbn [map]. reflexivity.
  - cbn [vr_images select_venue_row]. rewrite images_of_eq. cbn [field_images].
    apply in_map. apply filter_In. split.
    + apply in_or_app. right. now left.
    + cbn [Image.field_id]. apply Z.eqb_eq.
      assert (Hin : In f (filter (fun f => Venue.id f =? id) (sports_venues s)))
        by (rewrite Hf; now left).
      apply filter_In in Hin as [_ Hid]. now apply Z.eqb_eq in Hid.
  - cbn. repeat split.
    + unfold venue_images, select_where. intros H. apply Nat.eqb_eq in H.
      now apply length_zero_iff_nil.
    + unfold venue_images, select_where. intros ->. reflexivity.
Qed.

Lemma uploaded_image_is_shown_witness :
  exists row img,
    get_venue 4 (snd (upload_image mario 4 (FilePart "b.gif" "image/gif" "field-10.gif")
                        70 busy_db))
    = mkReply 200 (Json row)
    /\ In img (vr_images row)
    /\ ij_id img = field_images_id_seq busy_db
    /\ ij_image_url img = ("/uploads/field-images/" ++ "field-10.gif")%string
    /\ ij_uploaded_by img = userId mario
    /\ ij_uploaded_at img = 70
    /\ (ij_is_primary img = true <-> venue_images 4 busy_db = []).
Proof.
  apply (uploaded_image_is_shown mario 4 "b.gif" "image/gif" "field-10.gif" 70 busy_db).
  reflexivity.
Defined.

(** ** Delete all fields *)



Example delete_all_of_busy_db :
  snd (delete_all_fields busy_db) = mkDb (users busy_db) [] [] [] [] 2 2.
Proof. reflexivity. Qed.

(** ** My fields *)

(** X20: GET /my-fields returns, newest first, exactly the venues whose
    owner is the caller, and each venue it returns is one the caller's
    DELETE /:id is answered 200 for (the ids of the table being INTEGER
    values, as the column is declared). *)
Theorem my_fields_are_deletable (user : auth_user) (s : db) :
  venue_ids_integer s ->
  exists rows,
    my_fields user s = mkReply 200 (Json rows)
    /\ Permutation rows
         (map select_my_field
              (filter (fun f => owner_is (Venue.added_by_user_id f) (userId user))
                      (sports_venues s)))
    /\ StronglySorted my_fields_newest_first rows
    /\ (forall row, In row rows ->
          MyField.added_by_user_id row = Some (userId user)
          /\ status (fst (delete_venue user (MyField.id row) s)) = 200).
Proof.
  intros Hty. eexists. split; [reflexivity|]. split; [|split].
  - apply Permutation_map. apply order_by_perm.
  - apply StronglySorted_map with (R := fun a b => created_desc a b = true).
    + intros a b H. unfold my_fields_newest_first, created_desc in *.
      cbn [MyField.created_at select_my_field]. now apply Z.leb_le in H.
    + apply order_by_sorted; [apply created_desc_total | apply created_desc_trans].
  - intros row Hrow. apply in_map_iff in Hrow as [f [<- Hf]].
    apply order_by_In in Hf. apply filter_In in Hf as [Hf Ho].
    cbn [MyField.added_by_user_id MyField.id select_my_field]. split.
    + unfold owner_is in Ho. destruct (Venue.added_by_user_id f) as [o|]; [|discriminate].
      apply Z.eqb_eq in Ho. now subst.
    + assert (Hex : venue_exists s (Venue.id f) = true).
      { apply existsb_exists. exists f. split; [assumption | apply Z.eqb_refl]. }
      assert (Hid : int4 (Venue.id f) = true).
      { unfold venue_ids_integer in Hty. rewrite Forall_forall in Hty. now apply Hty. }
      destruct (isAdmin s (userId user)) eqn:Hadm.
      * now rewrite (delete_venue_admin_result user (Venue.id f) s Hid Hadm Hex).
      * unfold delete_venue. rewrite Hadm, Hid. cbn [negb].
        apply existsb_true_filter in Hex as [g [gs Hg]].
        unfold select_where at 1. rewrite Hg.
        assert (Hown : exists h hs,
                  select_where
                    (fun x => (Venue.id x =? Venue.id f)
                              && owner_is (Venue.added_by_user_id x) (userId user))
                    (sports_venues s) = h :: hs).
        { apply existsb_true_filter. apply existsb_exists. exists f.
          split; [assumption|]. now rewrite Z.eqb_refl, Ho. }
        destruct Hown as [h [hs Hh]]. unfold venueCheck. rewrite Hh. cbn [map app].
        cbn [delete_from fst]. rewrite Hh. reflexivity.
Qed.

Lemma my_fields_are_deletable_witness :
  exists rows,
    my_fields mario busy_db = mkReply 200 (Json rows)
    /\ Permutation rows
         (map select_my_field
              (filter (fun f => owner_is (Venue.added_by_user_id f) (userId mario))
                      (sports_venues busy_db)))
    /\ StronglySorted my_fields_newest_first rows
    /\ (forall row, In row rows ->
          MyField.added_by_user_id row = Some (userId mario)
          /\ status (fst (delete_venue mario (MyField.id row) busy_db)) = 200).
Proof.
  apply (my_fields_are_deletable mario busy_db).
  unfold venue_ids_integer. cbn. repeat constructor.
Defined.

Example my_fields_of_mario :
  match reply_body (my_fields mario busy_db) with
  | Json rows => map MyField.id rows
  | JsonMessage _ => []
  end = [4].
Proof. reflexivity. Qed.

(** ** All reports *)

(** X21: the handler of GET /reports/all returns every report of the
    database once, newest first, each with the name, city and province of
    its venue (NULL when the venue row is missing). *)
Theorem all_reports_listed (s : db) :
  exists rows,
    get_all_reports s = mkReply 200 (Json rows)
    /\ Permutation (map ar_report rows) (venue_reports s)
    /\ StronglySorted all_reports_newest_first rows
    /\ Forall (venue_joined s) rows.
Proof.
  eexists. split; [reflexivity|]. split; [|split].
  - rewrite map_map. cbn [ar_report select_all_reports_row]. rewrite map_id.
    apply order_by_perm.
  - apply StronglySorted_map with (R := fun a b => report_created_desc a b = true).
    + intros a b H. unfold all_reports_newest_first, report_created_desc in *.
      cbn [ar_report select_all_reports_row]. now apply Z.leb_le in H.
    + apply order_by_sorted;
        [apply report_created_desc_total | apply report_created_desc_trans].
  - apply Forall_forall. intros row Hrow. apply in_map_iff in Hrow as [r [<- _]].
    unfold venue_joined, select_all_reports_row, venue_by_id, venue_exists.
    cbn [ar_report venue_name ar_city ar_province].
    destruct (find _ (sports_venues s)) as [f|] eqn:E.
    + apply find_some in E as [Hf Hid]. split.
      * intros _. exists f. apply Z.eqb_eq in Hid. auto.
      * intros H. exfalso.
        assert (Hex : existsb (fun f0 => Venue.id f0 =? Report.venue_id r)
                              (sports_venues s) = true)
          by (apply existsb_exists; now exists f).
        congruence.
    + split; [|auto]. intros H. exfalso.
      apply existsb_exists in H as [f [Hf Hid]].
      apply (find_none _ _ E) in Hf. cbn in Hf. congruence.
Qed.

Example all_reports_of_busy_db :
  get_all_reports busy_db
  = mkReply 200
      (Json [mkAllReportsRow (Report.mk 1 4 1 "altro" None "pending" 60 60)
               (Some "Leosant06") (Some "Campetto") (Some "Milano") (Some "MI")]).
Proof. reflexivity. Qed.

(** ** The primary image, when paths name the venue of the image *)

Lemma two_images_keyed : images_keyed two_images.
Proof.
  split; [exact two_images_keys|]. cbn. repeat constructor; cbn; lia.
Qed.

Lemma two_images_invariant : primary_invariant two_images.
Proof.
  intros v. unfold primary_images, venue_images.
  cbn [field_images two_images filter first_image second_image Image.field_id].
  destruct (1 =? v); simpl;
    (split; [lia | intros H; try reflexivity; now contradiction H]).
Qed.

Lemma matched_requests_paths : paths_match matched_requests two_images.
Proof.
  cbn. repeat split. intros fi [<-|[<-|[]]]; [reflexivity | discriminate].
Qed.

Lemma two_images_integer : image_ids_integer two_images.
Proof. unfold image_ids_integer. cbn. repeat constructor. Qed.

(** X22: starting from a database that has unique image ids and at most
    one primary image per venue, exactly one where the venue has images,
    the ids of the image table being INTEGER values as its columns are
    declared, every sequence of Attach, Remove and SetPrimary in which
    each Remove goes through the path of the image's own venue ends in
    such a database, whatever the path ids of the requests. *)
Theorem matched_requests_keep_primary_invariant (rs : list image_request) (s : db) :
  images_keyed s -> primary_invariant s -> image_ids_integer s -> paths_match rs s ->
  primary_invariant (serve_all rs s) /\ images_keyed (serve_all rs s).
Proof.
  intros Hk Hp Ht Hm. destruct (primary_invariant_kept rs s Hk Hp Ht Hm).
  split; assumption.
Qed.

Lemma matched_requests_keep_primary_invariant_witness :
  primary_invariant (serve_all matched_requests two_images)
  /\ images_keyed (serve_all matched_requests two_images).
Proof.
  apply (matched_requests_keep_primary_invariant matched_requests two_images).
  - exact two_images_keyed.
  - exact two_images_invariant.
  - exact two_images_integer.
  - exact matched_requests_paths.
Defined.

Example matched_requests_result :
  map (fun fi => (Image.id fi, Image.is_primary fi))
      (field_images (serve_all matched_requests two_images))
  = [(2, false); (3, true)].
Proof. reflexivity. Qed.

(** X23: when the uploader deletes the primary image of a venue through
    the path of that venue, the two ids being INTEGER values, and the
    database had unique image ids and one primary per venue, the venue is
    left with no image, or with exactly one primary image, which no
    remaining image of the venue is older than. *)
Theorem remove_promotes_oldest_survivor (user : auth_user) (id imageId : Z) (s : db)
  (r0 : Image.t) :
  images_keyed s -> primary_invariant s ->
  In r0 (field_images s) -> Image.id r0 = imageId ->
  Image.uploaded_by r0 = userId user ->
  Image.is_primary r0 = true -> Image.field_id r0 = id ->
  int4 imageId = true -> int4 id = true ->
  (venue_images id (snd (delete_image user id imageId s)) = [] ->
   primary_images id (snd (delete_image user id imageId s)) = [])
  /\ (venue_images id (snd (delete_image user id imageId s)) <> [] ->
      exists n,
        primary_images id (snd (delete_image user id imageId s)) = [n]
        /\ forall fi, In fi (venue_images id (snd (delete_image user id imageId s))) ->
                      Image.uploaded_at n <= Image.uploaded_at fi).
Proof.
  intros Hk Hp Hin Hi Hu Pr Hv Hii Hid.
  exact (delete_image_promotes_oldest user id imageId s r0 Hk Hp Hin Hi Hu Pr Hv Hii Hid).
Qed.

Lemma remove_promotes_oldest_survivor_witness :
  (venue_images 1 (snd (delete_image leosant 1 1 two_images)) = [] ->
   primary_images 1 (snd (delete_image leosant 1 1 two_images)) = [])
  /\ (venue_images 1 (snd (delete_image leosant 1 1 two_images)) <> [] ->
      exists n,
        primary_images 1 (snd (delete_image leosant 1 1 two_images)) = [n]
        /\ forall fi, In fi (venue_images 1 (snd (delete_image leosant 1 1 two_images))) ->
                      Image.uploaded_at n <= Image.uploaded_at fi).
Proof.
  apply (remove_promotes_oldest_survivor leosant 1 1 two_images first_image);
    try reflexivity.
  - exact two_images_keyed.
  - exact two_images_invariant.
  - simpl. auto.
Defined.

Lemma in_update_where (p : Image.t -> bool) (b : bool) (l : list Image.t) (y : Image.t) :
  In y (update_where p (Image.set_is_primary b) l) ->
  exists x, In x l /\ (y = x \/ y = Image.set_is_primary b x).
Proof.
  unfold update_where. intros H. apply in_map_iff in H as [x [E Hx]].
  exists x. split; [assumption|]. destruct (p x); auto.
Qed.

(** X24: Remove and SetPrimary write nothing but [is_primary]: every row
    they leave is a row of the old table with the same id, venue, path,
    uploader and time, no other table and no sequence changes, and Remove
    never takes the flag from a row that had it. *)
Theorem remove_and_set_primary_only_reflag (user : auth_user) (id imageId : Z) (s : db) :
  (snd (delete_image user id imageId s)
   = with_field_images (field_images (snd (delete_image user id imageId s))) s
   /\ forall y, In y (field_images (snd (delete_image user id imageId s))) ->
        exists x, In x (field_images s)
                  /\ (y = x \/ y = Image.set_is_primary true x))
  /\ (snd (set_primary user id imageId s)
      = with_field_images (field_images (snd (set_primary user id imageId s))) s
      /\ forall y, In y (field_images (snd (set_primary user id imageId s))) ->
           exists x, In x (field_images s)
                     /\ y = Image.set_is_primary (Image.is_primary y) x).
Proof.
  split.
  - unfold delete_image.
    assert (Hsame : s = with_field_images (field_images s) s) by (destruct s; reflexivity).
    destruct (negb (int4 imageId));
      [split; [exact Hsame | intros y Hy; exists y; auto]|].
    destruct (select_where _ (field_images s)) as [|image rest];
      [split; [exact Hsame | intros y Hy; exists y; auto]|].
    destruct (negb (Image.uploaded_by image =? userId user));
      [split; [exact Hsame | intros y Hy; exists y; auto]|].
    assert (Hdel : forall y,
              In y (delete_where (fun fi => Image.id fi =? imageId) (field_images s)) ->
              In y (field_images s))
      by (intros y Hy; now apply filter_In in Hy).
    destruct (Image.is_primary image); cbn [andb].
    + destruct (negb (int4 id)); cbn [snd].
      { split; [reflexivity|]. cbn [field_images with_field_images].
        intros y Hy. exists y. auto. }
      cbn [field_images with_field_images].
      destruct (limit 1 _) as [|nextPrimary rest'].
      * split; [reflexivity|]. cbn [field_images with_field_images].
        intros y Hy. exists y. auto.
      * split; [reflexivity|]. cbn [field_images with_field_images].
        intros y Hy. apply in_update_where in Hy as [x [Hx Hy]]. exists x. auto.
    + split; [reflexivity|]. cbn [field_images with_field_images].
      intros y Hy. exists y. auto.
  - destruct (set_primary_reflags user id imageId s) as [l' [E [keep [flag Hl]]]].
    rewrite E. cbn [field_images with_field_images]. split; [reflexivity|].
    intros y Hy. rewrite Hl in Hy. apply in_map_iff in Hy as [x [<- Hx]].
    apply filter_In in Hx as [Hx _]. exists x. split; [assumption|]. reflexivity.
Qed.

(** * Properties of validateEmail *)

Example validateEmail_examples :
  validateEmail (fun _ => true) "mario.rossi@example.org" = mkEmailValidation true None
  /\ validateEmail (fun _ => true) "mario@YopMail.com"
     = mkEmailValidation false (Some "Email temporanee non sono consentite")
  /\ validateEmail (fun _ => true) "mario@example.c"
     = mkEmailValidation false (Some "Formato email non valido")
  /\ split "@" "a@b@c" = ["a"; "b"; "c"]
  /\ split "@" "" = [""].
Proof. repeat split; reflexivity. Qed.

(** ** Strings *)

Lemma append_nil_r (x : string) : (x ++ "")%string = x.
Proof. induction x as [|c x IH]; [reflexivity|]. simpl. now rewrite IH. Qed.

Lemma append_assoc (x y z : string) : ((x ++ y) ++ z)%string = (x ++ y ++ z)%string.
Proof. induction x as [|c x IH]; [reflexivity|]. simpl. now rewrite IH. Qed.

Lemma append_nil_inv (x y : string) : (x ++ y)%string = "" -> x = "" /\ y = "".
Proof. destruct x; [auto | discriminate]. Qed.

Lemma length_append (x y : string) :
  String.length (x ++ y) = (String.length x + String.length y)%nat.
Proof. induction x as [|c x IH]; [reflexivity|]. simpl. now rewrite IH. Qed.

(** ** The matcher decides the language *)

Lemma nullable_lang (r : regex) : nullable r = true <-> lang r "".
Proof.
  split.
  - induction r; simpl; intros H; try discriminate.
    + constructor.
    + apply andb_true_iff in H as [H1 H2].
      change ""%string with (""%string ++ ""%string)%string. constructor; auto.
    + apply orb_true_iff in H as [H|H]; [apply lang_alt_l | apply lang_alt_r]; auto.
    + constructor.
  - intros H. remember ""%string as x eqn:Ex. induction H; simpl; try reflexivity.
    + discriminate.
    + apply append_nil_inv in Ex as [-> ->]. rewrite IHlang1, IHlang2; reflexivity.
    + rewrite (IHlang Ex); reflexivity.
    + rewrite (IHlang Ex), orb_true_r; reflexivity.
Qed.

Lemma deriv_sound (c : ascii) (r : regex) (x : string) :
  lang (deriv c r) x -> lang r (String c x).
Proof.
  revert x. induction r; simpl; intros x H.
  - inversion H.
  - inversion H.
  - destruct (class c) eqn:E; inversion H; subst. now constructor.
  - inversion H as [| | | ? ? ? H1 | ? ? ? H1 | |]; subst.
    + inversion H1 as [| |? ? x1 x2 Ha Hb| | | |]; subst.
      change (String c (x1 ++ x2)) with (String c x1 ++ x2)%string.
      constructor; auto.
    + destruct (nullable r1) eqn:N; [|inversion H1].
      change (String c x) with (""%string ++ String c x)%string.
      constructor; [now apply nullable_lang | auto].
  - inversion H; subst; [apply lang_alt_l | apply lang_alt_r]; auto.
  - inversion H as [| |? ? x1 x2 Ha Hb| | | |]; subst.
    change (String c (x1 ++ x2)) with (String c x1 ++ x2)%string.
    constructor; auto.
Qed.

Lemma deriv_complete (c : ascii) (r : regex) (x : string) :
  lang r (String c x) -> lang (deriv c r) x.
Proof.
  intros H. remember (String c x) as y eqn:Ey. revert c x Ey.
  induction H; intros c0 x0 Ey; simpl.
  - discriminate.
  - injection Ey as -> <-. rewrite H. constructor.
  - destruct x1 as [|a x1].
    + simpl in Ey. subst x2. apply lang_alt_r.
      apply nullable_lang in H. rewrite H. now apply IHlang2.
    + simpl in Ey. injection Ey as -> <-. apply lang_alt_l.
      constructor; [now apply IHlang1 | assumption].
  - apply lang_alt_l. now apply IHlang.
  - apply lang_alt_r. now apply IHlang.
  - discriminate.
  - destruct x1 as [|a x1].
    + simpl in Ey. now apply IHlang2.
    + simpl in Ey. injection Ey as -> <-.
      constructor; [now apply IHlang1 | assumption].
Qed.

Lemma regex_test_lang (r : regex) (x : string) : regex_test r x = true <-> lang r x.
Proof.
  revert r. induction x as [|c x IH]; intros r; simpl.
  - apply nullable_lang.
  - rewrite IH. split; [apply deriv_sound | apply deriv_complete].
Qed.

(** ** Runs of one class *)

Lemma lang_star_chars (class : ascii -> bool) (x : string) :
  lang (Star (Chars class)) x <-> all_chars class x = true.
Proof.
  split.
  - intros H. remember (Star (Chars class)) as r eqn:Er.
    induction H; try discriminate; [reflexivity|].
    injection Er as ->. inversion H as [|cl ch Hc| | | | |]; subst. simpl.
    rewrite Hc. now apply IHlang2.
  - induction x as [|c x IH]; simpl; intros H; [constructor|].
    apply andb_true_iff in H as [Hc Hx].
    change (String c x) with (String c "" ++ x)%string.
    constructor; [now constructor | auto].
Qed.

Lemma lang_plus_chars (class : ascii -> bool) (x : string) :
  lang (Plus (Chars class)) x <-> x <> "" /\ all_chars class x = true.
Proof.
  unfold Plus. split.
  - intros H. inversion H as [| |? ? x1 x2 Ha Hb| | | |]; subst.
    inversion Ha as [|cl ch Hc| | | | |]; subst. apply lang_star_chars in Hb. simpl.
    split; [discriminate | now rewrite Hc].
  - intros [Hne H]. destruct x as [|c x]; [contradiction|].
    simpl in H. apply andb_true_iff in H as [Hc Hx].
    change (String c x) with (String c "" ++ x)%string.
    constructor; [now constructor | now apply lang_star_chars].
Qed.

Lemma lang_one_char (ch : string) (c0 : ascii) (x : string) :
  ch = String c0 "" -> (lang (Chars (one_of ch)) x <-> x = String c0 "").
Proof.
  intros ->. split.
  - intros H. inversion H as [|cl ch Hc| | | | |]; subst. unfold one_of in Hc.
    simpl in Hc. rewrite orb_false_r in Hc. apply Ascii.eqb_eq in Hc. now subst.
  - intros ->. constructor. unfold one_of. simpl. now rewrite Ascii.eqb_refl.
Qed.

(** The regular expression of the source accepts exactly the addresses
    of the shape it spells. *)
Lemma emailRegex_shape (email : string) :
  regex_test emailRegex email = true
  <-> exists local domain tld, email_shape email local domain tld.
Proof.
  rewrite regex_test_lang. unfold emailRegex, email_shape. split.
  - intros H.
    inversion H as [| |? ? local x2 Hl H2| | | |]; subst.
    inversion H2 as [| |? ? at_ x3 Hat H3| | | |]; subst.
    inversion H3 as [| |? ? domain x4 Hd H4| | | |]; subst.
    inversion H4 as [| |? ? dot x5 Hdot H5| | | |]; subst.
    inversion H5 as [| |? ? t1 t2 Ht1 Ht2| | | |]; subst.
    apply (lang_one_char "@" "@"%char) in Hat; [|reflexivity].
    apply (lang_one_char "." "."%char) in Hdot; [|reflexivity]. subst.
    apply lang_plus_chars in Hl as [Hl1 Hl2]. apply lang_plus_chars in Hd as [Hd1 Hd2].
    apply lang_plus_chars in Ht2 as [Ht21 Ht22].
    inversion Ht1 as [|cl ch Hc| | | | |]; subst.
    exists local, domain, (String ch t2). repeat split; auto.
    + simpl. destruct t2; [contradiction | simpl; lia].
    + simpl. now rewrite Hc.
  - intros [local [domain [tld [-> [Hl1 [Hl2 [Hd1 [Hd2 [Ht1 Ht2]]]]]]]]].
    constructor; [now apply lang_plus_chars|].
    constructor; [now apply (lang_one_char "@" "@"%char)|].
    constructor; [now apply lang_plus_chars|].
    constructor; [now apply (lang_one_char "." "."%char)|].
    destruct tld as [|c [|c' tld]]; simpl in Ht1; try lia.
    simpl in Ht2. apply andb_true_iff in Ht2 as [Hc Ht2].
    change (String c (String c' tld)) with (String c "" ++ String c' tld)%string.
    constructor; [now constructor|]. apply lang_plus_chars. split; [discriminate|assumption].
Qed.

(** ** Splitting at the at sign *)

Lemma all_chars_append (class : ascii -> bool) (x y : string) :
  all_chars class (x ++ y) = all_chars class x && all_chars class y.
Proof.
  induction x as [|c x IH]; [reflexivity|]. simpl. now rewrite IH, andb_assoc.
Qed.

Lemma all_chars_weaken (p q : ascii -> bool) (x : string) :
  (forall c, p c = true -> q c = true) -> all_chars p x = true -> all_chars q x = true.
Proof.
  intros Hpq. induction x as [|c x IH]; [reflexivity|]. simpl.
  intros H. apply andb_true_iff in H as [Hc Hx]. now rewrite (Hpq c Hc), IH.
Qed.

Lemma is_at_eq (c : ascii) : is_at c = true -> c = "@"%char.
Proof. apply Ascii.eqb_eq. Qed.

Lemma local_class_no_at (c : ascii) : local_class c = true -> negb (is_at c) = true.
Proof.
  intros H. destruct (is_at c) eqn:E; [|reflexivity].
  apply is_at_eq in E. subst. discriminate.
Qed.

Lemma domain_class_no_at (c : ascii) : domain_class c = true -> negb (is_at c) = true.
Proof.
  intros H. destruct (is_at c) eqn:E; [|reflexivity].
  apply is_at_eq in E. subst. discriminate.
Qed.

Lemma is_letter_no_at (c : ascii) : is_letter c = true -> negb (is_at c) = true.
Proof.
  intros H. destruct (is_at c) eqn:E; [|reflexivity].
  apply is_at_eq in E. subst. discriminate.
Qed.

Lemma split_no_at (x : string) : no_at x = true -> split "@" x = [x].
Proof.
  unfold no_at. induction x as [|c x IH]; [reflexivity|]. simpl.
  intros H. apply andb_true_iff in H as [Hc Hx]. apply negb_true_iff in Hc.
  unfold is_at in Hc. now rewrite Hc, IH.
Qed.

Lemma split_at_first (l r : string) :
  no_at l = true -> split "@" (l ++ "@" ++ r) = l :: split "@" r.
Proof.
  unfold no_at. induction l as [|c l IH]; [reflexivity|]. simpl.
  intros H. apply andb_true_iff in H as [Hc Hl]. apply negb_true_iff in Hc.
  unfold is_at in Hc. rewrite Hc. simpl in IH. now rewrite IH.
Qed.

Lemma second_piece (l r : string) :
  no_at l = true -> no_at r = true ->
  nth_error (split "@" (l ++ "@" ++ r)) 1 = Some r.
Proof.
  intros Hl Hr. now rewrite split_at_first, split_no_at.
Qed.

(** An address has one cut at an at sign with no at sign to its right
    and none to its left. *)
Lemma one_cut (l r l' r' : string) :
  no_at l = true -> no_at r = true -> no_at r' = true ->
  (l ++ "@" ++ r)%string = (l' ++ "@" ++ r')%string ->
  l = l' /\ r = r'.
Proof.
  unfold no_at. revert l'. induction l as [|c l IH]; intros l' Hl Hr Hr' E.
  - destruct l' as [|c' l']; simpl in E.
    + injection E as E. auto.
    + injection E as <- E. exfalso. rewrite E in Hr.
      rewrite all_chars_append in Hr. simpl in Hr.
      rewrite andb_false_r in Hr. discriminate.
  - destruct l' as [|c' l']; simpl in E.
    + injection E as -> E. simpl in Hl. discriminate.
    + injection E as <- E. simpl in Hl. apply andb_true_iff in Hl as [_ Hl].
      destruct (IH l' Hl Hr Hr' E) as [-> ->]. auto.
Qed.

Lemma to_lower_at (c : ascii) : is_at (to_lower c) = is_at c.
Proof. destruct c as [[] [] [] [] [] [] [] []]; reflexivity. Qed.

Lemma no_at_lower (x : string) : no_at (lower x) = no_at x.
Proof.
  unfold no_at. induction x as [|c x IH]; [reflexivity|].
  simpl. now rewrite to_lower_at, IH.
Qed.

Lemma disposable_no_at (d : string) : In d disposableDomains -> no_at d = true.
Proof.
  intros H.
  assert (Hall : forallb no_at disposableDomains = true) by reflexivity.
  rewrite forallb_forall in Hall. auto.
Qed.

Lemma in_disposable (d : string) :
  existsb (String.eqb d) disposableDomains = true <-> In d disposableDomains.
Proof.
  rewrite existsb_exists. split.
  - intros [x [Hx E]]. apply String.eqb_eq in E. now subst.
  - intros H. exists d. split; [assumption | apply String.eqb_refl].
Qed.

Lemma shape_no_at (email local domain tld : string) :
  email_shape email local domain tld ->
  no_at local = true /\ no_at (domain ++ "." ++ tld) = true.
Proof.
  intros [_ [_ [Hl [_ [Hd [_ Ht]]]]]]. unfold no_at. split.
  - apply (all_chars_weaken _ _ _ local_class_no_at Hl).
  - rewrite !all_chars_append.
    rewrite (all_chars_weaken _ _ _ domain_class_no_at Hd).
    rewrite (all_chars_weaken _ _ _ is_letter_no_at Ht). reflexivity.
Qed.

(** ** What validateEmail accepts *)

(** X25: validateEmail accepts an address exactly when the library
    validator accepts it, it has the shape local@domain.tld -- a
    non-empty local part of letters, digits and [._%+-], a non-empty
    domain of letters, digits, dots and hyphens, a top-level domain of at
    least two letters -- and the part after the at sign, folded to lower
    case, is none of the listed disposable domains. *)
Theorem validateEmail_accepts_iff (emailValidator_validate : string -> bool)
  (email : string) :
  isValid (validateEmail emailValidator_validate email) = true
  <-> emailValidator_validate email = true
      /\ exists local domain tld,
           email_shape email local domain tld
           /\ ~ In (lower (domain ++ "." ++ tld)) disposableDomains.
Proof.
  unfold validateEmail. destruct (emailValidator_validate email); cbn [negb];
    [|split; [discriminate | intros [H _]; discriminate]].
  split.
  - destruct (match option_map lower (nth_error (split "@" email) 1) with
              | Some d => existsb (String.eqb d) disposableDomains
              | None => false
              end) eqn:D; [discriminate|].
    destruct (regex_test emailRegex email) eqn:R; [|discriminate].
    intros _. split; [reflexivity|].
    apply emailRegex_shape in R as [local [domain [tld Hs]]].
    exists local, domain, tld. split; [assumption|].
    destruct (shape_no_at _ _ _ _ Hs) as [Hl Hr]. destruct Hs as [-> _].
    rewrite (second_piece _ _ Hl Hr) in D. cbn [option_map] in D.
    intros Hin. apply in_disposable in Hin. congruence.
  - intros [_ [local [domain [tld [Hs Hnot]]]]].
    destruct (shape_no_at _ _ _ _ Hs) as [Hl Hr].
    assert (R : regex_test emailRegex email = true)
      by (apply emailRegex_shape; now exists local, domain, tld).
    destruct Hs as [-> _]. rewrite (second_piece _ _ Hl Hr). cbn [option_map].
    destruct (existsb _ disposableDomains) eqn:D.
    + exfalso. apply Hnot. now apply in_disposable.
    + now rewrite R.
Qed.

(** X26: an address whose part after the at sign is a listed disposable
    domain, in any mix of upper and lower case, is never accepted,
    whatever the library validator says about it. *)
Theorem validateEmail_rejects_disposable (emailValidator_validate : string -> bool)
  (local domain : string) :
  In (lower domain) disposableDomains ->
  isValid (validateEmail emailValidator_validate (local ++ "@" ++ domain)) = false.
Proof.
  intros Hin. assert (Hd : no_at domain = true).
  { rewrite <- no_at_lower. now apply disposable_no_at. }
  unfold validateEmail. destruct (emailValidator_validate _); cbn [negb]; [|reflexivity].
  destruct (match option_map lower (nth_error (split "@" (local ++ "@" ++ domain)) 1) with
            | Some d => existsb (String.eqb d) disposableDomains
            | None => false
            end) eqn:D; [reflexivity|].
  destruct (regex_test emailRegex (local ++ "@" ++ domain)) eqn:R; [|reflexivity].
  exfalso. apply emailRegex_shape in R as [l [dm [tld Hs]]].
  destruct (shape_no_at _ _ _ _ Hs) as [Hl Hr]. destruct Hs as [E _].
  symmetry in E. destruct (one_cut _ _ _ _ Hl Hr Hd E) as [<- <-].
  rewrite (second_piece _ _ Hl Hr) in D. cbn [option_map] in D.
  apply in_disposable in Hin. congruence.
Qed.

Lemma validateEmail_rejects_disposable_witness :
  isValid (validateEmail (fun _ => true) ("mario.rossi" ++ "@" ++ "MailDrop.CC")) = false.
Proof.
  apply (validateEmail_rejects_disposable (fun _ => true) "mario.rossi" "MailDrop.CC").
  cbn. tauto.
Defined.

(** * The legacy table in the venue delete *)

(** X27: a caller who is no admin and owns no venue of the id, but owns a
    row of [football_fields] with that id, is answered 200 by DELETE /:id
    of an existing venue (the path id being an INTEGER value), and what
    is deleted is the legacy row: the venue, its images and its reports
    stay. *)
Theorem delete_venue_takes_legacy_row (user : auth_user) (id : Z) (s : db) :
  int4 id = true ->
  isAdmin s (userId user) = false ->
  owns_venue s (userId user) id = false ->
  owns_legacy_field s (userId user) id = true ->
  venue_exists s id = true ->
  delete_venue user id s
  = (mkResponse 200 (Message "Field deleted successfully"),
     mkDb (users s) (sports_venues s)
          (delete_where (fun f => (Legacy.id f =? id)
                                  && owner_is (Legacy.added_by_user_id f) (userId user))
                        (football_fields s))
          (field_images s) (venue_reports s)
          (field_images_id_seq s) (venue_reports_id_seq s)).
Proof.
  intros Hid Hadm Hown Hleg Hex. unfold delete_venue. rewrite Hadm, Hid. cbn [negb].
  apply existsb_true_filter in Hex as [f [fs Hf]].
  unfold select_where at 1. rewrite Hf.
  apply existsb_true_filter in Hleg as [g [gs Hg]].
  unfold venueCheck, select_where.
  rewrite (existsb_false_filter _ _ Hown), Hg. cbn [map app].
  cbn [delete_from fst snd]. unfold select_where. rewrite Hg. reflexivity.
Qed.

Lemma delete_venue_takes_legacy_row_witness :
  delete_venue mario 1 legacy_db
  = (mkResponse 200 (Message "Field deleted successfully"),
     mkDb (users legacy_db) (sports_venues legacy_db)
          (delete_where (fun f => (Legacy.id f =? 1)
                                  && owner_is (Legacy.added_by_user_id f) (userId mario))
                        (football_fields legacy_db))
          (field_images legacy_db) (venue_reports legacy_db)
          (field_images_id_seq legacy_db) (venue_reports_id_seq legacy_db)).
Proof.
  apply (delete_venue_takes_legacy_row mario 1 legacy_db); reflexivity.
Defined.

(** * More on images *)

(** ** The file filter *)

Lemma substring_all (x : string) : substring 0 (String.length x) x = x.
Proof. induction x as [|c x IH]; [reflexivity|]. simpl. now rewrite IH. Qed.

Lemma substring_after (p q : string) :
  substring (String.length p) (String.length q) (p ++ q) = q.
Proof. induction p as [|c p IH]; [apply substring_all | exact IH]. Qed.

Lemma substring_cut (x : string) (k : nat) :
  (k <= String.length x)%nat ->
  (substring 0 k x ++ substring k (String.length x - k) x)%string = x.
Proof.
  revert k. induction x as [|c x IH]; intros k Hk.
  - destruct k; reflexivity.
  - destruct k as [|k].
    + simpl. now rewrite substring_all.
    + simpl in Hk. simpl. f_equal. apply IH. lia.
Qed.

Lemma ends_with_suffix (suffix x : string) :
  ends_with suffix x = true <-> exists stem, x = (stem ++ suffix)%string.
Proof.
  unfold ends_with. split.
  - intros H. apply andb_true_iff in H as [Hle E].
    apply Nat.leb_le in Hle. apply String.eqb_eq in E.
    exists (substring 0 (String.length x - String.length suffix) x).
    pose proof (substring_cut x (String.length x - String.length suffix)) as Hc.
    replace (String.length x - (String.length x - String.length suffix))%nat
      with (String.length suffix) in Hc by lia.
    rewrite E in Hc. symmetry. apply Hc. lia.
  - intros [stem ->]. rewrite length_append.
    replace (String.length stem + String.length suffix - String.length suffix)%nat
      with (String.length stem) by lia.
    rewrite substring_after, String.eqb_refl, andb_true_r.
    apply Nat.leb_le. lia.
Qed.

(** X28: an upload is refused with 400, and nothing is stored, unless
    the original file name ends with .jpg, .jpeg, .png or .gif, in any
    letter case, and the declared MIME type is image/jpeg, image/jpg,
    image/png or image/gif: one of the two is not enough. *)
Theorem upload_needs_image_name_and_type (user : auth_user) (id : Z)
  (originalname mimetype filename : string) (now : Z) (s : db) :
  (forall stem ext, In ext [".jpg"; ".jpeg"; ".png"; ".gif"] ->
                    lower originalname <> (stem ++ ext)%string)
  \/ ~ In mimetype ["image/jpeg"; "image/jpg"; "image/png"; "image/gif"] ->
  upload_image user id (FilePart originalname mimetype filename) now s
  = (mkResponse 400 (Message ("Only image files are allowed! Received: " ++ mimetype)), s).
Proof.
  intros H. unfold upload_image.
  assert (E : hasValidExtension originalname && hasValidMimeType mimetype = false).
  { apply andb_false_iff. destruct H as [H|H].
    - left. unfold hasValidExtension.
      destruct (existsb _ _) eqn:Ex; [|reflexivity]. exfalso.
      apply existsb_exists in Ex as [ext [Hext He]].
      apply ends_with_suffix in He as [stem He]. now apply (H stem ext).
    - right. unfold hasValidMimeType.
      destruct (existsb _ _) eqn:Ex; [|reflexivity]. exfalso. apply H.
      apply existsb_exists in Ex as [m [Hm He]]. apply String.eqb_eq in He. now subst. }
  now rewrite E.
Qed.

Lemma upload_needs_image_name_and_type_witness :
  upload_image mario 4 (FilePart "photo.JPG" "application/pdf" "field-11.JPG") 70 busy_db
  = (mkResponse 400
       (Message ("Only image files are allowed! Received: " ++ "application/pdf")),
     busy_db).
Proof.
  apply (upload_needs_image_name_and_type mario 4 "photo.JPG" "application/pdf"
           "field-11.JPG" 70 busy_db).
  right. cbn. intros [H|[H|[H|[H|[]]]]]; discriminate H.
Defined.

(** ** A deleted image, and an upload undone *)

Lemma delete_image_ids (user : auth_user) (id imageId : Z) (s : db) (r0 : Image.t) :
  NoDup (map Image.id (field_images s)) ->
  In r0 (field_images s) -> Image.id r0 = imageId ->
  Image.uploaded_by r0 = userId user ->
  int4 imageId = true ->
  ~ In imageId (map Image.id (field_images (snd (delete_image user id imageId s)))).
Proof.
  intros Hnd Hin Hi Hu Hii. unfold delete_image. rewrite Hii. cbn [negb].
  assert (Hsel : select_where (fun fi => Image.id fi =? imageId) (field_images s) = [r0]).
  { rewrite <- Hi. apply (filter_key_present Image.id r0 _ Hnd Hin). }
  rewrite Hsel, Hu, Z.eqb_refl. cbn [negb].
  destruct (Image.is_primary r0); cbn [andb];
    [|cbn [snd field_images with_field_images]; apply delete_where_ids].
  destruct (negb (int4 id)); cbn [snd field_images with_field_images];
    [apply delete_where_ids|].
  destruct (limit 1 _) as [|nextPrimary rest];
    cbn [snd field_images with_field_images]; [apply delete_where_ids|].
  rewrite map_id_update. apply delete_where_ids.
Qed.

Lemma select_absent_id (imageId : Z) (p : Image.t -> bool) (l : list Image.t) :
  ~ In imageId (map Image.id l) ->
  select_where (fun fi => (Image.id fi =? imageId) && p fi) l = [].
Proof.
  intros H. unfold select_where.
  destruct (filter _ l) as [|x rest] eqn:E; [reflexivity|]. exfalso. apply H.
  assert (Hx : In x (filter (fun fi => (Image.id fi =? imageId) && p fi) l))
    by (rewrite E; now left).
  apply filter_In in Hx as [Hx Hp]. apply andb_true_iff in Hp as [Hi _].
  apply Z.eqb_eq in Hi. rewrite <- Hi. now apply in_map.
Qed.

(** X29: once its uploader has asked for an image to be deleted, the
    image id being an INTEGER value and the venue id of the path any
    integer, the image is gone for every handler: a second delete, by
    anyone and through any venue id, is answered 404 and changes nothing;
    a set-primary of it, by anyone, changes nothing and is answered 404
    through a venue id that is an INTEGER value and 500 through one that
    is not; and GET /:id shows it for no venue. *)
Theorem deleted_image_is_gone (user : auth_user) (id imageId : Z) (s : db) (r0 : Image.t) :
  NoDup (map Image.id (field_images s)) ->
  In r0 (field_images s) -> Image.id r0 = imageId ->
  Image.uploaded_by r0 = userId user ->
  int4 imageId = true ->
  let s' := snd (delete_image user id imageId s) in
  (forall user' id',
     delete_image user' id' imageId s' = (mkResponse 404 (Message "Image not found"), s'))
  /\ (forall user' id',
        set_primary user' id' imageId s'
        = (if int4 id' then mkResponse 404 (Message "Image not found") else server_error,
           s'))
  /\ (forall v row img,
        get_venue v s' = mkReply 200 (Json row) -> In img (vr_images row) ->
        ij_id img <> imageId).
Proof.
  intros Hnd Hin Hi Hu Hii s'.
  pose proof (delete_image_ids user id imageId s r0 Hnd Hin Hi Hu Hii) as Hgone.
  fold s' in Hgone. split; [|split].
  - intros user' id'. unfold delete_image. rewrite Hii. cbn [negb].
    unfold select_where at 1.
    now rewrite (filter_key_absent Image.id imageId _ Hgone).
  - intros user' id'. unfold set_primary. rewrite Hii. cbn [andb].
    destruct (int4 id'); cbn [negb]; [|reflexivity].
    now rewrite (select_absent_id imageId (fun fi => Image.field_id fi =? id') _ Hgone).
  - intros v row img Hget Himg E. apply Hgone. unfold get_venue in Hget.
    destruct (negb (int4 v)); [discriminate|].
    destruct (select_where _ (sports_venues s')) as [|f fs]; [discriminate|].
    cbn [map] in Hget. injection Hget as <-.
    cbn [vr_images select_venue_row] in Himg. rewrite images_of_eq in Himg.
    apply in_map_iff in Himg as [fi [<- Hfi]]. apply filter_In in Hfi as [Hfi _].
    cbn [ij_id json_build_object] in E. rewrite <- E. now apply in_map.
Qed.

Lemma deleted_image_is_gone_witness :
  (forall user' id',
     delete_image user' id' 1 (snd (delete_image leosant 2 1 two_images))
     = (mkResponse 404 (Message "Image not found"),
        snd (delete_image leosant 2 1 two_images)))
  /\ (forall user' id',
        set_primary user' id' 1 (snd (delete_image leosant 2 1 two_images))
        = (if int4 id' then mkResponse 404 (Message "Image not found") else server_error,
           snd (delete_image leosant 2 1 two_images)))
  /\ (forall v row img,
        get_venue v (snd (delete_image leosant 2 1 two_images)) = mkReply 200 (Json row) ->
        In img (vr_images row) -> ij_id img <> 1).
Proof.
  apply (deleted_image_is_gone leosant 2 1 two_images first_image).
  - exact two_images_keys.
  - simpl. auto.
  - reflexivity.
  - reflexivity.
  - reflexivity.
Defined.

Lemma delete_fresh_id (l : list Image.t) (fi : Image.t) :
  Forall (fun x => Image.id x < Image.id fi) l ->
  delete_where (fun x => Image.id x =? Image.id fi) (l ++ [fi])%list = l
  /\ select_where (fun x => Image.id x =? Image.id fi) (l ++ [fi])%list = [fi].
Proof.
  intros Hlt. unfold delete_where, select_where. rewrite !filter_app. simpl.
  rewrite Z.eqb_refl. simpl.
  assert (Hne : forall x, In x l -> (Image.id x =? Image.id fi) = false).
  { intros x Hx. rewrite Forall_forall in Hlt. specialize (Hlt x Hx).
    apply Z.eqb_neq. lia. }
  split.
  - rewrite app_nil_r. apply forallb_filter_id. apply forallb_forall.
    intros x Hx. now rewrite (Hne x Hx).
  - replace (filter (fun x => Image.id x =? Image.id fi) l) with (@nil Image.t);
      [reflexivity|].
    symmetry. apply existsb_false_filter.
    destruct (existsb _ l) eqn:E; [|reflexivity].
    apply existsb_exists in E as [x [Hx Ex]]. rewrite (Hne x Hx) in Ex. discriminate.
Qed.

(** X30: an upload that was stored is undone by deleting the new image
    through the same venue: when the uploader deletes the image the
    upload created, with the venue id of the upload in the path, the
    delete is answered 200 and every table is what it was before the
    upload; only the image sequence has advanced. *)
Theorem upload_then_delete (user : auth_user) (id : Z) (up : upload_outcome) (now : Z)
  (s : db) :
  images_keyed s ->
  status (fst (upload_image user id up now s)) = 200 ->
  delete_image user id (field_images_id_seq s) (snd (upload_image user id up now s))
  = (mkResponse 200 (Message "Image deleted successfully"), bump_field_images_seq s).
Proof.
  intros [Hnd Hlt]. unfold upload_image.
  destruct up as [|msg|originalname mimetype filename]; simpl; try discriminate.
  destruct (hasValidExtension originalname && hasValidMimeType mimetype);
    simpl; [|discriminate].
  destruct (int4 id) eqn:Hid; simpl; [|discriminate].
  destruct (venue_exists s id); simpl; [|discriminate].
  unfold insert_field_image.
  destruct (int4 (field_images_id_seq s)) eqn:Hseq; simpl; [|discriminate].
  destruct (user_exists s (userId user)); simpl; [|discriminate].
  intros _.
  set (fi := Image.mk (field_images_id_seq s) id _ (userId user) now _).
  assert (Hlt' : Forall (fun x => Image.id x < Image.id fi) (field_images s)) by exact Hlt.
  destruct (delete_fresh_id (field_images s) fi Hlt') as [Hdel Hsel].
  change (Image.id fi) with (field_images_id_seq s) in Hdel, Hsel.
  unfold delete_image. rewrite Hseq, Hid. cbn [negb field_images]. rewrite Hsel.
  change (Image.uploaded_by fi) with (userId user). rewrite Z.eqb_refl. cbn [negb].
  rewrite andb_false_r.
  cbn [with_field_images users sports_venues football_fields field_images
       venue_reports field_images_id_seq venue_reports_id_seq].
  rewrite Hdel. unfold bump_field_images_seq.
  subst fi. cbn [Image.is_primary].
  destruct (select_where (fun fi0 => (Image.field_id fi0 =? id)%Z) (field_images s))
    as [|x rest] eqn:Es; reflexivity.
Qed.

Lemma upload_then_delete_witness :
  delete_image mario 4 (field_images_id_seq busy_db)
    (snd (upload_image mario 4 (a_jpeg "field-12.jpg") 70 busy_db))
  = (mkResponse 200 (Message "Image deleted successfully"), bump_field_images_seq busy_db).
Proof.
  apply (upload_then_delete mario 4 (a_jpeg "field-12.jpg") 70 busy_db).
  - split; cbn; repeat constructor; cbn; try lia.
  - reflexivity.
Defined.
